(** * The protobuf reader of unified_planning, embedded in Rocq

    Source: [unified_planning/grpc/proto_reader.py].

    The reader rebuilds planning-model values (types, expressions, effects,
    actions, problems, plans) from a tree of protobuf messages.  The
    embedding follows the Python text handler by handler:

    - Python exceptions are the [Raise] arm of [Result];
    - the one mutable attribute of the reader, [current_action], is passed
      explicitly: a handler that only reads it takes the reader as an
      argument, a handler that assigns it returns the new reader as well;
    - the built-ins the reader calls ([str.split], [str.startswith], [in],
      [int], [float], [fractions.Fraction]) are embedded in [PyStr] and
      [PyNum];
    - the classes of [unified_planning.model] live in other modules of the
      package; the little the reader needs of them is in [Model]. *)

Set Warnings "-register-all".
From Stdlib Require Import ZArith QArith Qreduction Qpower String Ascii List Bool Lia.
From Stdlib Require Import DecimalString DecimalZ DecimalPos DecimalFacts.
Import ListNotations.

Local Open Scope string_scope.
Local Open Scope Z_scope.

(** ** Exceptions and results *)

Inductive Exn : Type :=
| ValueError
| IndexError
| KeyError
| AssertionError
| AttributeError
| ZeroDivisionError
| UPValueError.

Inductive Result (A : Type) : Type :=
| Ok (a : A)
| Raise (e : Exn).

Arguments Ok {A} a.
Arguments Raise {A} e.

Definition bind {A B : Type} (r : Result A) (k : A -> Result B) : Result B :=
  match r with
  | Ok a => k a
  | Raise e => Raise e
  end.

Notation "'let*' x ':=' r 'in' k" := (bind r (fun x => k))
  (at level 10, x pattern, r at level 100, k at level 200).

Definition returns {A : Type} (r : Result A) : Prop := exists a, r = Ok a.

(** ** Python [str] methods *)

Module PyStr.

(** [s.startswith(p)] *)
Definition startswith (s p : string) : bool := String.prefix p s.

(** [sub in s] *)
Fixpoint contains (sub s : string) : bool :=
  String.prefix sub s
  || match s with
     | EmptyString => false
     | String _ s' => contains sub s'
     end.

(** [s.split(sep)] for a non-empty separator: the pieces between the
    occurrences of [sep], found left to right without overlap.  [skip]
    counts the characters of a separator just matched that are still to be
    consumed; [cur] is the piece being read, in reverse. *)
Fixpoint split_go (sep : string) (skip : nat) (cur : string) (s : string)
  : list string :=
  match s with
  | EmptyString => [cur]
  | String c s' =>
      match skip with
      | S k => split_go sep k cur s'
      | O =>
          if String.prefix sep s
          then cur :: split_go sep (Nat.pred (String.length sep)) EmptyString s'
          else split_go sep 0 (cur ++ String c EmptyString) s'
      end
  end.

Definition split (s sep : string) : list string := split_go sep 0 EmptyString s.

(** [l[i]] *)
Definition index {A : Type} (l : list A) (i : nat) : Result A :=
  match nth_error l i with
  | Some a => Ok a
  | None => Raise IndexError
  end.

End PyStr.

(** ** Python numbers: [int(str)], [fractions.Fraction(str)], [float(str)]

    Strings are byte strings here, so only the ASCII part of the grammars is
    embedded (ASCII white space, the digits 0-9).  [int] and [float] take
    the underscores of PEP 515; [Fraction] follows the [_RATIONAL_FORMAT] of
    Python 3.8 to 3.10, which takes none. *)

Module PyNum.

Definition is_space (c : ascii) : bool :=
  let n := nat_of_ascii c in
  ((9 <=? n) && (n <=? 13) || (28 <=? n) && (n <=? 32))%nat.

Definition is_digit (c : ascii) : bool :=
  let n := nat_of_ascii c in ((48 <=? n) && (n <=? 57))%nat.

Definition digit_val (c : ascii) : Z := Z.of_nat (nat_of_ascii c) - 48.

Fixpoint lstrip (s : string) : string :=
  match s with
  | String c s' => if is_space c then lstrip s' else s
  | EmptyString => EmptyString
  end.

Fixpoint rstrip (s : string) : string :=
  match s with
  | String c s' =>
      match rstrip s' with
      | EmptyString => if is_space c then EmptyString else String c EmptyString
      | r => String c r
      end
  | EmptyString => EmptyString
  end.

Definition strip (s : string) : string := rstrip (lstrip s).

(** The value of a string of digits, most significant first. *)
Fixpoint digits_val (acc : Z) (s : string) : Z :=
  match s with
  | String c s' => digits_val (10 * acc + digit_val c) s'
  | EmptyString => acc
  end.

(** [digit+] without separators: the longest prefix of digits and the rest. *)
Fixpoint span_digits (s : string) : string * string :=
  match s with
  | String c s' =>
      if is_digit c
      then let '(d, r) := span_digits s' in (String c d, r)
      else (EmptyString, s)
  | EmptyString => (EmptyString, EmptyString)
  end.

(** [digit (["_"] digit)*], the digit part of PEP 515: the digits read (the
    underscores dropped) and the rest.  An underscore is taken only between
    two digits; anywhere else the reading stops in front of it. *)
Fixpoint digitpart (prev_digit : bool) (s : string) : string * string :=
  match s with
  | String c s' =>
      if is_digit c
      then let '(d, r) := digitpart true s' in (String c d, r)
      else if (c =? "_")%char
           then match s' with
                | String c' _ =>
                    if prev_digit && is_digit c'
                    then digitpart false s'
                    else (EmptyString, s)
                | EmptyString => (EmptyString, s)
                end
           else (EmptyString, s)
  | EmptyString => (EmptyString, EmptyString)
  end.

(** An optional sign: [true] for a minus sign, and the rest. *)
Definition sign (s : string) : bool * string :=
  match s with
  | String "-" r => (true, r)
  | String "+" r => (false, r)
  | _ => (false, s)
  end.

Definition apply_sign (neg : bool) (z : Z) : Z := if neg then - z else z.

(** [int(s)], base ten. *)
Definition int (s : string) : Result Z :=
  let '(neg, r) := sign (strip s) in
  match digitpart false r with
  | (String c d, EmptyString) => Ok (apply_sign neg (digits_val 0 (String c d)))
  | _ => Raise ValueError
  end.

(** An exponent [[-+]?digit+] that ends the string. *)
Definition exponent (s : string) : option Z :=
  let '(neg, r) := sign s in
  match span_digits r with
  | (String c d, EmptyString) => Some (apply_sign neg (digits_val 0 (String c d)))
  | _ => None
  end.

Definition is_e (c : ascii) : bool := ((c =? "e") || (c =? "E"))%char.

(** [fractions.Fraction(s)]: the grammar of [_RATIONAL_FORMAT]
    (sign, then [num], then either [/denom] or [.decimal] and [E exp]),
    the value reduced to lowest terms as [Fraction] stores it. *)
Definition fraction_of (neg : bool) (num den : Z) : Result Q :=
  if den =? 0 then Raise ZeroDivisionError
  else Ok (Qred (Qmake (apply_sign neg num) (Z.to_pos den))).

Definition scale_exp (num den exp : Z) : Z * Z :=
  if 0 <=? exp then (num * 10 ^ exp, den) else (num, den * 10 ^ (- exp)).

Definition Fraction (s : string) : Result Q :=
  let '(neg, r) := sign (strip s) in
  let lookahead :=
    match r with
    | String c (String c' _) => is_digit c || ((c =? ".")%char && is_digit c')
    | String c EmptyString => is_digit c
    | EmptyString => false
    end in
  if negb lookahead then Raise ValueError
  else
    let '(num, r1) := span_digits r in
    let n := digits_val 0 num in
    match r1 with
    | EmptyString => fraction_of neg n 1
    | String "/" r2 =>
        match span_digits r2 with
        | (String c d, EmptyString) => fraction_of neg n (digits_val 0 (String c d))
        | _ => Raise ValueError
        end
    | _ =>
        let '(dec, r2) :=
          match r1 with
          | String "." r' => span_digits r'
          | _ => (EmptyString, r1)
          end in
        let scale := 10 ^ Z.of_nat (String.length dec) in
        let n' := n * scale + digits_val 0 dec in
        match r2 with
        | EmptyString => fraction_of neg n' scale
        | String c r3 =>
            if is_e c
            then match exponent r3 with
                 | Some e => let '(a, b) := scale_exp n' scale e in fraction_of neg a b
                 | None => Raise ValueError
                 end
            else Raise ValueError
        end
    end.

(** A Python [float]: a binary64 value [m * 2^e] with its sign, an infinity
    or a NaN. *)
Inductive PyFloat : Type :=
| FNum (neg : bool) (m e : Z)
| FInf (neg : bool)
| FNaN.

(** The exact rational value of a finite float. *)
Definition float_value (f : PyFloat) : option Q :=
  match f with
  | FNum neg m e =>
      Some (if 0 <=? e
            then inject_Z (apply_sign neg m * 2 ^ e)
            else Qmake (apply_sign neg m) (Z.to_pos (2 ^ (- e))))
  | _ => None
  end.

(** Round the positive rational [n/d] to binary64, to nearest, ties to
    even, with gradual underflow; too large a value becomes an infinity. *)
Definition round_binary64 (neg : bool) (n d : Z) : PyFloat :=
  if n =? 0 then FNum neg 0 0
  else
    let floor_at e := if 0 <=? e then n / (d * 2 ^ e) else (n * 2 ^ (- e)) / d in
    let e1 := Z.log2 n - Z.log2 d - 53 in
    let e2 := if 2 ^ 53 <=? floor_at e1 then e1 + 1 else e1 in
    let e := Z.max e2 (-1074) in
    let num := if 0 <=? e then n else n * 2 ^ (- e) in
    let den := if 0 <=? e then d * 2 ^ e else d in
    let q := num / den in
    let r := num mod den in
    let m := if (den <? 2 * r) || ((2 * r =? den) && Z.odd q) then q + 1 else q in
    let '(m', e') := if m =? 2 ^ 53 then (2 ^ 52, e + 1) else (m, e) in
    if 971 <? e' then FInf neg else FNum neg m' e'.

Definition lower (c : ascii) : ascii :=
  let n := nat_of_ascii c in
  if ((65 <=? n) && (n <=? 90))%nat then ascii_of_nat (n + 32) else c.

Fixpoint lowercase (s : string) : string :=
  match s with
  | String c s' => String (lower c) (lowercase s')
  | EmptyString => EmptyString
  end.

(** [float(s)]: [inf], [infinity] and [nan] in any case, or a decimal
    literal [digitpart [. [digitpart]] [exponent]] or [. digitpart
    [exponent]]. *)
Definition float_exponent (s : string) : option Z :=
  let '(neg, r) := sign s in
  match digitpart false r with
  | (String c d, EmptyString) => Some (apply_sign neg (digits_val 0 (String c d)))
  | _ => None
  end.

Definition float (s : string) : Result PyFloat :=
  let '(neg, r) := sign (strip s) in
  let w := lowercase r in
  if ((w =? "inf") || (w =? "infinity"))%string then Ok (FInf neg)
  else if (w =? "nan")%string then Ok FNaN
  else
    let '(ip, r1) := digitpart false r in
    let '(fp, r2, dot) :=
      match r1 with
      | String "." r' => let '(d, r'') := digitpart false r' in (d, r'', true)
      | _ => (EmptyString, r1, false)
      end in
    if ((String.length ip =? 0) && (String.length fp =? 0))%nat then Raise ValueError
    else
      let scale := 10 ^ Z.of_nat (String.length fp) in
      let n := digits_val 0 ip * scale + digits_val 0 fp in
      match r2 with
      | EmptyString => Ok (round_binary64 neg n scale)
      | String c r3 =>
          if is_e c
          then match float_exponent r3 with
               | Some e => let '(a, b) := scale_exp n scale e in
                           Ok (round_binary64 neg a b)
               | None => Raise ValueError
               end
          else Raise ValueError
      end.

End PyNum.

(** ** The planning model the reader builds

    The classes of [unified_planning.model] and
    [unified_planning.plan] ([Type], [Object], [Fluent], [ActionParameter],
    [FNode], [Effect], [Timing], [TimeInterval], [InstantaneousAction],
    [DurativeAction], [Problem], [SequentialPlan], [ActionInstance]) live
    outside the reader's file.  They are records holding what the reader
    hands to their constructors, as section 3 of the spec lists them. *)

Module Model.

(** Modelled from the spec: a bound of a real type is the
    [fractions.Fraction] or the [float], whichever the
    reader passed. *)
Inductive Number : Type :=
| NFraction (q : Q)
| NFloat (f : PyNum.PyFloat).

(** Modelled from the spec: the domain types of section 3, with optional
    inclusive bounds and an optional parent, built by
    [BoolType()], [IntType(lb, ub)], [RealType(lb, ub)],
    [UserType(name, father)]. *)
Inductive UPType : Type :=
| BoolType
| IntType (lower_bound upper_bound : option Z)
| RealType (lower_bound upper_bound : option Number)
| UserType (name : string) (father : option UPType).

(** Modelled from the spec: [Object(name, type)], [Fluent(name, type,
    signature)] and [ActionParameter(name, type)] keep their arguments. *)
Record Object : Type := mkObject { o_name : string; o_type : UPType }.

Record Fluent : Type :=
  mkFluent { f_name : string; f_type : UPType; f_signature : list UPType }.

Record ActionParameter : Type :=
  mkActionParameter { p_name : string; p_type : UPType }.

Inductive Operator : Type :=
| BOOL_CONSTANT | INT_CONSTANT | REAL_CONSTANT
| FLUENT_EXP | OBJECT_EXP | PARAM_EXP.

(** Modelled from the spec: an expression node is a tagged tree with a
    payload; the expression manager builds it from what it is given.  This
    is what a handler of the reader may return where Python expects an
    expression: [None], a wire scalar, a model object, or an [FNode] made by
    the expression manager. *)
Inductive Value : Type :=
| VNone
| VInt (z : Z)
| VReal (q : Q)
| VBool (b : bool)
| VObject (o : Object)
| VFluent (f : Fluent)
| VParameter (p : ActionParameter)
| FNode (node_type : Operator) (args : list Value) (payload : Value).

Definition is_None (v : Value) : bool :=
  match v with VNone => true | _ => false end.

(** Modelled from the spec: [expression_manager.create_node], [Int], [Real], [Bool],
    [ParameterExp]. *)
Definition create_node (node_type : Operator) (args : list Value)
  (payload : Value) : Value := FNode node_type args payload.
Definition Int (z : Z) : Value := FNode INT_CONSTANT [] (VInt z).
Definition Real (q : Q) : Value := FNode REAL_CONSTANT [] (VReal q).
Definition Bool (b : bool) : Value := FNode BOOL_CONSTANT [] (VBool b).
Definition ParameterExp (p : ActionParameter) : Value :=
  FNode PARAM_EXP [] (VParameter p).

Definition payload_of (v : Value) : option Value :=
  match v with FNode _ _ p => Some p | _ => None end.

(** [ASSIGN], [INCREASE], [DECREASE] of [unified_planning.model.effect];
    [KIND_0] is the literal [0] the effect handler starts from. *)
Inductive EffectKind : Type := KIND_0 | ASSIGN | INCREASE | DECREASE.

(** Modelled from the spec: [Effect(fluent, value, condition, kind)] and
    [Effect(fluent, value, kind)]: the positional arguments as the reader
    passes them. *)
Inductive Effect : Type :=
| Effect4 (fluent value condition : Value) (kind : EffectKind)
| Effect3 (fluent value : Value) (kind : EffectKind).

Definition fluent (e : Effect) : Value :=
  match e with Effect4 f _ _ _ | Effect3 f _ _ => f end.
Definition value (e : Effect) : Value :=
  match e with Effect4 _ v _ _ | Effect3 _ v _ => v end.

Inductive Timepoint : Type := GLOBAL_START | GLOBAL_END | START | END.

Record Timing : Type :=
  mkTiming { delay : Z; timepoint : option Timepoint }.

Record TimeInterval : Type :=
  mkTimeInterval { lower : Timing; upper : Timing;
                   is_left_open : bool; is_right_open : bool }.

(** An [OrderedDict] with string keys: assignment to a key already there
    replaces the value in place, a new key goes to the end. *)
Definition OrderedDict (A : Type) : Type := list (string * A).

Fixpoint od_set {A : Type} (d : OrderedDict A) (k : string) (v : A)
  : OrderedDict A :=
  match d with
  | [] => [(k, v)]
  | (k', v') :: d' =>
      if (k' =? k)%string then (k, v) :: d' else (k', v') :: od_set d' k v
  end.

Fixpoint od_get {A : Type} (d : OrderedDict A) (k : string) : Result A :=
  match d with
  | [] => Raise KeyError
  | (k', v') :: d' => if (k' =? k)%string then Ok v' else od_get d' k
  end.

Inductive ActionClass : Type := Instantaneous | Durative.

(** Modelled from the spec: an action under construction, with the common
    fields of section 3 of the
    spec, a condition with its optional span, an effect with its optional
    occurrence time. *)
Record Action : Type :=
  mkAction { a_class : ActionClass;
             a_name : string;
             a_parameters : OrderedDict ActionParameter;
             a_duration : option Value;
             a_conditions : list (option TimeInterval * Value);
             a_effects : list (option Timing * Value * Value);
             a_cost : option Value }.

Definition InstantaneousAction (name : string)
  (parameters : OrderedDict ActionParameter) : Action :=
  mkAction Instantaneous name parameters None [] [] None.

Definition DurativeAction (name : string)
  (parameters : OrderedDict ActionParameter) : Action :=
  mkAction Durative name parameters None [] [] None.

(** Modelled from the spec: [action.parameter(name)] looks the name up in
    the ordered mapping, a [KeyError] when there is none; the other methods
    set a field or append to a list. *)
Definition parameter (a : Action) (name : string) : Result ActionParameter :=
  od_get (a_parameters a) name.

Definition set_duration_constraint (a : Action) (d : Value) : Action :=
  mkAction (a_class a) (a_name a) (a_parameters a) (Some d)
           (a_conditions a) (a_effects a) (a_cost a).

Definition add_condition (a : Action) (span : TimeInterval) (c : Value) : Action :=
  mkAction (a_class a) (a_name a) (a_parameters a) (a_duration a)
           (a_conditions a ++ [(Some span, c)]) (a_effects a) (a_cost a).

Definition add_precondition (a : Action) (c : Value) : Action :=
  mkAction (a_class a) (a_name a) (a_parameters a) (a_duration a)
           (a_conditions a ++ [(None, c)]) (a_effects a) (a_cost a).

Definition add_timed_effect (a : Action) (timing : Timing) (f v : Value) : Action :=
  mkAction (a_class a) (a_name a) (a_parameters a) (a_duration a)
           (a_conditions a) (a_effects a ++ [(Some timing, f, v)]) (a_cost a).

Definition add_effect (a : Action) (f v : Value) : Action :=
  mkAction (a_class a) (a_name a) (a_parameters a) (a_duration a)
           (a_conditions a) (a_effects a ++ [(None, f, v)]) (a_cost a).

Definition set_cost (a : Action) (c : Value) : Action :=
  mkAction (a_class a) (a_name a) (a_parameters a) (a_duration a)
           (a_conditions a) (a_effects a) (Some c).

(** The environment (type manager, expression manager) a problem carries. *)
Inductive Env : Type := mkEnv (id : nat).

(** Modelled from the spec: a problem owns its tables, keyed by name, in
    insertion order. *)
Record Problem : Type :=
  mkProblem { name : string;
              env : Env;
              objects : list Object;
              fluents : list Fluent;
              actions : list Action;
              timed_effects : list Value;
              initial_values : list (Value * Value);
              goals : list Value }.

Definition new_Problem (name : string) (env : Env) : Problem :=
  mkProblem name env [] [] [] [] [] [].

Definition lookup {A : Type} (key : A -> string) (l : list A) (n : string)
  : Result A :=
  match find (fun a => (key a =? n)%string) l with
  | Some a => Ok a
  | None => Raise UPValueError
  end.

Definition has {A : Type} (key : A -> string) (l : list A) (n : string) : bool :=
  existsb (fun a => (key a =? n)%string) l.

(** Modelled from the spec: [problem.has_object(name)], [problem.object(name)],
    [problem.has_fluent(name)], [problem.fluent(name)],
    [problem.action(name)]: a name that is not in the table is a hard
    error. *)
Definition has_object (p : Problem) (n : string) : bool := has o_name (objects p) n.
Definition object (p : Problem) (n : string) : Result Object := lookup o_name (objects p) n.
Definition has_fluent (p : Problem) (n : string) : bool := has f_name (fluents p) n.
Definition fluent_named (p : Problem) (n : string) : Result Fluent :=
  lookup f_name (fluents p) n.
Definition action (p : Problem) (n : string) : Result Action :=
  lookup a_name (actions p) n.

Definition add_object (p : Problem) (o : Object) : Problem :=
  mkProblem (name p) (env p) (objects p ++ [o]) (fluents p) (actions p)
            (timed_effects p) (initial_values p) (goals p).
Definition add_fluent (p : Problem) (f : Fluent) : Problem :=
  mkProblem (name p) (env p) (objects p) (fluents p ++ [f]) (actions p)
            (timed_effects p) (initial_values p) (goals p).
Definition add_action (p : Problem) (a : Action) : Problem :=
  mkProblem (name p) (env p) (objects p) (fluents p) (actions p ++ [a])
            (timed_effects p) (initial_values p) (goals p).
Definition add_problem_timed_effect (p : Problem) (e : Value) : Problem :=
  mkProblem (name p) (env p) (objects p) (fluents p) (actions p)
            (timed_effects p ++ [e]) (initial_values p) (goals p).
Definition set_initial_value (p : Problem) (f v : Value) : Problem :=
  mkProblem (name p) (env p) (objects p) (fluents p) (actions p)
            (timed_effects p) (initial_values p ++ [(f, v)]) (goals p).
Definition add_goal (p : Problem) (g : Value) : Problem :=
  mkProblem (name p) (env p) (objects p) (fluents p) (actions p)
            (timed_effects p) (initial_values p) (goals p ++ [g]).

Record ActionInstance : Type :=
  mkActionInstance { ai_action : Action; ai_parameters : list Value }.

Record SequentialPlan : Type := mkSequentialPlan { plan_actions : list ActionInstance }.

End Model.

Import Model.

(** ** Type decoding *)

(** [convert_type_str(s, env)]: the type manager of [env] builds the type. *)
Definition convert_type_str (s : string) : Result UPType :=
  if (s =? "bool")%string then Ok BoolType
  else if (s =? "int")%string then Ok (IntType None None)
  else if (s =? "float")%string then Ok (RealType None None)
  else if PyStr.contains "real" s then
    let* x := PyStr.index (PyStr.split s "[") 1 in
    let* y := PyStr.index (PyStr.split x ",") 0 in
    let* a := PyNum.float y in
    let* x' := PyStr.index (PyStr.split s ",") 1 in
    let* y' := PyStr.index (PyStr.split x' "]") 0 in
    let* b := PyNum.float y' in
    Ok (RealType (Some (NFloat a)) (Some (NFloat b)))
  else Ok (UserType s None).

Record TypeDeclaration : Type :=
  mkTypeDeclaration { type_name : string; parent_type : string }.

(** [x != ""] for an [x] that is [None] or a type object: never equal to a
    string. *)
Definition ne_str (x : option UPType) (s : string) : bool := true.

(** The [lb]/[ub] pair the two bracketed arms compute from
    [tmp = type_name.split("[")[1].split("]")[0].split(", ")] with a number
    parser [parse]: [ub] is assigned on the [elif] arm only. *)
Definition bounds {A : Type} (parse : string -> Result A) (tmp : list string)
  : Result (option A * option A) :=
  let lb := None in
  let ub := None in
  let* t0 := PyStr.index tmp 0 in
  if negb (t0 =? "-inf")%string then
    let* v := parse t0 in Ok (Some v, ub)
  else
    let* t1 := PyStr.index tmp 1 in
    if negb (t1 =? "inf")%string then
      let* v := parse t1 in Ok (lb, Some v)
    else Ok (lb, ub).

Definition bracket_items (type_name : string) : Result (list string) :=
  let* x := PyStr.index (PyStr.split type_name "[") 1 in
  let* y := PyStr.index (PyStr.split x "]") 0 in
  Ok (PyStr.split y ", ").

(** [ProtobufReader._convert_type_declaration(msg)] *)
Definition _convert_type_declaration (msg : TypeDeclaration) : Result UPType :=
  if (type_name msg =? "bool")%string then Ok BoolType
  else if PyStr.startswith (type_name msg) "integer[" then
    let* tmp := bracket_items (type_name msg) in
    let* (lb, ub) := bounds PyNum.int tmp in
    Ok (IntType lb ub)
  else if PyStr.startswith (type_name msg) "real[" then
    let* tmp := bracket_items (type_name msg) in
    let* (lb, ub) := bounds PyNum.Fraction tmp in
    Ok (RealType (option_map NFraction lb) (option_map NFraction ub))
  else
    let parent : option UPType := None in
    let parent :=
      if ne_str parent "" then Some (UserType (parent_type msg) None) else parent in
    Ok (UserType (type_name msg) parent).

(** ** The wire messages

    The messages of [unified_planning_pb2], with the fields the reader
    touches.  A sub-message field may be unset ([HasField] false): it is an
    [option].  The protobuf schema is not part of the reader's file; where
    the reader's text does not fix the message type of a field it passes to
    [self.convert(x, problem)] (the duration and the cost of an action, the
    two sides of an assignment, a goal, a timed effect of a problem) the
    type of the field is the parameter [Sub]. *)

Module pb2.

(** The [content] oneof of an atom: no field set, or exactly one. *)
Inductive Atom : Type :=
| no_content
| symbol (s : string)
| int (z : Z)
| real (q : Q)
| boolean (b : bool).

(** [msg.WhichOneof("content")] *)
Definition WhichOneof (a : Atom) : option string :=
  match a with
  | no_content => None
  | symbol _ => Some "symbol"
  | int _ => Some "int"
  | real _ => Some "real"
  | boolean _ => Some "boolean"
  end.

(** [atom.symbol]: the empty string unless [symbol] is the field set. *)
Definition symbol_of (a : Atom) : string :=
  match a with symbol s => s | _ => "" end.

Inductive ExpressionKind : Type :=
| CONSTANT | PARAMETER | FLUENT_SYMBOL | FUNCTION_SYMBOL
| STATE_VARIABLE | FUNCTION_APPLICATION
| OTHER_EXPRESSION_KIND (n : Z).

Inductive Expression : Type :=
  mkExpression (atom : Atom) (list : list Expression) (type : string)
               (kind : ExpressionKind).

Definition atom (e : Expression) : Atom := let 'mkExpression a _ _ _ := e in a.
Definition list (e : Expression) := let 'mkExpression _ l _ _ := e in l.
Definition type (e : Expression) : string := let 'mkExpression _ _ t _ := e in t.
Definition kind (e : Expression) := let 'mkExpression _ _ _ k := e in k.

Inductive EffectKind : Type :=
| ASSIGN | INCREASE | DECREASE | OTHER_EFFECT_KIND (n : Z).

Record EffectExpression : Type :=
  mkEffectExpression { e_kind : EffectKind;
                       e_fluent : Expression;
                       e_value : Expression;
                       e_condition : option Expression }.

Inductive TimepointKind : Type :=
| GLOBAL_START | GLOBAL_END | START | END | OTHER_TIMEPOINT_KIND (n : Z).

Record Timepoint : Type := mkTimepoint { tp_kind : TimepointKind }.

Record Timing : Type := mkTiming { delay : Q; timepoint : Timepoint }.

Record TimeInterval : Type :=
  mkTimeInterval { lower : Timing; upper : Timing;
                   is_left_open : bool; is_right_open : bool }.

(** The [Parameter] message ([Parameter] is a reserved word here). *)
Record Parameter_ : Type := mkParameter { p_name : string; p_type : string }.

Record Fluent : Type :=
  mkFluent { f_name : string; f_value_type : string;
             f_parameters : Datatypes.list Parameter_ }.

Record ObjectDeclaration : Type :=
  mkObjectDeclaration { o_name : string; o_type : string }.

(** The reader reads [cond.span] and [eff.occurence_time] without asking
    whether the field is set: a sub-message field that is not set reads as
    the default message, so the records hold a message in either case. *)
Record Condition : Type :=
  mkCondition { cond : Expression; span : TimeInterval }.

Record Effect : Type :=
  mkEffect { effect : EffectExpression; occurence_time : Timing }.

Record Action (Sub : Type) : Type :=
  mkAction { a_name : string;
             a_parameters : Datatypes.list Parameter_;
             a_duration : option Sub;
             a_conditions : Datatypes.list Condition;
             a_effects : Datatypes.list Effect;
             a_cost : option Sub }.

Record Assignment (Sub : Type) : Type :=
  mkAssignment { as_fluent : Sub; as_value : Sub }.

Record Goal (Sub : Type) : Type := mkGoal { g_goal : Sub; g_timing : Timing }.

Record Problem (Sub : Type) : Type :=
  mkProblem { problem_name : string;
              objects : Datatypes.list ObjectDeclaration;
              fluents : Datatypes.list Fluent;
              actions : Datatypes.list (Action Sub);
              timed_effects : Datatypes.list Sub;
              initial_state : Datatypes.list (Assignment Sub);
              goals : Datatypes.list (Goal Sub) }.

Record ActionInstance : Type :=
  mkActionInstance { ai_action_name : string;
                     ai_parameters : Datatypes.list Atom }.

Record Plan : Type := mkPlan { plan_actions : Datatypes.list ActionInstance }.

Arguments mkAction {Sub}.
Arguments a_name {Sub}.
Arguments a_parameters {Sub}.
Arguments a_duration {Sub}.
Arguments a_conditions {Sub}.
Arguments a_effects {Sub}.
Arguments a_cost {Sub}.
Arguments mkAssignment {Sub}.
Arguments as_fluent {Sub}.
Arguments as_value {Sub}.
Arguments mkGoal {Sub}.
Arguments g_goal {Sub}.
Arguments g_timing {Sub}.
Arguments mkProblem {Sub}.
Arguments problem_name {Sub}.
Arguments objects {Sub}.
Arguments fluents {Sub}.
Arguments actions {Sub}.
Arguments timed_effects {Sub}.
Arguments initial_state {Sub}.
Arguments goals {Sub}.

End pb2.

(** ** The reader *)

(** [class ProtobufReader(Converter)]: its one attribute. *)
Record ProtobufReader : Type := mkReader { current_action : option Action }.

(** A fresh reader: [current_action = None]. *)
Definition new_reader : ProtobufReader := mkReader None.

(** [try: body  except AttributeError: handler] *)
Definition try_except_AttributeError {A : Type} (body handler : Result A)
  : Result A :=
  match body with
  | Raise AttributeError => handler
  | r => r
  end.

(** [try: body  except KeyError: handler] *)
Definition try_except_KeyError {A : Type} (body handler : Result A) : Result A :=
  match body with
  | Raise KeyError => handler
  | r => r
  end.

(** [assert b] *)
Definition assert (b : bool) : Result unit :=
  if b then Ok tt else Raise AssertionError.

(** [int(x)] of a wire number: truncation towards zero. *)
Definition int_of_number (q : Q) : Z := Z.quot (Qnum q) (Zpos (Qden q)).

(** [_convert_parameter(self, msg, problem)] *)
Definition _convert_parameter (msg : pb2.Parameter_) (problem : Problem)
  : Result ActionParameter :=
  let* t := convert_type_str (pb2.p_type msg) in
  Ok (mkActionParameter (pb2.p_name msg) t).

(** The loop of [_convert_fluent] over [msg.parameters]. *)
Fixpoint fluent_signature (ps : list pb2.Parameter_) (sig : list UPType)
  : Result (list UPType) :=
  match ps with
  | [] => Ok sig
  | p :: ps' =>
      let* t := convert_type_str (pb2.p_type p) in
      fluent_signature ps' (sig ++ [t])%list
  end.

(** [_convert_fluent(self, msg, problem)] *)
Definition _convert_fluent (msg : pb2.Fluent) (problem : Problem) : Result Fluent :=
  let* value_type := convert_type_str (pb2.f_value_type msg) in
  let* sig := fluent_signature (pb2.f_parameters msg) [] in
  Ok (mkFluent (pb2.f_name msg) value_type sig).

(** [_convert_object(self, msg, problem)] *)
Definition _convert_object (msg : pb2.ObjectDeclaration) (problem : Problem)
  : Result Object :=
  Ok (mkObject (pb2.o_name msg) (UserType (pb2.o_type msg) None)).

(** [_convert_atom(self, msg, problem)] *)
Definition _convert_atom (self : ProtobufReader) (msg : pb2.Atom)
  (problem : Problem) : Result Value :=
  match msg with
  | pb2.no_content => Ok VNone
  | pb2.int value => Ok (Int value)
  | pb2.real value => Ok (Real value)
  | pb2.boolean value => Ok (Bool value)
  | pb2.symbol value =>
      if has_object problem value then
        let* o := object problem value in Ok (VObject o)
      else
        match current_action self with
        | Some act =>
            try_except_KeyError
              (let* p := parameter act value in Ok (ParameterExp p))
              (let* f := fluent_named problem value in Ok (VFluent f))
        | None =>
            let* f := fluent_named problem value in Ok (VFluent f)
        end
  end.

(** [_convert_expression(self, msg, problem, param_map)] *)
Fixpoint _convert_expression (self : ProtobufReader) (msg : pb2.Expression)
  (problem : Problem) (param_map : OrderedDict ActionParameter) {struct msg}
  : Result Value :=
  match msg with
  | pb2.mkExpression atom list type kind =>
      let* payload := _convert_atom self atom problem in
      let* args :=
        (fix loop (l : Datatypes.list pb2.Expression) (args : Datatypes.list Value)
           : Result (Datatypes.list Value) :=
           match l with
           | [] => Ok args
           | arg_msg :: l' =>
               let* v := _convert_expression self arg_msg problem param_map in
               loop l' (args ++ [v])%list
           end) list [] in
      match kind with
      | pb2.CONSTANT =>
          (* assert msg.atom is not None: a message field is never None *)
          if (type =? "bool")%string then Ok (create_node BOOL_CONSTANT args payload)
          else if (type =? "int")%string then Ok (create_node INT_CONSTANT args payload)
          else if (type =? "real")%string then Ok (create_node REAL_CONSTANT args payload)
          else Ok VNone
      | pb2.PARAMETER =>
          Ok (create_node PARAM_EXP args
                (VParameter (mkActionParameter (pb2.symbol_of atom)
                                               (UserType type None))))
      | pb2.FLUENT_SYMBOL =>
          let* _ := assert (has_fluent problem (pb2.symbol_of atom)) in
          Ok (create_node FLUENT_EXP args payload)
      | pb2.FUNCTION_SYMBOL => Ok VNone
      | pb2.STATE_VARIABLE =>
          let* atom' := _convert_atom self atom problem in
          Ok (create_node OBJECT_EXP [] payload)
      | pb2.FUNCTION_APPLICATION => Ok VNone
      | pb2.OTHER_EXPRESSION_KIND _ => Ok VNone
      end
  end.

(** The loop of [_convert_expression] over [msg.list], on its own. *)
Fixpoint convert_args (self : ProtobufReader) (l : list pb2.Expression)
  (problem : Problem) (param_map : OrderedDict ActionParameter)
  (args : list Value) : Result (list Value) :=
  match l with
  | [] => Ok args
  | arg_msg :: l' =>
      let* v := _convert_expression self arg_msg problem param_map in
      convert_args self l' problem param_map (args ++ [v])%list
  end.

(** [_convert_effect(self, msg, problem, param_map)] *)
Definition _convert_effect (self : ProtobufReader) (msg : pb2.EffectExpression)
  (problem : Problem) (param_map : OrderedDict ActionParameter) : Result Effect :=
  let kind :=
    match pb2.e_kind msg with
    | pb2.ASSIGN => ASSIGN
    | pb2.INCREASE => INCREASE
    | pb2.DECREASE => DECREASE
    | pb2.OTHER_EFFECT_KIND _ => KIND_0
    end in
  match pb2.e_condition msg with
  | Some c =>
      let* f := _convert_expression self (pb2.e_fluent msg) problem param_map in
      let* v := _convert_expression self (pb2.e_value msg) problem param_map in
      let* g := _convert_expression self c problem param_map in
      Ok (Effect4 f v g kind)
  | None =>
      let* f := _convert_expression self (pb2.e_fluent msg) problem param_map in
      let* v := _convert_expression self (pb2.e_value msg) problem param_map in
      Ok (Effect3 f v kind)
  end.

(** [_convert_timepoint(self, msg)]: no [return] is reached for another
    kind, the result is then [None]. *)
Definition _convert_timepoint (msg : pb2.Timepoint) : option Timepoint :=
  match pb2.tp_kind msg with
  | pb2.GLOBAL_START => Some GLOBAL_START
  | pb2.GLOBAL_END => Some GLOBAL_END
  | pb2.START => Some START
  | pb2.END => Some END
  | pb2.OTHER_TIMEPOINT_KIND _ => None
  end.

(** [_convert_timing(self, msg)] *)
Definition _convert_timing (msg : pb2.Timing) : Timing :=
  mkTiming (int_of_number (pb2.delay msg)) (_convert_timepoint (pb2.timepoint msg)).

(** [_convert_timed_interval(self, msg)] *)
Definition _convert_timed_interval (msg : pb2.TimeInterval) : TimeInterval :=
  mkTimeInterval (_convert_timing (pb2.lower msg)) (_convert_timing (pb2.upper msg))
                 (pb2.is_left_open msg) (pb2.is_right_open msg).

(** The loop of [_convert_action_instance] over [msg.parameters]. *)
Fixpoint instance_parameters (ps : list pb2.Atom) (problem : Problem)
  (parameters : list Value) : Result (list Value) :=
  match ps with
  | [] => Ok parameters
  | param :: ps' =>
      let* _ := assert (match param with pb2.symbol _ => true | _ => false end) in
      let* _ := assert (has_object problem (pb2.symbol_of param)) in
      let* o := object problem (pb2.symbol_of param) in
      instance_parameters ps' problem
        (parameters ++ [create_node OBJECT_EXP [] (VObject o)])%list
  end.

(** [_convert_action_instance(self, msg, problem)] *)
Definition _convert_action_instance (msg : pb2.ActionInstance) (problem : Problem)
  : Result ActionInstance :=
  let* parameters := instance_parameters (pb2.ai_parameters msg) problem [] in
  let* a := action problem (pb2.ai_action_name msg) in
  Ok (mkActionInstance a parameters).

(** [_convert_plan(self, msg, problem)] *)
Fixpoint plan_instances (l : list pb2.ActionInstance) (problem : Problem)
  : Result (list ActionInstance) :=
  match l with
  | [] => Ok []
  | a :: l' =>
      let* i := _convert_action_instance a problem in
      let* rest := plan_instances l' problem in
      Ok (i :: rest)
  end.

Definition _convert_plan (msg : pb2.Plan) (problem : Problem) : Result SequentialPlan :=
  let* l := plan_instances (pb2.plan_actions msg) problem in
  Ok (mkSequentialPlan l).

(** *** The handlers that depend on the schema

    [convert_sub self x problem] stands for [self.convert(x, problem)] on a
    field of type [Sub]: the registry picks the handler registered for the
    message type of [x].  Whatever that handler is, it receives the reader
    and may resolve symbols against [self.current_action]; it is taken not to
    assign [current_action] (only the handlers of [Action] and [Problem]
    do). *)

Section Schema.

Variable Sub : Type.
Variable convert_sub : ProtobufReader -> Sub -> Problem -> Result Value.

(** The loop of [_convert_action] over [msg.parameters]. *)
Fixpoint action_parameters (ps : list pb2.Parameter_) (problem : Problem)
  (parameters : OrderedDict ActionParameter)
  : Result (OrderedDict ActionParameter) :=
  match ps with
  | [] => Ok parameters
  | param :: ps' =>
      let* v := _convert_parameter param problem in
      action_parameters ps' problem (od_set parameters (pb2.p_name param) v)
  end.

(** The classes of the action objects are library code that is not under
    src: [methods c m] says whether an action object of class [c] has a
    method named [m]. *)
Variable methods : ActionClass -> string -> bool.

(** [action.m(...)] for a method [m] that gives [result] when the object
    has it: the attribute lookup is an [AttributeError] when it has not. *)
Definition call_method (action : Action) (m : string) (result : Action)
  : Result Action :=
  if methods (a_class action) m then Ok result else Raise AttributeError.

(** The body of the loop over [msg.conditions] once [exp] is not [None]:
    [try: action.add_condition(self.convert(cond.span), exp)] and
    [except AttributeError: action.add_precondition(exp)]. *)
Definition attach_condition (action : Action) (cond : pb2.Condition)
  (exp : Value) : Result Action :=
  try_except_AttributeError
    (call_method action "add_condition"
       (add_condition action (_convert_timed_interval (pb2.span cond)) exp))
    (call_method action "add_precondition" (add_precondition action exp)).

(** The body of the loop over [msg.effects] once fluent and value are not
    [None]: [try: action.add_timed_effect(timing=
    self.convert(eff.occurence_time), fluent=exp.fluent(),
    value=exp.value())] and [except AttributeError:
    action.add_effect(fluent=exp.fluent(), value=exp.value())]. *)
Definition attach_effect (action : Action) (eff : pb2.Effect) (exp : Effect)
  : Result Action :=
  try_except_AttributeError
    (call_method action "add_timed_effect"
       (add_timed_effect action (_convert_timing (pb2.occurence_time eff))
                         (fluent exp) (value exp)))
    (call_method action "add_effect" (add_effect action (fluent exp) (value exp))).

(** The two loops run after [self.current_action = action].  From then on
    [self.current_action] and the local [action] are one object: every
    update of the action in place is seen through the reader, so the reader
    during the loop is [mkReader (Some action)] for the action as it is at
    that point.  A loop gives its outcome and the action as it leaves
    it. *)
Fixpoint conditions_loop (conds : list pb2.Condition) (problem : Problem)
  (parameters : OrderedDict ActionParameter) (action : Action)
  : Result unit * Action :=
  match conds with
  | [] => (Ok tt, action)
  | cond :: conds' =>
      match _convert_expression (mkReader (Some action)) (pb2.cond cond)
                                problem parameters with
      | Raise e => (Raise e, action)
      | Ok exp =>
          if is_None exp then conditions_loop conds' problem parameters action
          else
            match attach_condition action cond exp with
            | Raise e => (Raise e, action)
            | Ok action' => conditions_loop conds' problem parameters action'
            end
      end
  end.

Fixpoint effects_loop (effs : list pb2.Effect) (problem : Problem)
  (parameters : OrderedDict ActionParameter) (action : Action)
  : Result unit * Action :=
  match effs with
  | [] => (Ok tt, action)
  | eff :: effs' =>
      match _convert_effect (mkReader (Some action)) (pb2.effect eff)
                            problem parameters with
      | Raise e => (Raise e, action)
      | Ok exp =>
          if is_None (fluent exp) || is_None (value exp)
          then effects_loop effs' problem parameters action
          else
            match attach_effect action eff exp with
            | Raise e => (Raise e, action)
            | Ok action' => effects_loop effs' problem parameters action'
            end
      end
  end.

(** The part of [_convert_action] before [self.current_action = action]. *)
Definition new_action (self : ProtobufReader) (msg : pb2.Action Sub)
  (problem : Problem) : Result Action :=
  let* parameters := action_parameters (pb2.a_parameters msg) problem [] in
  match pb2.a_duration msg with
  | Some d =>
      let action := DurativeAction (pb2.a_name msg) parameters in
      let* c := convert_sub self d problem in
      Ok (set_duration_constraint action c)
  | None => Ok (InstantaneousAction (pb2.a_name msg) parameters)
  end.

(** [_convert_action(self, msg, problem)]: the result and the reader as
    the call leaves it. *)
Definition _convert_action (self : ProtobufReader) (msg : pb2.Action Sub)
  (problem : Problem) : Result Action * ProtobufReader :=
  match new_action self msg problem with
  | Raise e => (Raise e, self)
  | Ok action =>
      (* the local [parameters], which the action was built from *)
      let parameters := a_parameters action in
      (* self.current_action = action *)
      let '(r, action) :=
        conditions_loop (pb2.a_conditions msg) problem parameters action in
      match r with
      | Raise e => (Raise e, mkReader (Some action))
      | Ok _ =>
          let '(r, action) :=
            effects_loop (pb2.a_effects msg) problem parameters action in
          match r with
          | Raise e => (Raise e, mkReader (Some action))
          | Ok _ =>
              match pb2.a_cost msg with
              | Some c =>
                  match convert_sub (mkReader (Some action)) c problem with
                  | Raise e => (Raise e, mkReader (Some action))
                  | Ok v =>
                      let action := set_cost action v in
                      (Ok action, mkReader (Some action))
                  end
              | None => (Ok action, mkReader (Some action))
              end
          end
      end
  end.

(** [_convert_initial_state(self, msg, problem)] *)
Definition _convert_initial_state (self : ProtobufReader)
  (msg : pb2.Assignment Sub) (problem : Problem) : Result (Value * Value) :=
  let* f := convert_sub self (pb2.as_fluent msg) problem in
  let* v := convert_sub self (pb2.as_value msg) problem in
  Ok (f, v).

(** [_convert_goal(self, msg, problem)]: the timing is converted and
    dropped. *)
Definition _convert_goal (self : ProtobufReader) (msg : pb2.Goal Sub)
  (problem : Problem) : Result Value :=
  let* goal := convert_sub self (pb2.g_goal msg) problem in
  let timing := _convert_timing (pb2.g_timing msg) in
  Ok goal.

(** The loops of [_convert_problem]; [P] is the problem being filled,
    [problem] the template every sub-message is converted against. *)
Fixpoint objects_loop (l : list pb2.ObjectDeclaration) (problem P : Problem)
  : Result Problem :=
  match l with
  | [] => Ok P
  | obj :: l' =>
      let* o := _convert_object obj problem in
      objects_loop l' problem (add_object P o)
  end.

Fixpoint fluents_loop (l : list pb2.Fluent) (problem P : Problem)
  : Result Problem :=
  match l with
  | [] => Ok P
  | f :: l' =>
      let* x := _convert_fluent f problem in
      fluents_loop l' problem (add_fluent P x)
  end.

Fixpoint actions_loop (self : ProtobufReader) (l : list (pb2.Action Sub))
  (problem P : Problem) : Result Problem * ProtobufReader :=
  match l with
  | [] => (Ok P, self)
  | f :: l' =>
      match _convert_action self f problem with
      | (Raise e, self') => (Raise e, self')
      | (Ok a, self') => actions_loop self' l' problem (add_action P a)
      end
  end.

Fixpoint timed_effects_loop (self : ProtobufReader) (l : list Sub)
  (problem P : Problem) : Result Problem :=
  match l with
  | [] => Ok P
  | eff :: l' =>
      let* e := convert_sub self eff problem in
      timed_effects_loop self l' problem (add_problem_timed_effect P e)
  end.

Fixpoint initial_state_loop (self : ProtobufReader)
  (l : list (pb2.Assignment Sub)) (problem P : Problem) : Result Problem :=
  match l with
  | [] => Ok P
  | assign :: l' =>
      let* (f, v) := _convert_initial_state self assign problem in
      initial_state_loop self l' problem (set_initial_value P f v)
  end.

Fixpoint goals_loop (self : ProtobufReader) (l : list (pb2.Goal Sub))
  (problem P : Problem) : Result Problem :=
  match l with
  | [] => Ok P
  | goal :: l' =>
      let* g := _convert_goal self goal problem in
      goals_loop self l' problem (add_goal P g)
  end.

(** [_convert_problem(self, msg, problem)] *)
Definition _convert_problem (self : ProtobufReader) (msg : pb2.Problem Sub)
  (problem : Problem) : Result Problem * ProtobufReader :=
  let P := new_Problem (pb2.problem_name msg) (env problem) in
  match (let* P := objects_loop (pb2.objects msg) problem P in
         fluents_loop (pb2.fluents msg) problem P) with
  | Raise e => (Raise e, self)
  | Ok P =>
      match actions_loop self (pb2.actions msg) problem P with
      | (Raise e, self') => (Raise e, self')
      | (Ok P, self') =>
          (let* P := timed_effects_loop self' (pb2.timed_effects msg) problem P in
           let* P := initial_state_loop self' (pb2.initial_state msg) problem P in
           goals_loop self' (pb2.goals msg) problem P,
           self')
      end
  end.

(** *** The registry

    [self.convert(msg, ...)] as a caller outside the reader uses it: a
    message of any handled type, with the extra arguments its handler
    takes. *)
Inductive Message : Type :=
| MParameter (m : pb2.Parameter_)
| MFluent (m : pb2.Fluent)
| MObjectDeclaration (m : pb2.ObjectDeclaration)
| MExpression (m : pb2.Expression) (param_map : OrderedDict ActionParameter)
| MAtom (m : pb2.Atom)
| MTypeDeclaration (m : TypeDeclaration)
| MProblem (m : pb2.Problem Sub)
| MAssignment (m : pb2.Assignment Sub)
| MGoal (m : pb2.Goal Sub)
| MAction (m : pb2.Action Sub)
| MEffectExpression (m : pb2.EffectExpression)
    (param_map : OrderedDict ActionParameter)
| MTimeInterval (m : pb2.TimeInterval)
| MTiming (m : pb2.Timing)
| MTimepoint (m : pb2.Timepoint)
| MPlan (m : pb2.Plan)
| MActionInstance (m : pb2.ActionInstance).

Inductive Converted : Type :=
| CParameter (p : ActionParameter)
| CFluent (f : Fluent)
| CObject (o : Object)
| CValue (v : Value)
| CType (t : UPType)
| CProblem (p : Problem)
| CPair (f v : Value)
| CAction (a : Action)
| CEffect (e : Effect)
| CTimeInterval (i : TimeInterval)
| CTiming (t : Timing)
| CTimepoint (t : option Timepoint)
| CPlan (p : SequentialPlan)
| CActionInstance (i : ActionInstance).

Definition pure {A : Type} (self : ProtobufReader) (f : A -> Converted)
  (r : Result A) : Result Converted * ProtobufReader :=
  (let* a := r in Ok (f a), self).

Definition convert (self : ProtobufReader) (msg : Message) (problem : Problem)
  : Result Converted * ProtobufReader :=
  match msg with
  | MParameter m => pure self CParameter (_convert_parameter m problem)
  | MFluent m => pure self CFluent (_convert_fluent m problem)
  | MObjectDeclaration m => pure self CObject (_convert_object m problem)
  | MExpression m param_map =>
      pure self CValue (_convert_expression self m problem param_map)
  | MAtom m => pure self CValue (_convert_atom self m problem)
  | MTypeDeclaration m => pure self CType (_convert_type_declaration m)
  | MProblem m =>
      let '(r, self') := _convert_problem self m problem in
      pure self' CProblem r
  | MAssignment m =>
      pure self (fun '(f, v) => CPair f v) (_convert_initial_state self m problem)
  | MGoal m => pure self CValue (_convert_goal self m problem)
  | MAction m =>
      let '(r, self') := _convert_action self m problem in
      pure self' CAction r
  | MEffectExpression m param_map =>
      pure self CEffect (_convert_effect self m problem param_map)
  | MTimeInterval m => pure self CTimeInterval (Ok (_convert_timed_interval m))
  | MTiming m => pure self CTiming (Ok (_convert_timing m))
  | MTimepoint m => pure self CTimepoint (Ok (_convert_timepoint m))
  | MPlan m => pure self CPlan (_convert_plan m problem)
  | MActionInstance m => pure self CActionInstance (_convert_action_instance m problem)
  end.

End Schema.

Arguments _convert_action {Sub}.
Arguments new_action {Sub}.
Arguments _convert_problem {Sub}.
Arguments _convert_initial_state {Sub}.
Arguments _convert_goal {Sub}.
Arguments actions_loop {Sub}.
Arguments convert {Sub}.
Arguments MAction {Sub}.
Arguments MAtom {Sub}.
Arguments MExpression {Sub}.
Arguments MProblem {Sub}.

(** * The vocabulary of the statements *)

(** [c] does not occur in [s]. *)
Fixpoint free_of (c : ascii) (s : string) : bool :=
  match s with
  | EmptyString => true
  | String x s' => negb (x =? c)%char && free_of c s'
  end.

(** Every character of [s] satisfies [p]. *)
Fixpoint all_chars (p : ascii -> bool) (s : string) : bool :=
  match s with
  | EmptyString => true
  | String x s' => p x && all_chars p s'
  end.

(** The decimal numeral of an integer, as [str(z)] prints it. *)
Definition decimal (z : Z) : string := NilZero.string_of_int (Z.to_int z).

(** The descriptors [integer[lo, hi]] and [real[lo, hi]]. *)
Definition integer_descriptor (lo hi : string) : string :=
  "integer[" ++ lo ++ ", " ++ hi ++ "]".

Definition real_descriptor (lo hi : string) : string :=
  "real[" ++ lo ++ ", " ++ hi ++ "]".

(** A finite decimal literal [-ddd.ddd]: its sign, the digits before the
    point (none reads as [0]) and the digits after it. *)
Record DecimalLiteral : Type :=
  mkLiteral { lit_neg : bool;
              lit_int : Decimal.uint;
              lit_frac : Decimal.uint }.

Definition literal_string (l : DecimalLiteral) : string :=
  (if lit_neg l then "-" else "")
  ++ NilZero.string_of_uint (lit_int l) ++ "." ++ NilEmpty.string_of_uint (lit_frac l).

(** The rational a literal denotes, from the library's reading of its
    digits. *)
Definition literal_value (l : DecimalLiteral) : Q :=
  let k := Z.of_nat (Decimal.nb_digits (lit_frac l)) in
  Qmake (PyNum.apply_sign (lit_neg l)
           (Z.of_uint (lit_int l) * 10 ^ k + Z.of_uint (lit_frac l)))
        (Z.to_pos (10 ^ k)).

(** A sign written in front of digits: none, [-] or [+]. *)
Inductive Sign : Type := NoSign | Minus | Plus.

Definition sign_string (s : Sign) : string :=
  match s with NoSign => "" | Minus => "-" | Plus => "+" end.

Definition negative (s : Sign) : bool :=
  match s with Minus => true | _ => false end.

(** The digits of a numeral as they are written, leading zeros kept; no
    digit at all for [Nil]. *)
Definition digits (d : Decimal.uint) : string := NilEmpty.string_of_uint d.

Definition no_digit (d : Decimal.uint) : bool :=
  match d with Decimal.Nil => true | _ => false end.

(** An exponent [e-ddd]: the letter in either case, a sign, digits. *)
Record Exponent : Type :=
  mkExponent { exp_capital : bool; exp_sign : Sign; exp_digits : Decimal.uint }.

Definition exponent_string (e : Exponent) : string :=
  (if exp_capital e then "E" else "e") ++ sign_string (exp_sign e)
  ++ digits (exp_digits e).

(** The literals of a finite bound: a ratio [-n/d], or a decimal numeral
    [-w.f] whose point, fraction digits and exponent [e-x] are optional;
    [5], [1/2], [0.5], [.5], [5.] and [1e-3] are of this form. *)
Inductive BoundLiteral : Type :=
| Ratio (s : Sign) (num den : Decimal.uint)
| Scientific (s : Sign) (whole : Decimal.uint) (frac : option Decimal.uint)
             (exp : option Exponent).

Definition bound_string (l : BoundLiteral) : string :=
  match l with
  | Ratio s n d => sign_string s ++ digits n ++ "/" ++ digits d
  | Scientific s w f e =>
      sign_string s ++ digits w
      ++ match f with Some f' => "." ++ digits f' | None => "" end
      ++ match e with Some x => exponent_string x | None => "" end
  end.

(** A ratio has digits on both sides and a denominator other than zero; a
    decimal numeral has a digit before the point or after it, and digits in
    its exponent if it has one. *)
Definition well_formed (l : BoundLiteral) : bool :=
  match l with
  | Ratio s n d => negb (no_digit n) && negb (no_digit d) && negb (Z.of_uint d =? 0)
  | Scientific s w f e =>
      (negb (no_digit w)
       || match f with Some f' => negb (no_digit f') | None => false end)
      && match e with Some x => negb (no_digit (exp_digits x)) | None => true end
  end.

(** The rational a literal denotes, from the library's reading of its
    digits. *)
Definition bound_value (l : BoundLiteral) : Q :=
  match l with
  | Ratio s n d =>
      Qmake (PyNum.apply_sign (negative s) (Z.of_uint n)) (Z.to_pos (Z.of_uint d))
  | Scientific s w f e =>
      let k := match f with Some f' => Z.of_nat (Decimal.nb_digits f') | None => 0 end in
      let fv := match f with Some f' => Z.of_uint f' | None => 0 end in
      let x := match e with
               | Some x =>
                   PyNum.apply_sign (negative (exp_sign x)) (Z.of_uint (exp_digits x))
               | None => 0
               end in
      (Qmake (PyNum.apply_sign (negative s) (Z.of_uint w * 10 ^ k + fv))
             (Z.to_pos (10 ^ k))
       * Qpower (10 # 1) x)%Q
  end.

(** A character of a bound literal. *)
Definition literal_char (c : ascii) : bool :=
  PyNum.is_digit c
  || existsb (Ascii.eqb c) ["-"; "+"; "."; "/"; "e"; "E"]%char.

(** The lookahead of [_RATIONAL_FORMAT] on the text after the sign: a
    digit, or a point and a digit. *)
Definition lookahead (r : string) : bool :=
  match r with
  | String c (String c' _) => PyNum.is_digit c || ((c =? ".")%char && PyNum.is_digit c')
  | String c EmptyString => PyNum.is_digit c
  | EmptyString => false
  end.

(** What [Fraction] does after the sign and the lookahead. *)
Definition after_sign (neg : bool) (r : string) : Result Q :=
  let '(num, r1) := PyNum.span_digits r in
  let n := PyNum.digits_val 0 num in
  match r1 with
  | EmptyString => PyNum.fraction_of neg n 1
  | String "/" r2 =>
      match PyNum.span_digits r2 with
      | (String c d, EmptyString) =>
          PyNum.fraction_of neg n (PyNum.digits_val 0 (String c d))
      | _ => Raise ValueError
      end
  | _ =>
      let '(dec, r2) :=
        match r1 with
        | String "." r' => PyNum.span_digits r'
        | _ => (EmptyString, r1)
        end in
      let scale := 10 ^ Z.of_nat (String.length dec) in
      let n' := n * scale + PyNum.digits_val 0 dec in
      match r2 with
      | EmptyString => PyNum.fraction_of neg n' scale
      | String c r3 =>
          if PyNum.is_e c
          then match PyNum.exponent r3 with
               | Some e =>
                   let '(a, b) := PyNum.scale_exp n' scale e in
                   PyNum.fraction_of neg a b
               | None => Raise ValueError
               end
          else Raise ValueError
      end
  end.

(** The digits after the point, if there is a point, and the exponent, if
    there is one, as strings. *)
Definition point_part (f : option string) : string :=
  match f with Some F => "." ++ F | None => "" end.

Definition exponent_part (x : option (bool * Sign * string)) : string :=
  match x with
  | Some (cap, es, X) => (if cap then "E" else "e") ++ sign_string es ++ X
  | None => ""
  end.

(** The parts of an exponent as strings. *)
Definition exponent_parts (e : option Exponent) : option (bool * Sign * string) :=
  option_map (fun x => (exp_capital x, exp_sign x, digits (exp_digits x))) e.

(** A character of a numeral: a digit, a minus sign or a point. *)
Definition numeric_char (c : ascii) : bool :=
  PyNum.is_digit c || (c =? "-")%char || (c =? ".")%char.

(** None of the characters the decoder splits on occurs in [s]. *)
Definition plain (s : string) : bool :=
  free_of "[" s && free_of "]" s && free_of "," s.

(** Not a white-space character. *)
Definition not_space (c : ascii) : bool := negb (PyNum.is_space c).

(** A bound of a decoded real type is exactly the rational [q]. *)
Definition exact_bound (q : Q) (b : option Number) : Prop :=
  match b with
  | Some (NFraction x) => x == q
  | Some (NFloat f) =>
      match PyNum.float_value f with
      | Some x => x == q
      | None => False
      end
  | None => False
  end.

(** The result of [_convert_expression] once the atom and the children are
    converted: the branch on [msg.kind]. *)
Definition expression_node (atom : pb2.Atom) (type : string)
  (kind : pb2.ExpressionKind) (problem : Problem) (payload : Value)
  (args : list Value) : Result Value :=
  match kind with
  | pb2.CONSTANT =>
      if (type =? "bool")%string then Ok (create_node BOOL_CONSTANT args payload)
      else if (type =? "int")%string then Ok (create_node INT_CONSTANT args payload)
      else if (type =? "real")%string then Ok (create_node REAL_CONSTANT args payload)
      else Ok VNone
  | pb2.PARAMETER =>
      Ok (create_node PARAM_EXP args
            (VParameter (mkActionParameter (pb2.symbol_of atom) (UserType type None))))
  | pb2.FLUENT_SYMBOL =>
      let* _ := assert (has_fluent problem (pb2.symbol_of atom)) in
      Ok (create_node FLUENT_EXP args payload)
  | pb2.FUNCTION_SYMBOL => Ok VNone
  | pb2.STATE_VARIABLE => Ok (create_node OBJECT_EXP [] payload)
  | pb2.FUNCTION_APPLICATION => Ok VNone
  | pb2.OTHER_EXPRESSION_KIND _ => Ok VNone
  end.

(** Two readers whose current actions, if any, have the same parameters. *)
Definition same_scope (r1 r2 : ProtobufReader) : Prop :=
  option_map a_parameters (current_action r1)
  = option_map a_parameters (current_action r2).

(** [a'] is [a] up to its conditions, effects and cost. *)
Definition same_header (a a' : Action) : Prop :=
  a_class a' = a_class a /\ a_name a' = a_name a
  /\ a_parameters a' = a_parameters a /\ a_duration a' = a_duration a.

(** Fluent and value of a rebuilt effect are both present. *)
Definition resolved (exp : Effect) : bool :=
  negb (is_None (fluent exp)) && negb (is_None (value exp)).

(** What an action object of class [c] records for an effect it takes,
    with the fluent and the value: the occurrence time when the object has
    the method [add_timed_effect], nothing when the reader falls back on
    [add_effect]. *)
Definition effect_entry (methods : ActionClass -> string -> bool) (c : ActionClass)
  (eff : pb2.Effect) (exp : Effect) : option Timing * Value * Value :=
  (if methods c "add_timed_effect"
   then Some (_convert_timing (pb2.occurence_time eff)) else None,
   fluent exp, value exp).

(** The entries of the effect messages whose rebuilt effect is resolved, in
    the order of the messages. *)
Fixpoint kept_effects (methods : ActionClass -> string -> bool) (c : ActionClass)
  (self : ProtobufReader) (effs : list pb2.Effect)
  (problem : Problem) (parameters : OrderedDict ActionParameter)
  : list (option Timing * Value * Value) :=
  match effs with
  | [] => []
  | eff :: effs' =>
      match _convert_effect self (pb2.effect eff) problem parameters with
      | Ok exp => if resolved exp then [effect_entry methods c eff exp] else []
      | Raise _ => []
      end ++ kept_effects methods c self effs' problem parameters
  end.

(** The first duration a conversion of the message comes to, if any: the
    duration of an action message, or of the first action of a problem
    message.  It is the one sub-message converted before the handler of
    actions assigns [current_action] for the first time. *)
Definition first_duration {Sub : Type} (msg : Message Sub) : option Sub :=
  match msg with
  | MAction m => pb2.a_duration m
  | MProblem m =>
      match pb2.actions m with
      | first :: _ => pb2.a_duration first
      | [] => None
      end
  | _ => None
  end.

(** *** Sample inputs *)

Definition robot : UPType := UserType "robot" None.

(** A library in which an instantaneous action has the plain methods and a
    durative action the timed ones. *)
Definition sample_methods (c : ActionClass) (m : string) : bool :=
  match c with
  | Instantaneous => (m =? "add_precondition")%string || (m =? "add_effect")%string
  | Durative => (m =? "add_condition")%string || (m =? "add_timed_effect")%string
  end.

(** The span and the occurrence time the sample messages carry. *)
Definition at_start : pb2.Timing := pb2.mkTiming 0 (pb2.mkTimepoint pb2.START).

Definition whole_action : pb2.TimeInterval :=
  pb2.mkTimeInterval at_start (pb2.mkTiming 0 (pb2.mkTimepoint pb2.END)) false false.

(** A problem with the object [r1] and the fluents [at] and [d]. *)
Definition sample_problem : Problem :=
  mkProblem "sample" (mkEnv 0)
            [mkObject "r1" robot]
            [mkFluent "at" BoolType [robot]; mkFluent "d" (IntType None None) []]
            [] [] [] [].

Definition empty_problem : Problem := new_Problem "empty" (mkEnv 0).

Definition symbol_expression (s : string) (k : pb2.ExpressionKind) : pb2.Expression :=
  pb2.mkExpression (pb2.symbol s) [] "" k.

Definition int_constant (z : Z) : pb2.Expression :=
  pb2.mkExpression (pb2.int z) [] "int" pb2.CONSTANT.

(** An instantaneous action [move(r1: robot, d: robot)] with one condition
    and two effects, the second with an unsupported value; the condition
    carries a span and the effects an occurrence time.  The schema of these
    samples takes atoms for the fields of type [Sub]. *)
Definition move_message : pb2.Action pb2.Atom :=
  pb2.mkAction "move"
    [pb2.mkParameter "r1" "robot"; pb2.mkParameter "d" "robot"]
    None
    [pb2.mkCondition (symbol_expression "at" pb2.FLUENT_SYMBOL) whole_action]
    [pb2.mkEffect
       (pb2.mkEffectExpression pb2.ASSIGN (symbol_expression "at" pb2.FLUENT_SYMBOL)
                               (int_constant 1) None)
       at_start;
     pb2.mkEffect
       (pb2.mkEffectExpression pb2.ASSIGN (symbol_expression "at" pb2.FLUENT_SYMBOL)
                               (symbol_expression "at" pb2.FUNCTION_SYMBOL) None)
       at_start]
    None.

(** The action [move] as the reader holds it once rebuilt from its name and
    parameters. *)
Definition move_action : Action :=
  InstantaneousAction "move"
    [("r1", mkActionParameter "r1" robot); ("d", mkActionParameter "d" robot)].

(** The same action with a duration, given as the integer atom [5]. *)
Definition timed_move_message : pb2.Action pb2.Atom :=
  pb2.mkAction "move"
    [pb2.mkParameter "r1" "robot"; pb2.mkParameter "d" "robot"]
    (Some (pb2.int 5))
    [] [] None.

(** The same action with a duration given as the symbol [d], the name of a
    parameter of the action and of a fluent of the problem. *)
Definition symbolic_move_message : pb2.Action pb2.Atom :=
  pb2.mkAction "move"
    [pb2.mkParameter "r1" "robot"; pb2.mkParameter "d" "robot"]
    (Some (pb2.symbol "d"))
    [] [] None.

(** What an action object of class [c] records for a condition it takes:
    the span with the condition when the object has the method
    [add_condition], the condition alone when the reader falls back on
    [add_precondition]. *)
Definition condition_entry (methods : ActionClass -> string -> bool) (c : ActionClass)
  (cond : pb2.Condition) (exp : Value) : option TimeInterval * Value :=
  (if methods c "add_condition"
   then Some (_convert_timed_interval (pb2.span cond)) else None,
   exp).

(** The entries of the condition messages whose rebuilt expression is not
    [None], in the order of the messages. *)
Fixpoint kept_conditions (methods : ActionClass -> string -> bool) (c : ActionClass)
  (self : ProtobufReader) (conds : list pb2.Condition)
  (problem : Problem) (parameters : OrderedDict ActionParameter)
  : list (option TimeInterval * Value) :=
  match conds with
  | [] => []
  | cond :: conds' =>
      match _convert_expression self (pb2.cond cond) problem parameters with
      | Ok exp => if is_None exp then [] else [condition_entry methods c cond exp]
      | Raise _ => []
      end ++ kept_conditions methods c self conds' problem parameters
  end.

(** A durative action [stay(who: robot)] of duration [5] with the condition
    [at] over the whole action and the effect [at := 1] at its start. *)
Definition timed_stay_message : pb2.Action pb2.Atom :=
  pb2.mkAction "stay" [pb2.mkParameter "who" "robot"] (Some (pb2.int 5))
    [pb2.mkCondition (symbol_expression "at" pb2.FLUENT_SYMBOL) whole_action]
    [pb2.mkEffect
       (pb2.mkEffectExpression pb2.ASSIGN (symbol_expression "at" pb2.FLUENT_SYMBOL)
                               (int_constant 1) None)
       at_start]
    None.

(** The names of the keys of an ordered dictionary. *)
Definition keys {A : Type} (d : OrderedDict A) : list string := map fst d.

(** The action [move] with a condition on a symbol nobody declares. *)
Definition broken_move_message : pb2.Action pb2.Atom :=
  pb2.mkAction "move"
    [pb2.mkParameter "r1" "robot"]
    None
    [pb2.mkCondition (symbol_expression "nowhere" pb2.FLUENT_SYMBOL) whole_action]
    [] None.

(** An action whose parameter [r1] is declared twice, and its cost [7]. *)
Definition twice_message : pb2.Action pb2.Atom :=
  pb2.mkAction "twice"
    [pb2.mkParameter "r1" "robot"; pb2.mkParameter "d" "robot";
     pb2.mkParameter "r1" "bool"]
    None [] [] (Some (pb2.int 7)).

(** Two messages of the fluent [at], with different names for its
    parameter. *)
Definition at_message (parameter_name : string) : pb2.Fluent :=
  pb2.mkFluent "at" "bool" [pb2.mkParameter parameter_name "robot"].

(** [P'] is [P] with entries added at the end of its tables. *)
Definition extends (P P' : Problem) (os : list Object) (fs : list Fluent)
  (acts : list Action) (es : list Value) (ivs : list (Value * Value))
  (gs : list Value) : Prop :=
  name P' = name P /\ env P' = env P
  /\ objects P' = (objects P ++ os)%list
  /\ fluents P' = (fluents P ++ fs)%list
  /\ actions P' = (actions P ++ acts)%list
  /\ timed_effects P' = (timed_effects P ++ es)%list
  /\ initial_values P' = (initial_values P ++ ivs)%list
  /\ goals P' = (goals P ++ gs)%list.

(** The atom is a symbol that names an object of the problem. *)
Definition is_object_symbol (problem : Problem) (a : pb2.Atom) : bool :=
  match a with
  | pb2.symbol s => has_object problem s
  | _ => false
  end.

(** A problem message that declares the fluent [at] and an action with a
    condition on [at]. *)
Definition self_contained_message : pb2.Problem pb2.Atom :=
  pb2.mkProblem "self-contained"
    [pb2.mkObjectDeclaration "r1" "robot"]
    [at_message "who"]
    [pb2.mkAction "stay" [pb2.mkParameter "who" "robot"] None
       [pb2.mkCondition (symbol_expression "at" pb2.FLUENT_SYMBOL) whole_action] [] None]
    [] [] [].

(** A problem message with the objects, fluents and the action [move] of
    the sample problem, and the goal [at]. *)
Definition sample_message : pb2.Problem pb2.Atom :=
  pb2.mkProblem "sample"
    [pb2.mkObjectDeclaration "r1" "robot"]
    [at_message "who"]
    [move_message]
    [] [] [pb2.mkGoal (pb2.symbol "d")
                      (pb2.mkTiming 0 (pb2.mkTimepoint pb2.GLOBAL_END))].

(** The sample problem with the action [move] in its table. *)
Definition problem_with_move : Problem :=
  mkProblem "sample" (mkEnv 0)
            [mkObject "r1" robot; mkObject "r2" robot]
            [mkFluent "at" BoolType [robot]]
            [move_action] [] [] [].

(** * Properties *)

(** ** The built-ins and the decoders on sample inputs *)

Example split_demo :
  PyStr.split "integer[0, 10]" "[" = ["integer"; "0, 10]"]
  /\ PyStr.split "0, 10]" "]" = ["0, 10"; ""]
  /\ PyStr.split "0, 10" ", " = ["0"; "10"]
  /\ PyStr.split "a, , b" ", " = ["a"; ""; "b"]
  /\ PyStr.split "abc" ", " = ["abc"].
Proof. repeat split; reflexivity. Qed.

Example int_demo :
  PyNum.int "10" = Ok 10 /\ PyNum.int "-7" = Ok (-7) /\ PyNum.int " +1_000 " = Ok 1000
  /\ PyNum.int "inf" = Raise ValueError /\ PyNum.int "" = Raise ValueError
  /\ PyNum.int "1__0" = Raise ValueError /\ PyNum.int "- 1" = Raise ValueError.
Proof. repeat split; reflexivity. Qed.

Example Fraction_demo :
  PyNum.Fraction "0.1" = Ok (1 # 10) /\ PyNum.Fraction "-3/6" = Ok (- 1 # 2)
  /\ PyNum.Fraction "2.50e1" = Ok (25 # 1) /\ PyNum.Fraction ".5" = Ok (1 # 2)
  /\ PyNum.Fraction "1/0" = Raise ZeroDivisionError
  /\ PyNum.Fraction "." = Raise ValueError /\ PyNum.Fraction "inf" = Raise ValueError.
Proof. repeat split; reflexivity. Qed.

Example float_demo :
  PyNum.float "0.5" = Ok (PyNum.FNum false (2 ^ 52) (-53))
  /\ PyNum.float "0.1" = Ok (PyNum.FNum false 7205759403792794 (-56))
  /\ PyNum.float "1" = Ok (PyNum.FNum false (2 ^ 52) (-52))
  /\ PyNum.float "-inf" = Ok (PyNum.FInf true)
  /\ PyNum.float "1e400" = Ok (PyNum.FInf false)
  /\ PyNum.float "5e-324" = Ok (PyNum.FNum false 1 (-1074))
  /\ PyNum.float "2e-324" = Ok (PyNum.FNum false 0 (-1074))
  /\ PyNum.float "1.7976931348623157e308" = Ok (PyNum.FNum false (2 ^ 53 - 1) 971)
  /\ PyNum.float "abc" = Raise ValueError.
Proof. repeat split; vm_compute; reflexivity. Qed.

Example decode_demo :
  _convert_type_declaration (mkTypeDeclaration "bool" "") = Ok BoolType
  /\ _convert_type_declaration (mkTypeDeclaration "integer[-inf, 10]" "")
     = Ok (IntType None (Some 10))
  /\ _convert_type_declaration (mkTypeDeclaration "integer[-inf, inf]" "")
     = Ok (IntType None None)
  /\ _convert_type_declaration (mkTypeDeclaration "integer[0, 10]" "")
     = Ok (IntType (Some 0) None)
  /\ _convert_type_declaration (mkTypeDeclaration "integer[inf, 10]" "")
     = Raise ValueError
  /\ _convert_type_declaration (mkTypeDeclaration "integer[-inf]" "")
     = Raise IndexError
  /\ _convert_type_declaration (mkTypeDeclaration "real[-inf, 2.5]" "")
     = Ok (RealType None (Some (NFraction (5 # 2))))
  /\ _convert_type_declaration (mkTypeDeclaration "robot" "machine")
     = Ok (UserType "robot" (Some (UserType "machine" None)))
  /\ convert_type_str "robot" = Ok (UserType "robot" None)
  /\ convert_type_str "surreal" = Raise IndexError
  /\ convert_type_str "real[0.5, 2]"
     = Ok (RealType (Some (NFloat (PyNum.FNum false (2 ^ 52) (-53))))
                    (Some (NFloat (PyNum.FNum false (2 ^ 52) (-51))))).
Proof. repeat split; vm_compute; reflexivity. Qed.

(** ** Facts about the built-ins *)

Section StringFacts.

Local Open Scope string_scope.

Lemma append_assoc (a b c : string) : (a ++ b) ++ c = a ++ (b ++ c).
Proof. induction a; simpl; congruence. Qed.

Lemma append_empty_r (a : string) : a ++ "" = a.
Proof. induction a; simpl; congruence. Qed.

Lemma free_of_app (c : ascii) (a b : string) :
  free_of c (a ++ b) = free_of c a && free_of c b.
Proof.
  induction a as [|x a IH]; simpl; [reflexivity|].
  rewrite IH. now rewrite andb_assoc.
Qed.

Lemma all_chars_app (p : ascii -> bool) (a b : string) :
  all_chars p (a ++ b) = all_chars p a && all_chars p b.
Proof.
  induction a as [|x a IH]; simpl; [reflexivity|].
  rewrite IH. now rewrite andb_assoc.
Qed.

Lemma all_chars_free_of (p : ascii -> bool) (c : ascii) (s : string) :
  p c = false -> all_chars p s = true -> free_of c s = true.
Proof.
  intros Hc. induction s as [|x s IH]; simpl; [reflexivity|].
  intros H. apply andb_true_iff in H as [Hx Hs].
  rewrite (IH Hs), andb_true_r.
  destruct (Ascii.eqb_spec x c) as [->|]; [congruence|reflexivity].
Qed.

Lemma prefix_head_free (c : ascii) (t s : string) :
  free_of c s = true -> s <> "" -> String.prefix (String c t) s = false.
Proof.
  destruct s as [|x s]; [congruence|]. simpl. intros H _.
  apply andb_true_iff in H as [Hx _].
  destruct (ascii_dec c x) as [->|]; [|reflexivity].
  now rewrite Ascii.eqb_refl in Hx.
Qed.

Lemma prefix_app (a b : string) : String.prefix a (a ++ b) = true.
Proof.
  induction a as [|x a IH]; simpl; [now destruct b|].
  destruct (ascii_dec x x); [assumption|congruence].
Qed.

(** A string without the first character of the separator is one piece. *)
Lemma split_go_free (c : ascii) (t cur s : string) :
  free_of c s = true ->
  PyStr.split_go (String c t) 0 cur s = [cur ++ s].
Proof.
  revert cur. induction s as [|x s IH]; intros cur H.
  - simpl. now rewrite append_empty_r.
  - cbn [PyStr.split_go].
    rewrite (prefix_head_free c t (String x s) H) by discriminate.
    simpl in H. apply andb_true_iff in H as [_ Hs].
    rewrite (IH _ Hs), append_assoc. reflexivity.
Qed.

(** The characters of a separator just matched are skipped. *)
Lemma split_go_skip (sep t cur b : string) :
  PyStr.split_go sep (String.length t) cur (t ++ b) = PyStr.split_go sep 0 cur b.
Proof.
  induction t as [|x t IH]; simpl; [reflexivity|assumption].
Qed.

(** The first piece ends at the first occurrence of the separator. *)
Lemma split_go_app (c : ascii) (t cur a b : string) :
  free_of c a = true ->
  PyStr.split_go (String c t) 0 cur (a ++ String c t ++ b)
  = (cur ++ a) :: PyStr.split_go (String c t) 0 "" b.
Proof.
  revert cur. induction a as [|x a IH]; intros cur H.
  - rewrite append_empty_r.
    change ("" ++ String c t ++ b) with (String c (t ++ b)).
    cbn [PyStr.split_go].
    change (String c (t ++ b)) with (String c t ++ b).
    rewrite prefix_app. cbn [String.length Nat.pred].
    now rewrite split_go_skip.
  - change (String x a ++ String c t ++ b) with (String x (a ++ String c t ++ b)).
    cbn [PyStr.split_go].
    assert (Hp : String.prefix (String c t) (String x (a ++ String c t ++ b)) = false).
    { simpl in H. apply andb_true_iff in H as [Hx _]. simpl.
      destruct (ascii_dec c x) as [->|]; [|reflexivity].
      now rewrite Ascii.eqb_refl in Hx. }
    rewrite Hp. simpl in H. apply andb_true_iff in H as [_ Ha].
    rewrite (IH _ Ha), append_assoc. reflexivity.
Qed.

Lemma split_two (c : ascii) (t a b : string) :
  free_of c a = true -> free_of c b = true ->
  PyStr.split (a ++ String c t ++ b) (String c t) = [a; b].
Proof.
  intros Ha Hb. unfold PyStr.split.
  rewrite (split_go_app c t "" a b Ha), (split_go_free c t "" b Hb).
  reflexivity.
Qed.

Lemma split_first (c : ascii) (t a b : string) :
  free_of c a = true ->
  PyStr.index (PyStr.split (a ++ String c t ++ b) (String c t)) 0 = Ok a.
Proof.
  intros Ha. unfold PyStr.split.
  rewrite (split_go_app c t "" a b Ha). reflexivity.
Qed.

End StringFacts.

Section NumberFacts.

Import PyNum.
Local Open Scope string_scope.

Lemma lstrip_id (s : string) : all_chars not_space s = true -> lstrip s = s.
Proof.
  destruct s as [|c s]; [reflexivity|]. simpl. unfold not_space.
  intros H. apply andb_true_iff in H as [Hc _].
  now destruct (is_space c).
Qed.

Lemma rstrip_id (s : string) : all_chars not_space s = true -> rstrip s = s.
Proof.
  induction s as [|c s IH]; [reflexivity|]. simpl. unfold not_space at 1.
  intros H. apply andb_true_iff in H as [Hc Hs].
  rewrite (IH Hs). destruct s; [|reflexivity].
  now destruct (is_space c).
Qed.

Lemma strip_id (s : string) : all_chars not_space s = true -> strip s = s.
Proof. intros H. unfold strip. now rewrite (lstrip_id s H), (rstrip_id s H). Qed.

Lemma all_chars_impl (p q : ascii -> bool) (s : string) :
  (forall c, p c = true -> q c = true) ->
  all_chars p s = true -> all_chars q s = true.
Proof.
  intros Hpq. induction s as [|c s IH]; [reflexivity|]. simpl.
  intros H. apply andb_true_iff in H as [Hc Hs].
  now rewrite (Hpq c Hc), (IH Hs).
Qed.

Lemma digit_cases (c : ascii) :
  is_digit c = true ->
  c = "0"%char \/ c = "1"%char \/ c = "2"%char \/ c = "3"%char \/ c = "4"%char
  \/ c = "5"%char \/ c = "6"%char \/ c = "7"%char \/ c = "8"%char \/ c = "9"%char.
Proof.
  destruct c as [[] [] [] [] [] [] [] []]; vm_compute; intros H;
    try discriminate H; tauto.
Qed.

Lemma digit_not_space (c : ascii) : is_digit c = true -> not_space c = true.
Proof.
  intros H. destruct (digit_cases c H) as [->|[->|[->|[->|[->|[->|[->|[->|[->| ->]]]]]]]]];
    reflexivity.
Qed.

Lemma sign_digit (c : ascii) (s : string) :
  is_digit c = true -> sign (String c s) = (false, String c s).
Proof.
  intros H. destruct (digit_cases c H) as [->|[->|[->|[->|[->|[->|[->|[->|[->| ->]]]]]]]]];
    reflexivity.
Qed.

Lemma digitpart_digits (b : bool) (s : string) :
  all_chars is_digit s = true -> digitpart b s = (s, "").
Proof.
  revert b. induction s as [|c s IH]; intros b; [reflexivity|]. simpl.
  intros H. apply andb_true_iff in H as [Hc Hs].
  now rewrite Hc, (IH true Hs).
Qed.

Lemma span_digits_app (a b : string) :
  all_chars is_digit a = true ->
  match b with String c _ => is_digit c = false | EmptyString => True end ->
  span_digits (a ++ b) = (a, b).
Proof.
  intros Ha Hb. induction a as [|c a IH].
  - simpl. destruct b as [|c b]; [reflexivity|]. simpl. now rewrite Hb.
  - simpl in *. apply andb_true_iff in Ha as [Hc Ha].
    now rewrite Hc, (IH Ha).
Qed.

Lemma span_digits_all (a : string) :
  all_chars is_digit a = true -> span_digits a = (a, "").
Proof.
  intros Ha. rewrite <- (append_empty_r a) at 1.
  now apply span_digits_app.
Qed.

(** The digits the library prints are digits. *)
Lemma uint_digits (d : Decimal.uint) :
  all_chars is_digit (NilEmpty.string_of_uint d) = true.
Proof. induction d; simpl; auto. Qed.

Lemma uint_length (d : Decimal.uint) :
  String.length (NilEmpty.string_of_uint d) = Decimal.nb_digits d.
Proof. induction d; simpl; congruence. Qed.

Lemma nilzero_digits (d : Decimal.uint) :
  all_chars is_digit (NilZero.string_of_uint d) = true.
Proof. destruct d; try reflexivity; apply (uint_digits (_ _)). Qed.

Lemma nilzero_nonempty (d : Decimal.uint) :
  exists c s, NilZero.string_of_uint d = String c s.
Proof. destruct d; simpl; eauto. Qed.

Ltac digit_norm :=
  repeat match goal with
         | |- context [digit_val ?c] =>
             let v := eval vm_compute in (digit_val c) in
             change (digit_val c) with v
         end;
  cbn [Z.mul Z.add].

(** The reader's left-to-right reading of digits agrees with the library's
    reading of a numeral. *)
Lemma digits_val_acc (d : Decimal.uint) (acc : positive) :
  digits_val (Zpos acc) (NilEmpty.string_of_uint d) = Zpos (Pos.of_uint_acc d acc).
Proof.
  revert acc.
  induction d; intros acc;
    cbn [NilEmpty.string_of_uint digits_val Pos.of_uint_acc];
    try reflexivity; rewrite <- IHd; f_equal; digit_norm; lia.
Qed.

Lemma digits_val_uint (d : Decimal.uint) :
  digits_val 0 (NilEmpty.string_of_uint d) = Z.of_uint d.
Proof.
  unfold Z.of_uint.
  induction d; cbn [NilEmpty.string_of_uint digits_val Pos.of_uint Z.of_N];
    try reflexivity; digit_norm; try assumption; apply digits_val_acc.
Qed.

Lemma digits_val_nilzero (d : Decimal.uint) :
  digits_val 0 (NilZero.string_of_uint d) = Z.of_uint d.
Proof. destruct d; try reflexivity; apply (digits_val_uint (_ _)). Qed.

(** Reading digits after an accumulator. *)
Lemma digits_val_shift (acc : Z) (s : string) :
  digits_val acc s = acc * 10 ^ Z.of_nat (String.length s) + digits_val 0 s.
Proof.
  revert acc. induction s as [|c s IH]; intros acc.
  - simpl. lia.
  - cbn [digits_val String.length]. rewrite (IH (10 * acc + digit_val c)), (IH (10 * 0 + digit_val c)).
    rewrite Nat2Z.inj_succ, Z.pow_succ_r by lia. lia.
Qed.

(** [int] reads back a signed numeral. *)
Lemma int_numeral (neg : bool) (d : Decimal.uint) :
  int ((if neg then "-" else "") ++ NilZero.string_of_uint d)
  = Ok (apply_sign neg (Z.of_uint d)).
Proof.
  pose proof (nilzero_digits d) as Hd.
  pose proof (digits_val_nilzero d) as Hv.
  destruct (nilzero_nonempty d) as (c & s & E). rewrite E in *.
  assert (Hc : is_digit c = true) by (simpl in Hd; now apply andb_true_iff in Hd).
  unfold int.
  rewrite strip_id.
  - destruct neg; simpl append.
    + simpl sign. cbv iota beta. rewrite (digitpart_digits false _ Hd), Hv. reflexivity.
    + rewrite (sign_digit c s Hc). cbv iota beta.
      rewrite (digitpart_digits false _ Hd), Hv. reflexivity.
  - rewrite all_chars_app, (all_chars_impl _ _ _ digit_not_space Hd).
    now destruct neg.
Qed.

(** [int(str(z)) == z] *)
Lemma int_decimal (z : Z) : int (decimal z) = Ok z.
Proof.
  unfold decimal. destruct z as [|p|p]; simpl Z.to_int; simpl NilZero.string_of_int.
  - reflexivity.
  - exact (eq_trans (int_numeral false (Pos.to_uint p))
                    (f_equal Ok (DecimalZ.of_to (Zpos p)))).
  - exact (eq_trans (int_numeral true (Pos.to_uint p))
                    (f_equal Ok (DecimalZ.of_to (Zneg p)))).
Qed.

End NumberFacts.

Section FractionFacts.
Import PyNum.
Local Open Scope string_scope.

Lemma Fraction_body (neg : bool) (c : ascii) (s F : string) :
  is_digit c = true -> all_chars is_digit s = true -> all_chars is_digit F = true ->
  Fraction ((if neg then "-" else "") ++ String c s ++ "." ++ F)
  = Ok (Qred (Qmake (apply_sign neg
                       (digits_val 0 (String c s) * 10 ^ Z.of_nat (String.length F)
                        + digits_val 0 F))
                    (Z.to_pos (10 ^ Z.of_nat (String.length F))))).
Proof.
  intros Hc Hs HF.
  assert (HI : all_chars is_digit (String c s) = true) by (simpl; now rewrite Hc, Hs).
  unfold Fraction. rewrite strip_id.
  2:{ rewrite !all_chars_app, (all_chars_impl _ _ _ digit_not_space HI),
        (all_chars_impl _ _ _ digit_not_space HF). now destruct neg. }
  assert (Hsign : sign ((if neg then "-" else "") ++ String c s ++ "." ++ F)
                  = (neg, String c s ++ "." ++ F)).
  { destruct neg; [reflexivity|]. exact (sign_digit c _ Hc). }
  rewrite Hsign. cbv iota beta.
  assert (Hl : match String c s ++ "." ++ F with
               | "" => false
               | String c0 "" => is_digit c0
               | String c0 (String c' _) =>
                   is_digit c0 || (c0 =? ".")%char && is_digit c'
               end = true).
  { change (String c s ++ "." ++ F) with (String c (s ++ "." ++ F)).
    destruct (s ++ "." ++ F); [assumption|now rewrite Hc]. }
  rewrite Hl. cbv [negb].
  rewrite (span_digits_app (String c s) ("." ++ F) HI) by reflexivity.
  change ("." ++ F) with (String "." F). cbv iota beta.
  rewrite (span_digits_all F HF). cbv iota beta.
  unfold fraction_of.
  destruct (Z.eqb_spec (10 ^ Z.of_nat (String.length F)) 0) as [E|_].
  - exfalso. revert E. apply Z.pow_nonzero; lia.
  - reflexivity.
Qed.

(** [Fraction] reads a decimal literal as the rational it denotes. *)
Lemma Fraction_literal (l : DecimalLiteral) :
  Fraction (literal_string l) = Ok (Qred (literal_value l)).
Proof.
  destruct l as [neg i f]. unfold literal_string, literal_value. cbn [lit_neg lit_int lit_frac].
  pose proof (nilzero_digits i) as Hd.
  destruct (nilzero_nonempty i) as (c & s & E).
  rewrite <- (digits_val_nilzero i), <- (digits_val_uint f), <- (uint_length f).
  rewrite E in *. simpl in Hd. apply andb_true_iff in Hd as [Hc Hs].
  exact (Fraction_body neg c s _ Hc Hs (uint_digits f)).
Qed.

(** *** Literals in every form [Fraction] reads *)

Lemma literal_char_not_space (c : ascii) : literal_char c = true -> not_space c = true.
Proof.
  destruct c as [[] [] [] [] [] [] [] []]; vm_compute; intros H;
    try discriminate H; reflexivity.
Qed.

Lemma digit_literal (c : ascii) : is_digit c = true -> literal_char c = true.
Proof. intros H. unfold literal_char. now rewrite H. Qed.

Lemma digits_literal (d : Decimal.uint) : all_chars literal_char (digits d) = true.
Proof. exact (all_chars_impl _ _ _ digit_literal (uint_digits d)). Qed.

Lemma sign_literal (s : Sign) : all_chars literal_char (sign_string s) = true.
Proof. now destruct s. Qed.

Lemma bound_chars (l : BoundLiteral) : all_chars literal_char (bound_string l) = true.
Proof.
  destruct l as [s n d|s w f e]; cbn [bound_string].
  - now rewrite !all_chars_app, sign_literal, !digits_literal.
  - rewrite !all_chars_app, sign_literal, digits_literal. cbn [andb].
    apply andb_true_iff. split.
    + destruct f as [f|]; [|reflexivity].
      rewrite all_chars_app, digits_literal. reflexivity.
    + destruct e as [[cap es ed]|]; [|reflexivity]. unfold exponent_string.
      cbn [exp_capital exp_sign exp_digits].
      rewrite !all_chars_app, sign_literal, digits_literal. now destruct cap.
Qed.

Lemma literal_plain (s : string) : all_chars literal_char s = true -> plain s = true.
Proof.
  intros H. unfold plain.
  now rewrite !(all_chars_free_of literal_char _ s) by (reflexivity || assumption).
Qed.

Lemma literal_not_inf (s : string) :
  all_chars literal_char s = true ->
  (s =? "-inf")%string = false /\ (s =? "inf")%string = false.
Proof.
  intros H. split.
  - destruct (String.eqb_spec s "-inf") as [->|]; [discriminate H|reflexivity].
  - destruct (String.eqb_spec s "inf") as [->|]; [discriminate H|reflexivity].
Qed.

Lemma digits_head (d : Decimal.uint) :
  no_digit d = false ->
  exists c s, digits d = String c s /\ is_digit c = true.
Proof.
  intros H. pose proof (uint_digits d) as Hd. unfold digits.
  destruct d; try discriminate H; cbn [NilEmpty.string_of_uint] in *;
    eexists; eexists; (split; [reflexivity|reflexivity]).
Qed.

(** What [Fraction] does with a sign in front of a body that starts with a
    digit or a point. *)
Lemma sign_body (s : Sign) (c : ascii) (r : string) :
  is_digit c || (c =? ".")%char = true ->
  sign (sign_string s ++ String c r) = (negative s, String c r).
Proof.
  intros H. destruct s; try reflexivity. cbn [sign_string append].
  apply orb_true_iff in H as [H|H].
  - exact (sign_digit c r H).
  - apply Ascii.eqb_eq in H. now subst c.
Qed.

Lemma scale_exp_value (neg : bool) (a b e : Z) :
  0 < b ->
  (let '(x, y) := scale_exp a b e in
   Qmake (apply_sign neg x) (Z.to_pos y)
   == Qmake (apply_sign neg a) (Z.to_pos b) * Qpower (10 # 1) e)%Q.
Proof.
  intros Hb. unfold scale_exp. destruct (Z.leb_spec 0 e) as [He|He].
  - change (10 # 1)%Q with (inject_Z 10). rewrite <- (Zpower_Qpower 10 e He).
    unfold Qeq, Qmult, inject_Z. cbn [Qnum Qden].
    rewrite Pos.mul_1_r.
    replace (apply_sign neg (a * 10 ^ e)) with (apply_sign neg a * 10 ^ e)
      by (destruct neg; cbn [apply_sign]; ring).
    reflexivity.
  - assert (Hp : 0 < 10 ^ (- e)) by (apply Z.pow_pos_nonneg; lia).
    replace e with (- (- e)) at 2 by lia.
    rewrite Qpower_opp. change (10 # 1)%Q with (inject_Z 10).
    rewrite <- (Zpower_Qpower 10 (- e)) by lia.
    destruct (10 ^ (- e)) as [|p|p] eqn:E; try lia.
    unfold Qeq, Qmult, Qinv, inject_Z. cbn [Qnum Qden].
    rewrite Z2Pos.inj_mul by lia. cbn [Z.to_pos].
    rewrite Pos2Z.inj_mul. lia.
Qed.

Lemma Fraction_after_sign (s : string) :
  Fraction s
  = let '(neg, r) := sign (strip s) in
    if negb (lookahead r) then Raise ValueError else after_sign neg r.
Proof. reflexivity. Qed.

Lemma Fraction_signed (s : Sign) (body : string) :
  all_chars literal_char body = true ->
  lookahead body = true ->
  Fraction (sign_string s ++ body) = after_sign (negative s) body.
Proof.
  intros Hl Hk. rewrite Fraction_after_sign, strip_id.
  2:{ rewrite all_chars_app, (all_chars_impl _ _ _ literal_char_not_space Hl).
      now destruct s. }
  destruct body as [|c r]; [discriminate Hk|].
  rewrite (sign_body s c r).
  - now rewrite Hk.
  - unfold lookahead in Hk. destruct r as [|c' r].
    + now rewrite Hk.
    + apply orb_true_iff in Hk as [->|Hk]; [reflexivity|].
      apply andb_true_iff in Hk as [-> _]. apply orb_true_r.
Qed.

Lemma fraction_of_positive (neg : bool) (a b : Z) :
  0 < b -> fraction_of neg a b = Ok (Qred (Qmake (apply_sign neg a) (Z.to_pos b))).
Proof.
  intros H. unfold fraction_of. destruct (Z.eqb_spec b 0); [lia|reflexivity].
Qed.

Lemma exponent_digits (es : Sign) (X : string) :
  all_chars is_digit X = true -> X <> "" ->
  exponent (sign_string es ++ X) = Some (apply_sign (negative es) (digits_val 0 X)).
Proof.
  intros HX Hne. destruct X as [|c x]; [contradiction|].
  assert (Hc : is_digit c = true) by (simpl in HX; now apply andb_true_iff in HX).
  unfold exponent. rewrite (sign_body es c x) by now rewrite Hc.
  now rewrite (span_digits_all _ HX).
Qed.

Lemma after_sign_ratio (neg : bool) (N D : string) :
  all_chars is_digit N = true -> all_chars is_digit D = true -> D <> "" ->
  after_sign neg (N ++ "/" ++ D) = fraction_of neg (digits_val 0 N) (digits_val 0 D).
Proof.
  intros HN HD Hne. unfold after_sign.
  rewrite (span_digits_app N ("/" ++ D) HN) by reflexivity.
  change ("/" ++ D) with (String "/" D). cbv iota beta.
  rewrite (span_digits_all D HD). now destruct D.
Qed.

Lemma after_sign_decimal (neg : bool) (W : string) (f : option string)
  (x : option (bool * Sign * string)) :
  all_chars is_digit W = true ->
  (forall F, f = Some F -> all_chars is_digit F = true) ->
  (forall cap es X, x = Some (cap, es, X) -> all_chars is_digit X = true /\ X <> "") ->
  after_sign neg (W ++ point_part f ++ exponent_part x)
  = let dec := match f with Some F => F | None => "" end in
    let scale := 10 ^ Z.of_nat (String.length dec) in
    let n' := digits_val 0 W * scale + digits_val 0 dec in
    match x with
    | Some (_, es, X) =>
        let '(a, b) := scale_exp n' scale (apply_sign (negative es) (digits_val 0 X)) in
        fraction_of neg a b
    | None => fraction_of neg n' scale
    end.
Proof.
  intros HW Hf Hx. unfold after_sign.
  rewrite (span_digits_app W (point_part f ++ exponent_part x) HW).
  2:{ destruct f as [F|]; [reflexivity|]. destruct x as [[[[] es] X]|]; reflexivity. }
  destruct f as [F|]; cbn [point_part].
  - change (("." ++ F) ++ exponent_part x) with (String "." (F ++ exponent_part x)).
    cbv iota beta.
    rewrite (span_digits_app F (exponent_part x) (Hf F eq_refl)).
    2:{ destruct x as [[[[] es] X]|]; reflexivity. }
    destruct x as [[[cap es] X]|]; cbn [exponent_part].
    + destruct (Hx cap es X eq_refl) as [HX Hne].
      destruct cap; cbn [append]; cbv iota beta;
        change (is_e _) with true; cbv iota;
        now rewrite (exponent_digits es X HX Hne).
    + reflexivity.
  - cbn [append]. destruct x as [[[cap es] X]|]; cbn [exponent_part].
    + destruct (Hx cap es X eq_refl) as [HX Hne].
      destruct cap; cbn [append]; cbv iota beta;
        change (is_e _) with true; cbv iota;
        rewrite (exponent_digits es X HX Hne); cbn [String.length digits_val];
        reflexivity.
    + cbn [String.length digits_val Z.of_nat]. f_equal. lia.
Qed.

Lemma lookahead_digit (c : ascii) (r : string) :
  is_digit c = true -> lookahead (String c r) = true.
Proof. intros H. unfold lookahead. destruct r; now rewrite H. Qed.

Lemma no_digit_nil (d : Decimal.uint) : no_digit d = true -> digits d = "".
Proof. now destruct d. Qed.

Lemma digits_not_empty (d : Decimal.uint) : no_digit d = false -> digits d <> "".
Proof. intros H. destruct (digits_head d H) as (c & s & -> & _). discriminate. Qed.

Lemma of_uint_nonneg (d : Decimal.uint) : 0 <= Z.of_uint d.
Proof. unfold Z.of_uint. lia. Qed.

Lemma scale_exp_positive (a b e : Z) : 0 < b -> 0 < snd (scale_exp a b e).
Proof.
  intros H. unfold scale_exp. destruct (Z.leb_spec 0 e); cbn [snd]; [assumption|].
  apply Z.mul_pos_pos; [assumption|]. apply Z.pow_pos_nonneg; lia.
Qed.

Lemma bound_string_scientific (s : Sign) (w : Decimal.uint) (f : option Decimal.uint)
  (e : option Exponent) :
  bound_string (Scientific s w f e)
  = sign_string s
    ++ digits w ++ point_part (option_map digits f) ++ exponent_part (exponent_parts e).
Proof. destruct f, e as [[cap es ed]|]; reflexivity. Qed.

(** [Fraction] reads a well-formed literal as the rational it denotes. *)
Lemma Fraction_bound (l : BoundLiteral) :
  well_formed l = true ->
  exists q, Fraction (bound_string l) = Ok q /\ (q == bound_value l)%Q.
Proof.
  intros Hwf. pose proof (bound_chars l) as Hch.
  destruct l as [s n d|s w f e].
  - cbn [well_formed] in Hwf. apply andb_true_iff in Hwf as [Hwf Hz].
    apply andb_true_iff in Hwf as [Hn Hd].
    apply negb_true_iff in Hn, Hd, Hz. apply Z.eqb_neq in Hz.
    cbn [bound_string] in *. rewrite all_chars_app in Hch.
    apply andb_true_iff in Hch as [_ Hch].
    destruct (digits_head n Hn) as (c & r & En & Hc).
    rewrite Fraction_signed; [|assumption|rewrite En; exact (lookahead_digit c _ Hc)].
    rewrite (after_sign_ratio _ _ _ (uint_digits n) (uint_digits d)
               (digits_not_empty d Hd)).
    unfold digits. rewrite !digits_val_uint.
    rewrite fraction_of_positive by (unfold Z.of_uint in *; lia).
    eexists. split; [reflexivity|]. apply Qred_correct.
  - rewrite bound_string_scientific in *. cbn [well_formed] in Hwf.
    apply andb_true_iff in Hwf as [Hhead He].
    rewrite all_chars_app in Hch. apply andb_true_iff in Hch as [_ Hch].
    rewrite Fraction_signed; [|assumption|].
    2:{ destruct (no_digit w) eqn:Hw.
        - rewrite (no_digit_nil w Hw). destruct f as [f|]; [|discriminate Hhead].
          cbn [negb orb] in Hhead. apply negb_true_iff in Hhead.
          destruct (digits_head f Hhead) as (c & r & Ef & Hc).
          cbn [option_map point_part append]. rewrite Ef. cbn [append lookahead].
          now rewrite Hc.
        - destruct (digits_head w Hw) as (c & r & Ew & Hc). rewrite Ew.
          exact (lookahead_digit c _ Hc). }
    rewrite (after_sign_decimal _ _ _ _ (uint_digits w)).
    2:{ intros F HF. destruct f as [f|]; [|discriminate HF].
        injection HF as <-. apply uint_digits. }
    2:{ intros cap es X HX. destruct e as [[cap' es' ed]|]; [|discriminate HX].
        injection HX as <- <- <-. cbn [exp_digits] in He.
        apply negb_true_iff in He.
        split; [apply uint_digits|now apply digits_not_empty]. }
    cbv zeta.
    assert (Hdec : String.length (match option_map digits f with
                                  | Some F => F | None => "" end)
                   = match f with Some f' => Decimal.nb_digits f' | None => 0%nat end
                   /\ digits_val 0 (match option_map digits f with
                                    | Some F => F | None => "" end)
                      = match f with Some f' => Z.of_uint f' | None => 0 end).
    { destruct f as [f|]; cbn [option_map]; [|split; reflexivity].
      split; [apply uint_length|apply digits_val_uint]. }
    destruct Hdec as [-> ->]. rewrite digits_val_uint.
    set (k := Z.of_nat match f with Some f' => Decimal.nb_digits f' | None => 0%nat end).
    assert (Hk : 0 < 10 ^ k) by (apply Z.pow_pos_nonneg; lia).
    assert (Ek : k = match f with
                     | Some f' => Z.of_nat (Decimal.nb_digits f') | None => 0
                     end) by (subst k; now destruct f).
    cbn [bound_value]. rewrite <- Ek.
    destruct e as [[cap es ed]|];
      cbn [exponent_parts option_map exp_capital exp_sign exp_digits].
    + unfold digits. rewrite digits_val_uint.
      pose proof (scale_exp_value (negative s)
                    (Z.of_uint w * 10 ^ k
                     + match f with Some f' => Z.of_uint f' | None => 0 end)
                    (10 ^ k) (apply_sign (negative es) (Z.of_uint ed)) Hk) as Hv.
      pose proof (scale_exp_positive
                    (Z.of_uint w * 10 ^ k
                     + match f with Some f' => Z.of_uint f' | None => 0 end)
                    (10 ^ k) (apply_sign (negative es) (Z.of_uint ed)) Hk) as Hp.
      destruct (scale_exp _ _ _) as [a b]. cbn [snd] in Hp.
      rewrite (fraction_of_positive _ a b Hp).
      eexists. split; [reflexivity|]. rewrite Qred_correct. exact Hv.
    + rewrite (fraction_of_positive _ _ _ Hk).
      eexists. split; [reflexivity|]. rewrite Qred_correct.
      cbn [Qpower]. now rewrite Qmult_1_r.
Qed.

End FractionFacts.

(** ** The type decoder on the bracketed forms *)

Section DecoderFacts.

Local Open Scope string_scope.

Lemma numeric_plain (s : string) : all_chars numeric_char s = true -> plain s = true.
Proof.
  intros H. unfold plain.
  now rewrite !(all_chars_free_of numeric_char _ s) by (reflexivity || assumption).
Qed.

Lemma numeric_not_inf (s : string) :
  all_chars numeric_char s = true -> (s =? "-inf") = false /\ (s =? "inf") = false.
Proof.
  intros H. split.
  - destruct (String.eqb_spec s "-inf") as [->|]; [discriminate H|reflexivity].
  - destruct (String.eqb_spec s "inf") as [->|]; [discriminate H|reflexivity].
Qed.

Lemma digit_numeric (c : ascii) : PyNum.is_digit c = true -> numeric_char c = true.
Proof. intros H. unfold numeric_char. now rewrite H. Qed.

Lemma decimal_numeric (z : Z) : all_chars numeric_char (decimal z) = true.
Proof.
  unfold decimal.
  destruct (Z.to_int z) as [d|d]; simpl NilZero.string_of_int; [|simpl all_chars];
    now rewrite (all_chars_impl _ _ _ digit_numeric (nilzero_digits d)).
Qed.

Lemma literal_numeric (l : DecimalLiteral) :
  all_chars numeric_char (literal_string l) = true.
Proof.
  unfold literal_string.
  rewrite !all_chars_app,
    (all_chars_impl _ _ _ digit_numeric (nilzero_digits (lit_int l))),
    (all_chars_impl _ _ _ digit_numeric (uint_digits (lit_frac l))).
  now destruct (lit_neg l).
Qed.

(** The items between the brackets of [pre[lo, hi]]. *)
Lemma bracket_items_pair (pre lo hi : string) :
  free_of "[" pre = true -> plain lo = true -> plain hi = true ->
  bracket_items (pre ++ "[" ++ lo ++ ", " ++ hi ++ "]") = Ok [lo; hi].
Proof.
  unfold plain. intros Hpre Hlo Hhi.
  apply andb_true_iff in Hlo as [Hlo Hlo3]. apply andb_true_iff in Hlo as [Hlo1 Hlo2].
  apply andb_true_iff in Hhi as [Hhi Hhi3]. apply andb_true_iff in Hhi as [Hhi1 Hhi2].
  unfold bracket_items.
  rewrite (split_two "[" "" pre (lo ++ ", " ++ hi ++ "]") Hpre).
  2:{ rewrite !free_of_app, Hlo1, Hhi1. reflexivity. }
  cbn [PyStr.index nth_error bind].
  replace (lo ++ ", " ++ hi ++ "]") with ((lo ++ ", " ++ hi) ++ "]" ++ "")
    by now rewrite !append_assoc.
  rewrite (split_first "]" "" (lo ++ ", " ++ hi) "").
  2:{ rewrite !free_of_app, Hlo2, Hhi2. reflexivity. }
  cbn [bind].
  now rewrite (split_two "," " " lo hi Hlo3 Hhi3).
Qed.

(** What the two arms of [bounds] give on two items. *)
Lemma bounds_finite_lower {A : Type} (parse : string -> Result A) (lo hi : string) :
  (lo =? "-inf") = false ->
  bounds parse [lo; hi] = let* v := parse lo in Ok (Some v, None).
Proof. intros H. unfold bounds. cbn [PyStr.index nth_error bind]. now rewrite H. Qed.

Lemma bounds_finite_lower' {A : Type} (parse : string -> Result A) (lo : string) :
  (lo =? "-inf") = false ->
  bounds parse [lo] = let* v := parse lo in Ok (Some v, None).
Proof. intros H. unfold bounds. cbn [PyStr.index nth_error bind]. now rewrite H. Qed.

Lemma bounds_infinite_lower {A : Type} (parse : string -> Result A) (hi : string) :
  (hi =? "inf") = false ->
  bounds parse ["-inf"; hi] = let* v := parse hi in Ok (None, Some v).
Proof. intros H. unfold bounds. cbn [PyStr.index nth_error bind String.eqb Ascii.eqb Bool.eqb negb]. now rewrite H. Qed.

Lemma integer_declaration (lo hi parent : string) :
  plain lo = true -> plain hi = true ->
  _convert_type_declaration (mkTypeDeclaration (integer_descriptor lo hi) parent)
  = let* (lb, ub) := bounds PyNum.int [lo; hi] in Ok (IntType lb ub).
Proof.
  intros Hlo Hhi.
  pose proof (bracket_items_pair "integer" lo hi eq_refl Hlo Hhi) as E.
  unfold _convert_type_declaration, integer_descriptor, PyStr.startswith.
  cbn [type_name]. set (x := lo ++ ", " ++ hi ++ "]") in *.
  change (("integer[" ++ x =? "bool")%string) with false.
  rewrite prefix_app. cbv iota.
  change ("integer[" ++ x) with ("integer" ++ "[" ++ x).
  now rewrite E.
Qed.

Lemma real_declaration (lo hi parent : string) :
  plain lo = true -> plain hi = true ->
  _convert_type_declaration (mkTypeDeclaration (real_descriptor lo hi) parent)
  = let* (lb, ub) := bounds PyNum.Fraction [lo; hi] in
    Ok (RealType (option_map NFraction lb) (option_map NFraction ub)).
Proof.
  intros Hlo Hhi.
  pose proof (bracket_items_pair "real" lo hi eq_refl Hlo Hhi) as E.
  unfold _convert_type_declaration, real_descriptor, PyStr.startswith.
  cbn [type_name]. set (x := lo ++ ", " ++ hi ++ "]") in *.
  change (("real[" ++ x =? "bool")%string) with false.
  change (String.prefix "integer[" ("real[" ++ x)) with false.
  rewrite prefix_app. cbv iota.
  change ("real[" ++ x) with ("real" ++ "[" ++ x).
  now rewrite E.
Qed.

End DecoderFacts.

(** ** Claims on type decoding *)

(** X3: the other two shapes of an integer declaration: an infinite lower bound
    lets the [elif] arm read the upper bound. *)
Lemma integer_unbounded_below (hi : Z) (parent : string) :
  _convert_type_declaration
    (mkTypeDeclaration (integer_descriptor "-inf" (decimal hi)) parent)
  = Ok (IntType None (Some hi)).
Proof.
  rewrite integer_declaration by (reflexivity || apply numeric_plain, decimal_numeric).
  rewrite bounds_infinite_lower by apply numeric_not_inf, decimal_numeric.
  now rewrite int_decimal.
Qed.

Lemma integer_unbounded (parent : string) :
  _convert_type_declaration (mkTypeDeclaration (integer_descriptor "-inf" "inf") parent)
  = Ok (IntType None None).
Proof. reflexivity. Qed.

(** C1, as the code has it: for all finite integers [lo] and [hi], decoding
    the declaration [integer[lo, hi]] gives an Integer type whose lower bound
    is [lo] and whose upper bound is absent.  The upper bound is assigned on
    the [elif] arm, which a finite lower bound never reaches; the claim asks
    for both bounds at once. *)
Theorem C1_finite_lower_bound_drops_upper_bound (lo hi : Z) (parent : string) :
  _convert_type_declaration
    (mkTypeDeclaration (integer_descriptor (decimal lo) (decimal hi)) parent)
  = Ok (IntType (Some lo) None).
Proof.
  rewrite integer_declaration by apply numeric_plain, decimal_numeric.
  rewrite bounds_finite_lower by apply numeric_not_inf, decimal_numeric.
  now rewrite int_decimal.
Qed.

(** The declaration [integer[0, 10]] of the failing input of C1. *)
Example integer_0_10 :
  integer_descriptor (decimal 0) (decimal 10) = "integer[0, 10]"
  /\ _convert_type_declaration (mkTypeDeclaration "integer[0, 10]" "")
     = Ok (IntType (Some 0) None).
Proof. split; reflexivity. Qed.

(** A parent that was not declared is attached all the same: [parent] is
    compared with the empty string right after it was set to [None]. *)
Lemma undeclared_parent_is_attached :
  _convert_type_declaration (mkTypeDeclaration "robot" "")
  = Ok (UserType "robot" (Some (UserType "" None))).
Proof. reflexivity. Qed.

(** C6, refuted as stated: the string [int] is not [bool] and has neither
    bracketed form, yet [convert_type_str] decodes it to the unbounded Integer
    type, not to a user type named [int]. *)
Lemma C6_counterexample :
  "int" <> "bool"
  /\ PyStr.startswith "int" "integer[" = false
  /\ PyStr.startswith "int" "real[" = false
  /\ convert_type_str "int" = Ok (IntType None None)
  /\ forall father, convert_type_str "int" <> Ok (UserType "int" father).
Proof. repeat split; try reflexivity; discriminate. Qed.

(** C6, amended: a type declaration whose name is not [bool] and starts
    with neither [integer[] nor [real[] decodes to a user type of that name,
    whose parent is the declared parent when one is declared; and
    [convert_type_str] decodes every string other than [bool], [int] and
    [float] that does not contain [real] to a user type of that name without
    parent. *)
Theorem C6_other_names_decode_to_user_types (msg : TypeDeclaration) (s : string) :
  type_name msg <> "bool" ->
  PyStr.startswith (type_name msg) "integer[" = false ->
  PyStr.startswith (type_name msg) "real[" = false ->
  s <> "bool" -> s <> "int" -> s <> "float" -> PyStr.contains "real" s = false ->
  (exists father,
      _convert_type_declaration msg = Ok (UserType (type_name msg) father)
      /\ (parent_type msg <> "" -> father = Some (UserType (parent_type msg) None)))
  /\ convert_type_str s = Ok (UserType s None).
Proof.
  intros Hb Hi Hr Hsb Hsi Hsf Hsr. split.
  - unfold _convert_type_declaration. rewrite Hi, Hr.
    destruct (String.eqb_spec (type_name msg) "bool") as [E|_]; [contradiction|].
    eexists. split; [reflexivity|]. intros _. reflexivity.
  - unfold convert_type_str. rewrite Hsr.
    destruct (String.eqb_spec s "bool") as [E|_]; [contradiction|].
    destruct (String.eqb_spec s "int") as [E|_]; [contradiction|].
    destruct (String.eqb_spec s "float") as [E|_]; [contradiction|].
    reflexivity.
Qed.

Lemma C6_witness :
  (exists father,
      _convert_type_declaration (mkTypeDeclaration "robot" "machine")
      = Ok (UserType "robot" father)
      /\ ("machine" <> "" -> father = Some (UserType "machine" None)))
  /\ convert_type_str "robot" = Ok (UserType "robot" None).
Proof.
  apply (C6_other_names_decode_to_user_types (mkTypeDeclaration "robot" "machine") "robot");
    (discriminate || reflexivity).
Defined.

(** The real arm has the [elif] of the integer arm: a finite lower bound
    leaves the upper bound absent. *)
Lemma real_finite_lower_bound_drops_upper_bound (lo hi : DecimalLiteral)
  (parent : string) :
  _convert_type_declaration
    (mkTypeDeclaration (real_descriptor (literal_string lo) (literal_string hi)) parent)
  = Ok (RealType (Some (NFraction (Qred (literal_value lo)))) None).
Proof.
  rewrite real_declaration by apply numeric_plain, literal_numeric.
  rewrite bounds_finite_lower by apply numeric_not_inf, literal_numeric.
  now rewrite Fraction_literal.
Qed.

(** C7, refuted as stated, on [real[0.1, 0.5]]: [convert_type_str] reads the
    bounds with [float], and the binary64 number nearest to [0.1] is not
    one tenth; the handler of type declarations reads [0.1] exactly and
    leaves the upper bound absent. *)
Lemma C7_counterexample :
  (exists lb ub,
      convert_type_str "real[0.1, 0.5]" = Ok (RealType lb ub)
      /\ ~ exact_bound (1 # 10) lb)
  /\ (exists lb ub,
         _convert_type_declaration (mkTypeDeclaration "real[0.1, 0.5]" "")
         = Ok (RealType lb ub)
         /\ exact_bound (1 # 10) lb /\ ~ exact_bound (1 # 2) ub).
Proof.
  split.
  - eexists. eexists. split; [vm_compute; reflexivity|].
    vm_compute. discriminate.
  - eexists. eexists. split; [vm_compute; reflexivity|].
    split; [reflexivity|]. intros [].
Qed.

(** C7, amended: for finite bounds [lo] and [hi] written in any form
    [fractions.Fraction] reads, as an integer, a decimal numeral with or
    without exponent or a ratio, the declaration [real[lo, hi]] decodes to a
    Real type whose lower bound is exactly the rational [lo] denotes, and
    the declaration [real[-inf, hi]] to a Real type without lower bound
    whose upper bound is exactly the rational [hi] denotes; both are read
    by [fractions.Fraction], with no floating point. *)
Theorem C7_declared_real_bounds_are_exact (lo hi : BoundLiteral) (parent : string) :
  well_formed lo = true -> well_formed hi = true ->
  (exists lb ub,
      _convert_type_declaration
        (mkTypeDeclaration (real_descriptor (bound_string lo) (bound_string hi))
                           parent)
      = Ok (RealType lb ub)
      /\ exact_bound (bound_value lo) lb)
  /\ (exists ub,
         _convert_type_declaration
           (mkTypeDeclaration (real_descriptor "-inf" (bound_string hi)) parent)
         = Ok (RealType None ub)
         /\ exact_bound (bound_value hi) ub).
Proof.
  intros Hlo Hhi.
  destruct (Fraction_bound lo Hlo) as (qlo & Elo & Hqlo).
  destruct (Fraction_bound hi Hhi) as (qhi & Ehi & Hqhi).
  split.
  - exists (Some (NFraction qlo)), None. split; [|exact Hqlo].
    rewrite real_declaration by apply literal_plain, bound_chars.
    rewrite bounds_finite_lower by apply literal_not_inf, bound_chars.
    now rewrite Elo.
  - exists (Some (NFraction qhi)). split; [|exact Hqhi].
    rewrite real_declaration by (reflexivity || apply literal_plain, bound_chars).
    rewrite bounds_infinite_lower by apply literal_not_inf, bound_chars.
    now rewrite Ehi.
Qed.

(** The bounds [1/2] and [1e-3], and the bound [5]. *)
Lemma C7_witness :
  (exists lb ub,
      _convert_type_declaration (mkTypeDeclaration "real[1/2, 1e-3]" "")
      = Ok (RealType lb ub)
      /\ exact_bound (1 # 2) lb)
  /\ (exists ub,
         _convert_type_declaration (mkTypeDeclaration "real[-inf, 1e-3]" "")
         = Ok (RealType None ub)
         /\ exact_bound (1 # 1000) ub).
Proof.
  exact (C7_declared_real_bounds_are_exact
           (Ratio NoSign (Decimal.D1 Decimal.Nil) (Decimal.D2 Decimal.Nil))
           (Scientific NoSign (Decimal.D1 Decimal.Nil) None
              (Some (mkExponent false Minus (Decimal.D3 Decimal.Nil))))
           "" eq_refl eq_refl).
Defined.

(** ** Expressions *)

Section ExpressionFacts.

Lemma bind_returns {A B : Type} (r : Result A) (k : A -> Result B) :
  returns (bind r k) -> exists a, r = Ok a /\ returns (k a).
Proof. destruct r as [a|e]; simpl; [eauto|]. intros [b H]. discriminate H. Qed.

(** Induction on an expression message, with the property available for
    every child. *)
Lemma Expression_induction (P : pb2.Expression -> Prop) :
  (forall atom list type kind,
      Forall P list -> P (pb2.mkExpression atom list type kind)) ->
  forall e, P e.
Proof.
  intros H. fix IH 1. intros [atom list type kind]. apply H.
  induction list as [|c l IHl]; constructor; [apply IH|exact IHl].
Qed.

(** The handler, with its loop over the children named. *)
Lemma convert_expression_unfold (self : ProtobufReader) (atom : pb2.Atom)
  (list : list pb2.Expression) (type : string) (kind : pb2.ExpressionKind)
  (problem : Problem) (param_map : OrderedDict ActionParameter) :
  _convert_expression self (pb2.mkExpression atom list type kind) problem param_map
  = let* payload := _convert_atom self atom problem in
    let* args := convert_args self list problem param_map [] in
    expression_node atom type kind problem payload args.
Proof.
  cbn [_convert_expression].
  destruct (_convert_atom self atom problem) as [payload|e] eqn:Ea; [|reflexivity].
  cbn [bind].
  match goal with
  | |- bind (?f list []) _ = _ =>
      assert (L : forall l args, f l args = convert_args self l problem param_map args)
  end.
  { induction l as [|c l IHl]; intros args; [reflexivity|].
    cbn [convert_args].
    destruct (_convert_expression self c problem param_map); [|reflexivity].
    cbn [bind]. apply IHl. }
  rewrite L.
  destruct (convert_args self list problem param_map []) as [args|e]; [|reflexivity].
  cbn [bind]. destruct kind; reflexivity.
Qed.

Lemma convert_args_returns (self : ProtobufReader) (l : list pb2.Expression)
  (problem : Problem) (param_map : OrderedDict ActionParameter) (args : list Value) :
  Forall (fun c => returns (_convert_expression self c problem param_map)) l ->
  returns (convert_args self l problem param_map args).
Proof.
  intros H. revert args. induction H as [|c l [v Hc] _ IH]; intros args.
  - now exists args.
  - cbn [convert_args]. rewrite Hc. apply IH.
Qed.

Lemma atom_same_scope (r1 r2 : ProtobufReader) (msg : pb2.Atom) (problem : Problem) :
  same_scope r1 r2 -> _convert_atom r1 msg problem = _convert_atom r2 msg problem.
Proof.
  unfold same_scope. intros H. destruct msg; try reflexivity.
  unfold _convert_atom, parameter.
  destruct (current_action r1), (current_action r2); simpl in H;
    try discriminate H; [|reflexivity].
  injection H as ->. reflexivity.
Qed.

Lemma expression_same_scope (r1 r2 : ProtobufReader) (problem : Problem)
  (param_map : OrderedDict ActionParameter) :
  same_scope r1 r2 ->
  forall msg, _convert_expression r1 msg problem param_map
              = _convert_expression r2 msg problem param_map.
Proof.
  intros H. induction msg as [atom list type kind IH] using Expression_induction.
  rewrite !convert_expression_unfold, (atom_same_scope r1 r2 atom problem H).
  assert (E : forall args, convert_args r1 list problem param_map args
                           = convert_args r2 list problem param_map args).
  { induction IH as [|c l Hc _ IHl]; intros args; [reflexivity|].
    cbn [convert_args]. rewrite Hc.
    destruct (_convert_expression r2 c problem param_map); [|reflexivity].
    apply IHl. }
  now rewrite E.
Qed.

Lemma effect_same_scope (r1 r2 : ProtobufReader) (msg : pb2.EffectExpression)
  (problem : Problem) (param_map : OrderedDict ActionParameter) :
  same_scope r1 r2 ->
  _convert_effect r1 msg problem param_map = _convert_effect r2 msg problem param_map.
Proof.
  intros H. unfold _convert_effect.
  destruct (pb2.e_condition msg);
    now rewrite !(expression_same_scope r1 r2 problem param_map H).
Qed.

End ExpressionFacts.

(** ** Claims on atoms and expressions *)

Lemma has_lookup {A : Type} (key : A -> string) (l : list A) (n : string) :
  has key l n = true -> exists a, lookup key l n = Ok a /\ key a = n.
Proof.
  unfold has, lookup. induction l as [|x l IH]; simpl; [discriminate|].
  destruct (String.eqb_spec (key x) n) as [E|_]; [eauto|]. exact IH.
Qed.

Lemma not_has_lookup {A : Type} (key : A -> string) (l : list A) (n : string) :
  has key l n = false -> lookup key l n = Raise UPValueError.
Proof.
  unfold has, lookup. induction l as [|x l IH]; simpl; [reflexivity|].
  destruct (String.eqb (key x) n); [discriminate|]. exact IH.
Qed.

(** A symbol nobody declares ends in the fluent lookup, which raises. *)
Lemma unknown_symbol_raises (self : ProtobufReader) (problem : Problem)
  (sym : string) :
  has_object problem sym = false ->
  has_fluent problem sym = false ->
  (forall act, current_action self = Some act -> parameter act sym = Raise KeyError) ->
  _convert_atom self (pb2.symbol sym) problem = Raise UPValueError.
Proof.
  intros Ho Hf Hp. unfold _convert_atom. rewrite Ho.
  unfold fluent_named. rewrite (not_has_lookup f_name (fluents problem) sym Hf).
  destruct (current_action self) as [act|]; [|reflexivity].
  now rewrite (Hp act eq_refl).
Qed.

(** C3: a symbol that names an object of the problem resolves to that
    object, whatever the current action of the reader and its parameters
    are; a symbol that names no object and names a parameter of the current
    action resolves to the parameter; any other symbol is looked up among
    the fluents of the problem. *)
Theorem C3_atom_resolution_order (self : ProtobufReader) (problem : Problem)
  (sym : string) :
  (has_object problem sym = true ->
   exists o, object problem sym = Ok o /\ o_name o = sym
             /\ _convert_atom self (pb2.symbol sym) problem = Ok (VObject o))
  /\ (has_object problem sym = false ->
      forall act p, current_action self = Some act -> parameter act sym = Ok p ->
                    _convert_atom self (pb2.symbol sym) problem = Ok (ParameterExp p))
  /\ (has_object problem sym = false ->
      (current_action self = None
       \/ exists act, current_action self = Some act
                      /\ parameter act sym = Raise KeyError) ->
      _convert_atom self (pb2.symbol sym) problem
      = let* f := fluent_named problem sym in Ok (VFluent f)).
Proof.
  repeat split.
  - intros H. destruct (has_lookup o_name (objects problem) sym H) as (o & Ho & Hn).
    exists o. repeat split; try assumption.
    unfold _convert_atom. rewrite H. unfold object. now rewrite Ho.
  - intros H act p Ha Hp. unfold _convert_atom. now rewrite H, Ha, Hp.
  - intros H [Hn|(act & Ha & Hp)]; unfold _convert_atom; rewrite H.
    + now rewrite Hn.
    + now rewrite Ha, Hp.
Qed.

(** The symbol [r1] names an object of the sample problem and a parameter of
    the current action: the object wins. *)
Lemma C3_witness :
  has_object sample_problem "r1" = true
  /\ parameter move_action "r1" = Ok (mkActionParameter "r1" robot)
  /\ exists o, object sample_problem "r1" = Ok o /\ o_name o = "r1"
               /\ _convert_atom (mkReader (Some move_action)) (pb2.symbol "r1")
                                sample_problem
                  = Ok (VObject o).
Proof.
  split; [reflexivity|]. split; [reflexivity|].
  apply (C3_atom_resolution_order (mkReader (Some move_action)) sample_problem "r1").
  reflexivity.
Defined.

(** C10: an atom with no content converts to [None] without an exception;
    every node the expression handler builds from the converted atom (every
    kind but [PARAMETER], which reads the symbol of the message itself) then
    has [None] as its payload, and the handler does build such a node for a
    constant of type [bool], [int] or [real] and for a state variable when
    the children convert. *)
Theorem C10_empty_atom_converts_to_None (self : ProtobufReader) (problem : Problem) :
  _convert_atom self pb2.no_content problem = Ok VNone
  /\ (forall list type kind param_map node_type args payload,
         kind <> pb2.PARAMETER ->
         _convert_expression self (pb2.mkExpression pb2.no_content list type kind)
                             problem param_map
         = Ok (FNode node_type args payload) ->
         payload = VNone)
  /\ (forall list type kind param_map,
         Forall (fun c => returns (_convert_expression self c problem param_map)) list ->
         (kind = pb2.CONSTANT /\ (type = "bool" \/ type = "int" \/ type = "real"))
         \/ kind = pb2.STATE_VARIABLE ->
         exists node_type args,
           _convert_expression self (pb2.mkExpression pb2.no_content list type kind)
                               problem param_map
           = Ok (FNode node_type args VNone)).
Proof.
  split; [reflexivity|]. split.
  - intros list type kind param_map node_type args payload Hk.
    rewrite convert_expression_unfold. cbn [_convert_atom bind].
    destruct (convert_args self list problem param_map []) as [a|e]; [|discriminate].
    cbn [bind]. destruct kind; cbn [expression_node create_node];
      try discriminate; try contradiction.
    + destruct (type =? "bool")%string; [intros [= _ _ <-]; reflexivity|].
      destruct (type =? "int")%string; [intros [= _ _ <-]; reflexivity|].
      destruct (type =? "real")%string; [intros [= _ _ <-]; reflexivity|discriminate].
    + destruct (assert _); [|discriminate]. cbn [bind]. intros [= _ _ <-]. reflexivity.
    + intros [= _ _ <-]. reflexivity.
  - intros list type kind param_map Hl Hk.
    rewrite convert_expression_unfold. cbn [_convert_atom bind].
    destruct (convert_args_returns self list problem param_map [] Hl) as [a ->].
    cbn [bind].
    destruct Hk as [[-> [-> | [-> | ->]]] | ->]; cbn; eauto.
Qed.

(** A boolean constant and a state variable without atom content: nodes
    with [None] as payload. *)
Lemma C10_witness :
  _convert_expression new_reader
    (pb2.mkExpression pb2.no_content [] "bool" pb2.CONSTANT) sample_problem []
  = Ok (FNode BOOL_CONSTANT [] VNone)
  /\ _convert_expression new_reader
       (pb2.mkExpression pb2.no_content [] "" pb2.STATE_VARIABLE) sample_problem []
     = Ok (FNode OBJECT_EXP [] VNone).
Proof.
  pose proof (C10_empty_atom_converts_to_None new_reader sample_problem)
    as (_ & Hpayload & Hnode).
  split.
  - destruct (Hnode [] "bool" pb2.CONSTANT [] (Forall_nil _)
                (or_introl (conj eq_refl (or_introl eq_refl)))) as (t & a & E).
    rewrite E. vm_compute in E. injection E as <- <-. reflexivity.
  - destruct (Hnode [] "" pb2.STATE_VARIABLE [] (Forall_nil _) (or_intror eq_refl))
      as (t & a & E).
    rewrite E. vm_compute in E. injection E as <- <-. reflexivity.
Defined.

(** A node of kind [FUNCTION_SYMBOL] or [FUNCTION_APPLICATION] whose atom
    and children convert without an exception converts to [None]. *)
Lemma unsupported_kinds_convert_to_None (self : ProtobufReader)
  (atom : pb2.Atom) (list : list pb2.Expression) (type : string)
  (kind : pb2.ExpressionKind) (problem : Problem)
  (param_map : OrderedDict ActionParameter) :
  kind = pb2.FUNCTION_SYMBOL \/ kind = pb2.FUNCTION_APPLICATION ->
  returns (_convert_atom self atom problem) ->
  Forall (fun c => returns (_convert_expression self c problem param_map)) list ->
  _convert_expression self (pb2.mkExpression atom list type kind) problem param_map
  = Ok VNone.
Proof.
  intros Hk [payload Ha] Hl. rewrite convert_expression_unfold, Ha. cbn [bind].
  destruct (convert_args_returns self list problem param_map [] Hl) as [a ->].
  destruct Hk as [-> | ->]; reflexivity.
Qed.

(** C8, as the code has it: a node of kind [FUNCTION_SYMBOL] or
    [FUNCTION_APPLICATION] whose symbol names no object of the problem, no
    parameter of the current action and no fluent does not convert to
    [None]: the atom is converted before the kind is read, and the fluent
    lookup it ends in raises, whatever the children and the declared type.
    The bare [return] of the two kinds is never reached. *)
Theorem C8_function_symbol_raises_before_the_kind_is_read (self : ProtobufReader)
  (sym : string) (list : list pb2.Expression) (type : string)
  (kind : pb2.ExpressionKind) (problem : Problem)
  (param_map : OrderedDict ActionParameter) :
  kind = pb2.FUNCTION_SYMBOL \/ kind = pb2.FUNCTION_APPLICATION ->
  has_object problem sym = false ->
  has_fluent problem sym = false ->
  (forall act, current_action self = Some act -> parameter act sym = Raise KeyError) ->
  _convert_expression self (pb2.mkExpression (pb2.symbol sym) list type kind)
                      problem param_map
  = Raise UPValueError.
Proof.
  intros _ Ho Hf Hp. rewrite convert_expression_unfold.
  now rewrite (unknown_symbol_raises self problem sym Ho Hf Hp).
Qed.

(** The function symbol [plus] over two constants, of either kind, on a
    fresh reader and on a reader that holds the action [move]. *)
Lemma C8_witness :
  _convert_expression new_reader
    (pb2.mkExpression (pb2.symbol "plus") [int_constant 1; int_constant 2] ""
                      pb2.FUNCTION_SYMBOL)
    sample_problem []
  = Raise UPValueError
  /\ _convert_expression (mkReader (Some move_action))
       (pb2.mkExpression (pb2.symbol "plus") [int_constant 1; int_constant 2] ""
                         pb2.FUNCTION_APPLICATION)
       sample_problem []
     = Raise UPValueError.
Proof.
  split.
  - apply (C8_function_symbol_raises_before_the_kind_is_read new_reader "plus");
      [left; reflexivity|reflexivity|reflexivity|].
    intros act H. discriminate H.
  - apply (C8_function_symbol_raises_before_the_kind_is_read
             (mkReader (Some move_action)) "plus");
      [right; reflexivity|reflexivity|reflexivity|].
    intros act [= <-]. reflexivity.
Defined.

(** ** Actions *)

Section ActionFacts.

Variable Sub : Type.
Variable convert_sub : ProtobufReader -> Sub -> Problem -> Result Value.
Variable methods : ActionClass -> string -> bool.

Lemma same_header_refl (a : Action) : same_header a a.
Proof. repeat split. Qed.

Lemma same_header_trans (a b c : Action) :
  same_header a b -> same_header b c -> same_header a c.
Proof. unfold same_header. intuition congruence. Qed.

Lemma same_header_scope (a b : Action) :
  same_header a b -> same_scope (mkReader (Some b)) (mkReader (Some a)).
Proof. intros (_ & _ & H & _). unfold same_scope. simpl. now rewrite H. Qed.

(** An attachment that does not raise went through the timed method when
    the action object has it, through the plain one otherwise. *)
Lemma attach_condition_spec (action : Action) (cond : pb2.Condition) (exp : Value)
  (action' : Action) :
  attach_condition methods action cond exp = Ok action' ->
  same_header action action'
  /\ a_effects action' = a_effects action
  /\ a_cost action' = a_cost action
  /\ a_conditions action'
     = (a_conditions action
        ++ [condition_entry methods (a_class action) cond exp])%list.
Proof.
  unfold attach_condition, call_method, condition_entry.
  destruct (methods (a_class action) "add_condition");
    cbn [try_except_AttributeError].
  - intros [= <-]. repeat split.
  - destruct (methods (a_class action) "add_precondition"); [|discriminate].
    intros [= <-]. repeat split.
Qed.

Lemma attach_effect_spec (action : Action) (eff : pb2.Effect) (exp : Effect)
  (action' : Action) :
  attach_effect methods action eff exp = Ok action' ->
  same_header action action'
  /\ a_conditions action' = a_conditions action
  /\ a_cost action' = a_cost action
  /\ a_effects action'
     = (a_effects action ++ [effect_entry methods (a_class action) eff exp])%list.
Proof.
  unfold attach_effect, call_method, effect_entry.
  destruct (methods (a_class action) "add_timed_effect");
    cbn [try_except_AttributeError].
  - intros [= <-]. repeat split.
  - destruct (methods (a_class action) "add_effect"); [|discriminate].
    intros [= <-]. repeat split.
Qed.

(** An attachment raises only when the action object has neither the timed
    nor the plain method. *)
Lemma attach_effect_total (action : Action) (eff : pb2.Effect) (exp : Effect) :
  methods (a_class action) "add_timed_effect"
  || methods (a_class action) "add_effect" = true ->
  returns (attach_effect methods action eff exp).
Proof.
  unfold attach_effect, call_method.
  destruct (methods (a_class action) "add_timed_effect");
    cbn [try_except_AttributeError orb]; [now eexists|].
  intros ->. now eexists.
Qed.

Lemma conditions_loop_frame (conds : list pb2.Condition) (problem : Problem)
  (parameters : OrderedDict ActionParameter) (action : Action)
  (r : Result unit) (action' : Action) :
  conditions_loop methods conds problem parameters action = (r, action') ->
  same_header action action'
  /\ a_effects action' = a_effects action
  /\ a_cost action' = a_cost action.
Proof.
  revert action. induction conds as [|cond conds IH]; intros action; cbn [conditions_loop].
  - intros [= _ <-]. repeat split.
  - destruct (_convert_expression _ _ _ _) as [exp|e].
    2:{ intros [= _ <-]. repeat split. }
    destruct (is_None exp); [apply IH|].
    destruct (attach_condition methods action cond exp) as [a1|e] eqn:Ea.
    2:{ intros [= _ <-]. repeat split. }
    destruct (attach_condition_spec _ _ _ _ Ea) as (Hh & He & Hc & _).
    intros H. destruct (IH _ H) as (Hh' & He' & Hc').
    split; [exact (same_header_trans _ _ _ Hh Hh')|]. split; congruence.
Qed.

Lemma kept_effects_same_scope (c : ActionClass) (r1 r2 : ProtobufReader)
  (effs : list pb2.Effect) (problem : Problem)
  (parameters : OrderedDict ActionParameter) :
  same_scope r1 r2 ->
  kept_effects methods c r1 effs problem parameters
  = kept_effects methods c r2 effs problem parameters.
Proof.
  intros H. induction effs as [|eff effs IH]; [reflexivity|].
  cbn [kept_effects]. now rewrite IH, (effect_same_scope r1 r2 _ problem parameters H).
Qed.

Lemma resolved_skip (exp : Effect) :
  resolved exp = negb (is_None (fluent exp) || is_None (value exp)).
Proof. unfold resolved. now rewrite negb_orb. Qed.

(** The loop over the effects keeps exactly the resolved ones. *)
Lemma effects_loop_spec (effs : list pb2.Effect) (problem : Problem)
  (parameters : OrderedDict ActionParameter) (action : Action)
  (r : Result unit) (action' : Action) :
  effects_loop methods effs problem parameters action = (r, action') ->
  same_header action action'
  /\ a_conditions action' = a_conditions action
  /\ a_cost action' = a_cost action
  /\ (r = Ok tt ->
      a_effects action'
      = (a_effects action
         ++ kept_effects methods (a_class action) (mkReader (Some action))
              effs problem parameters)%list).
Proof.
  revert action. induction effs as [|eff effs IH]; intros action;
    cbn [effects_loop kept_effects].
  - intros [= _ <-]. repeat split. intros _. now rewrite List.app_nil_r.
  - destruct (_convert_effect _ _ _ _) as [exp|e].
    2:{ intros [= <- <-]. repeat split. discriminate. }
    rewrite resolved_skip.
    destruct (is_None (fluent exp) || is_None (value exp)); cbn [negb].
    + apply IH.
    + destruct (attach_effect methods action eff exp) as [a1|e] eqn:Ea.
      2:{ intros [= <- <-]. repeat split. discriminate. }
      destruct (attach_effect_spec _ _ _ _ Ea) as (Hh & Hc & Hk & He).
      intros H. destruct (IH _ H) as (Hh' & Hc' & Hk' & He').
      split; [exact (same_header_trans _ _ _ Hh Hh')|].
      split; [congruence|]. split; [congruence|].
      intros Hr. rewrite (He' Hr), He, <- List.app_assoc.
      destruct Hh as (Hcl & Hrest). rewrite Hcl.
      now rewrite (kept_effects_same_scope (a_class action) _ _ effs problem parameters
                     (same_header_scope _ _ (conj Hcl Hrest))).
Qed.

(** The loop runs to its end when every effect message converts and the
    action object has one of the two methods that take an effect. *)
Lemma effects_loop_total (effs : list pb2.Effect) (problem : Problem)
  (parameters : OrderedDict ActionParameter) (action : Action) :
  methods (a_class action) "add_timed_effect"
  || methods (a_class action) "add_effect" = true ->
  Forall (fun eff => returns (_convert_effect (mkReader (Some action))
                                (pb2.effect eff) problem parameters)) effs ->
  exists action',
    effects_loop methods effs problem parameters action = (Ok tt, action').
Proof.
  intros Hm H. revert action Hm H.
  induction effs as [|eff effs IH]; intros action Hm H; cbn [effects_loop]; [eauto|].
  inversion H as [|? ? [exp He] Hrest]; subst. rewrite He.
  destruct (is_None (fluent exp) || is_None (value exp)); [now apply IH|].
  destruct (attach_effect_total action eff exp Hm) as [a1 Ea]. rewrite Ea.
  destruct (attach_effect_spec _ _ _ _ Ea) as (Hh & _).
  apply IH.
  - destruct Hh as (-> & _). exact Hm.
  - revert Hrest. apply Forall_impl. intros e.
    now rewrite (effect_same_scope _ _ (pb2.effect e) problem parameters
                   (same_header_scope _ _ Hh)).
Qed.

(** What a call of [_convert_action] that returns went through. *)
Lemma convert_action_returns (self : ProtobufReader) (msg : pb2.Action Sub)
  (problem : Problem) (a : Action) (self' : ProtobufReader) :
  _convert_action convert_sub methods self msg problem = (Ok a, self') ->
  exists a0 a1 a2,
    new_action convert_sub self msg problem = Ok a0
    /\ conditions_loop methods (pb2.a_conditions msg) problem (a_parameters a0) a0
       = (Ok tt, a1)
    /\ effects_loop methods (pb2.a_effects msg) problem (a_parameters a0) a1 = (Ok tt, a2)
    /\ (pb2.a_cost msg = None /\ a = a2
        \/ exists c v, pb2.a_cost msg = Some c
                       /\ convert_sub (mkReader (Some a2)) c problem = Ok v
                       /\ a = set_cost a2 v)
    /\ self' = mkReader (Some a).
Proof.
  unfold _convert_action.
  destruct (new_action convert_sub self msg problem) as [a0|e]; [|discriminate].
  destruct (conditions_loop methods _ _ _ a0) as [[[]|e] a1] eqn:E1; [|discriminate].
  destruct (effects_loop methods _ _ _ a1) as [[[]|e] a2] eqn:E2; [|discriminate].
  destruct (pb2.a_cost msg) as [c|].
  - destruct (convert_sub (mkReader (Some a2)) c problem) as [v|e] eqn:Ev; [|discriminate].
    intros [= <- <-]. exists a0, a1, a2.
    split; [reflexivity|]. do 2 (split; [assumption|]).
    split; [|reflexivity]. right. eauto.
  - intros [= <- <-]. exists a0, a1, a2.
    split; [reflexivity|]. do 2 (split; [assumption|]).
    split; [|reflexivity]. left. split; reflexivity.
Qed.

Lemma new_action_spec (self : ProtobufReader) (msg : pb2.Action Sub)
  (problem : Problem) (a0 : Action) :
  new_action convert_sub self msg problem = Ok a0 ->
  a_effects a0 = [] /\ a_conditions a0 = []
  /\ match pb2.a_duration msg with
     | Some d => a_class a0 = Durative
                 /\ exists c, convert_sub self d problem = Ok c /\ a_duration a0 = Some c
     | None => a_class a0 = Instantaneous /\ a_duration a0 = None
     end.
Proof.
  unfold new_action.
  destruct (action_parameters _ _ _) as [ps|e]; [|discriminate]. cbn [bind].
  destruct (pb2.a_duration msg) as [d|].
  - destruct (convert_sub self d problem) as [c|e]; [|discriminate].
    intros [= <-]. repeat split. eauto.
  - intros [= <-]. repeat split.
Qed.

(** The header and the effects of a returned action, from its parts. *)
Lemma convert_action_parts (self : ProtobufReader) (msg : pb2.Action Sub)
  (problem : Problem) (a : Action) (self' : ProtobufReader) :
  _convert_action convert_sub methods self msg problem = (Ok a, self') ->
  exists a0,
    new_action convert_sub self msg problem = Ok a0
    /\ same_header a0 a
    /\ a_effects a
       = kept_effects methods (a_class a) (mkReader (Some a)) (pb2.a_effects msg)
           problem (a_parameters a)
    /\ self' = mkReader (Some a).
Proof.
  intros H.
  destruct (convert_action_returns _ _ _ _ _ H) as (a0 & a1 & a2 & H0 & H1 & H2 & Hc & Hs).
  destruct (new_action_spec _ _ _ _ H0) as (He0 & _ & _).
  destruct (conditions_loop_frame _ _ _ _ _ _ H1) as (Hh1 & He1 & _).
  destruct (effects_loop_spec _ _ _ _ _ _ H2) as (Hh2 & _ & _ & He2).
  pose proof (same_header_trans _ _ _ Hh1 Hh2) as Hh.
  assert (Ha : same_header a2 a /\ a_effects a = a_effects a2).
  { destruct Hc as [[_ ->]|(c & v & _ & _ & ->)];
      (split; [repeat split|reflexivity]). }
  destruct Ha as [Ha Hea].
  exists a0. split; [assumption|]. split; [exact (same_header_trans _ _ _ Hh Ha)|].
  split; [|assumption].
  rewrite Hea, (He2 eq_refl), He1, He0. cbn [app].
  pose proof (same_header_trans _ _ _ Hh2 Ha) as Hh1a.
  destruct Hh1a as (Hcl & Hrest). rewrite Hcl.
  destruct (same_header_trans _ _ _ Hh Ha) as (_ & _ & -> & _).
  now rewrite (kept_effects_same_scope (a_class a1) _ _ (pb2.a_effects msg) problem
                 (a_parameters a0) (same_header_scope _ _ (conj Hcl Hrest))).
Qed.

End ActionFacts.

(** ** Claims on actions *)

Section ActionClaims.

Variable Sub : Type.
Variable convert_sub : ProtobufReader -> Sub -> Problem -> Result Value.
Variable methods : ActionClass -> string -> bool.

(** C2, amended: when the conversion of an action returns, the current
    action of the reader is the action just returned.  The handler assigns
    [current_action] once and never clears it, so the scope stays in effect
    for the conversions that follow, until the conversion of another action
    replaces it: a later symbol that names no object and names a parameter
    of that action resolves to the parameter. *)
Theorem C2_current_action_is_retained (self : ProtobufReader)
  (msg : pb2.Action Sub) (problem : Problem) (a : Action) (self' : ProtobufReader) :
  _convert_action convert_sub methods self msg problem = (Ok a, self') ->
  current_action self' = Some a
  /\ forall (later : Problem) (sym : string) (p : ActionParameter),
      has_object later sym = false ->
      parameter a sym = Ok p ->
      _convert_atom self' (pb2.symbol sym) later = Ok (ParameterExp p).
Proof.
  intros H. destruct (convert_action_parts _ _ _ _ _ _ _ _ H) as (_ & _ & _ & _ & ->).
  split; [reflexivity|]. intros later sym p Ho Hp.
  unfold _convert_atom. cbn [current_action]. now rewrite Ho, Hp.
Qed.

(** C5: the action a conversion returns is durative exactly when the
    message has a duration, and its duration constraint is then what the
    conversion of the duration gave; without a duration it is
    instantaneous and has no duration constraint. *)
Theorem C5_durative_iff_duration_present (self : ProtobufReader)
  (msg : pb2.Action Sub) (problem : Problem) (a : Action) (self' : ProtobufReader) :
  _convert_action convert_sub methods self msg problem = (Ok a, self') ->
  match pb2.a_duration msg with
  | Some d =>
      a_class a = Durative
      /\ exists c, convert_sub self d problem = Ok c /\ a_duration a = Some c
  | None => a_class a = Instantaneous /\ a_duration a = None
  end.
Proof.
  intros H.
  destruct (convert_action_parts _ _ _ _ _ _ _ _ H) as (a0 & H0 & (Hc & _ & _ & Hd) & _).
  destruct (new_action_spec _ _ _ _ _ _ H0) as (_ & _ & Hs).
  destruct (pb2.a_duration msg) as [d|].
  - destruct Hs as (Hk & c & Hconv & Hdur). split; [congruence|].
    exists c. split; congruence.
  - destruct Hs as (Hk & Hdur). split; congruence.
Qed.

(** C4: the effects of the action a conversion returns are the entries of
    exactly those effect messages whose rebuilt effect has both a fluent
    and a value, in the order of the messages; an effect that lacks one is
    passed over and the loop goes on: it runs to its end whenever every
    effect message converts and the action object has a method that takes
    an effect.  An entry is timed when the object has [add_timed_effect]
    and plain when the reader falls back on [add_effect]. *)
Theorem C4_effects_attached_iff_resolved (self : ProtobufReader)
  (msg : pb2.Action Sub) (problem : Problem) :
  (forall a self',
      _convert_action convert_sub methods self msg problem = (Ok a, self') ->
      a_effects a
      = kept_effects methods (a_class a) (mkReader (Some a)) (pb2.a_effects msg)
          problem (a_parameters a))
  /\ (forall effs parameters action,
         methods (a_class action) "add_timed_effect"
         || methods (a_class action) "add_effect" = true ->
         Forall (fun eff => returns (_convert_effect (mkReader (Some action))
                                       (pb2.effect eff) problem parameters)) effs ->
         exists action',
           effects_loop methods effs problem parameters action = (Ok tt, action')
           /\ a_effects action'
              = (a_effects action
                 ++ kept_effects methods (a_class action) (mkReader (Some action))
                      effs problem parameters)%list).
Proof.
  split.
  - intros a self' H.
    now destruct (convert_action_parts _ _ _ _ _ _ _ _ H) as (_ & _ & _ & He & _).
  - intros effs parameters action Hm H.
    destruct (effects_loop_total _ effs problem parameters action Hm H) as [action' E].
    exists action'. split; [assumption|].
    destruct (effects_loop_spec _ _ _ _ _ _ _ E) as (_ & _ & _ & He).
    exact (He eq_refl).
Qed.

End ActionClaims.

(** C2, refuted as stated: after the sample action [move] is converted on a
    fresh reader, the current action of the reader is that action; the
    symbol [d], which a fresh reader resolves to the fluent [d], now
    resolves to the parameter [d] of [move]. *)
Lemma C2_counterexample :
  exists a self',
    _convert_action _convert_atom sample_methods
          new_reader move_message sample_problem = (Ok a, self')
    /\ current_action self' = Some a
    /\ _convert_atom new_reader (pb2.symbol "d") sample_problem
       = Ok (VFluent (mkFluent "d" (IntType None None) []))
    /\ _convert_atom self' (pb2.symbol "d") sample_problem
       = Ok (ParameterExp (mkActionParameter "d" robot)).
Proof. eexists. eexists. repeat split; reflexivity. Qed.

Lemma C2_witness :
  match _convert_action _convert_atom sample_methods
        new_reader move_message sample_problem with
  | (Ok a, self') => current_action self' = Some a
  | (Raise _, _) => False
  end.
Proof.
  destruct (_convert_action _convert_atom sample_methods
        new_reader move_message sample_problem)
    as [[a|e] self'] eqn:H; [|vm_compute in H; discriminate H].
  exact (proj1 (C2_current_action_is_retained _ _ _ _ _ _ _ _ H)).
Defined.

Lemma C5_witness :
  match _convert_action _convert_atom sample_methods
        new_reader timed_move_message sample_problem with
  | (Ok a, _) => a_class a = Durative /\ a_duration a = Some (Int 5)
  | (Raise _, _) => False
  end
  /\ match _convert_action _convert_atom sample_methods
        new_reader move_message sample_problem with
     | (Ok a, _) => a_class a = Instantaneous /\ a_duration a = None
     | (Raise _, _) => False
     end.
Proof.
  split.
  - destruct (_convert_action _convert_atom sample_methods
        new_reader timed_move_message sample_problem)
      as [[a|e] self'] eqn:H; [|vm_compute in H; discriminate H].
    pose proof (C5_durative_iff_duration_present _ _ _ _ _ _ _ _ H) as (Hk & c & Hc & Hd).
    split; [exact Hk|]. injection Hc as <-. exact Hd.
  - destruct (_convert_action _convert_atom sample_methods
        new_reader move_message sample_problem)
      as [[a|e] self'] eqn:H; [|vm_compute in H; discriminate H].
    exact (C5_durative_iff_duration_present _ _ _ _ _ _ _ _ H).
Defined.

(** Of the two effects of the sample action, the one whose value is an
    unsupported function symbol is passed over and the other is attached,
    as a plain effect: the action is instantaneous and, in the sample
    library, has no method for timed effects.  The effect of the durative
    sample action is attached with its occurrence time. *)
Lemma C4_witness :
  List.length (pb2.a_effects move_message) = 2%nat
  /\ match _convert_action _convert_atom sample_methods
             new_reader move_message sample_problem with
     | (Ok a, _) =>
         a_effects a
         = [(None,
             FNode FLUENT_EXP [] (VFluent (mkFluent "at" BoolType [robot])),
             FNode INT_CONSTANT [] (Int 1))]
     | (Raise _, _) => False
     end
  /\ match _convert_action _convert_atom sample_methods
             new_reader timed_stay_message sample_problem with
     | (Ok a, _) =>
         a_effects a
         = [(Some (_convert_timing at_start),
             FNode FLUENT_EXP [] (VFluent (mkFluent "at" BoolType [robot])),
             FNode INT_CONSTANT [] (Int 1))]
     | (Raise _, _) => False
     end.
Proof.
  split; [reflexivity|]. split.
  - destruct (_convert_action _convert_atom sample_methods
                new_reader move_message sample_problem)
      as [[a|e] self'] eqn:H; [|vm_compute in H; discriminate H].
    pose proof (proj1 (C4_effects_attached_iff_resolved _ _ _ _ _ _) _ _ H) as Hk.
    vm_compute in H. injection H as <- <-. exact Hk.
  - destruct (_convert_action _convert_atom sample_methods
                new_reader timed_stay_message sample_problem)
      as [[a|e] self'] eqn:H; [|vm_compute in H; discriminate H].
    pose proof (proj1 (C4_effects_attached_iff_resolved _ _ _ _ _ _) _ _ H) as Hk.
    vm_compute in H. injection H as <- <-. exact Hk.
Defined.

(** ** Converting a message twice *)

Section Repeatability.

Variable Sub : Type.
Variable convert_sub : ProtobufReader -> Sub -> Problem -> Result Value.
Variable methods : ActionClass -> string -> bool.

(** The duration is the one sub-message converted before the handler
    assigns [current_action]: without it the reader is not read. *)
Lemma new_action_scope (self self' : ProtobufReader) (m : pb2.Action Sub)
  (problem : Problem) :
  pb2.a_duration m = None ->
  new_action convert_sub self m problem = new_action convert_sub self' m problem.
Proof. intros H. unfold new_action. now rewrite H. Qed.

(** Two readers convert an action without duration alike: both stop before
    the assignment with the same exception, or both give the same result
    and end as the same reader. *)
Lemma convert_action_scope (self self' : ProtobufReader) (m : pb2.Action Sub)
  (problem : Problem) :
  pb2.a_duration m = None ->
  (exists e, _convert_action convert_sub methods self m problem = (Raise e, self)
             /\ _convert_action convert_sub methods self' m problem = (Raise e, self'))
  \/ _convert_action convert_sub methods self m problem
     = _convert_action convert_sub methods self' m problem.
Proof.
  intros H. unfold _convert_action.
  rewrite (new_action_scope self self' m problem H).
  destruct (new_action convert_sub self' m problem); [right; reflexivity|left; eauto].
Qed.

Lemma actions_loop_scope (self self' : ProtobufReader) (f : pb2.Action Sub)
  (l : list (pb2.Action Sub)) (problem P : Problem) :
  pb2.a_duration f = None ->
  fst (actions_loop convert_sub methods self (f :: l) problem P)
  = fst (actions_loop convert_sub methods self' (f :: l) problem P)
  /\ (returns (fst (actions_loop convert_sub methods self (f :: l) problem P)) ->
      snd (actions_loop convert_sub methods self (f :: l) problem P)
      = snd (actions_loop convert_sub methods self' (f :: l) problem P)).
Proof.
  intros Hf. cbn [actions_loop].
  destruct (convert_action_scope self self' f problem Hf) as [(e & -> & ->)| ->].
  - split; [reflexivity|]. intros [x Hx]. discriminate Hx.
  - split; reflexivity.
Qed.

Lemma convert_problem_repeat (self : ProtobufReader) (m : pb2.Problem Sub)
  (problem : Problem) :
  first_duration (MProblem m) = None ->
  fst (_convert_problem convert_sub methods
         (snd (_convert_problem convert_sub methods self m problem)) m problem)
  = fst (_convert_problem convert_sub methods self m problem).
Proof.
  cbn [first_duration]. intros Hl. unfold _convert_problem.
  destruct (let* P := objects_loop (pb2.objects m) problem
                        (new_Problem (pb2.problem_name m) (env problem)) in
            fluents_loop (pb2.fluents m) problem P) as [P1|e]; [|reflexivity].
  destruct (pb2.actions m) as [|f l] eqn:El; [reflexivity|].
  destruct (actions_loop convert_sub methods self (f :: l) problem P1)
    as [[P2|e] s1] eqn:E1; cbn [snd].
  - destruct (actions_loop_scope self s1 f l problem P1 Hl) as [Hf Hs].
    rewrite E1 in Hf, Hs. cbn [fst snd] in Hf, Hs.
    destruct (actions_loop convert_sub methods s1 (f :: l) problem P1) as [r2 s2].
    cbn [fst snd] in Hf, Hs. subst r2. rewrite <- (Hs (ex_intro _ P2 eq_refl)).
    reflexivity.
  - destruct (actions_loop_scope self s1 f l problem P1 Hl) as [Hf _].
    rewrite E1 in Hf. cbn [fst] in Hf.
    destruct (actions_loop convert_sub methods s1 (f :: l) problem P1) as [r2 s2].
    cbn [fst] in Hf. subst r2. reflexivity.
Qed.


End Repeatability.



(** * Further properties of the reader *)

(** ** Type declarations *)

Lemma bracket_items_single (pre x : string) :
  free_of "[" pre = true -> plain x = true ->
  bracket_items (pre ++ "[" ++ x ++ "]") = Ok [x].
Proof.
  unfold plain. intros Hpre Hx.
  apply andb_true_iff in Hx as [Hx Hx3]. apply andb_true_iff in Hx as [Hx1 Hx2].
  unfold bracket_items.
  rewrite (split_two "[" "" pre (x ++ "]") Hpre).
  2:{ rewrite free_of_app, Hx1. reflexivity. }
  cbn [PyStr.index nth_error bind].
  replace (x ++ "]") with (x ++ "]" ++ "") by reflexivity.
  rewrite (split_first "]" "" x "" Hx2). cbn [bind].
  unfold PyStr.split. now rewrite (split_go_free "," " " "" x Hx3).
Qed.

(** X1: with a finite lower bound the item after the comma is never parsed: any
    text free of brackets and commas may stand there.  After an infinite
    lower bound it is parsed, and what [int] raises on it is raised. *)
Theorem integer_upper_item_is_parsed_only_after_infinite_lower :
  (forall (lo : Z) (hi parent : string),
      plain hi = true ->
      _convert_type_declaration
        (mkTypeDeclaration (integer_descriptor (decimal lo) hi) parent)
      = Ok (IntType (Some lo) None))
  /\ (forall (hi parent : string) (e : Exn),
         plain hi = true -> (hi =? "inf")%string = false ->
         PyNum.int hi = Raise e ->
         _convert_type_declaration
           (mkTypeDeclaration (integer_descriptor "-inf" hi) parent)
         = Raise e).
Proof.
  split.
  - intros lo hi parent Hhi.
    rewrite integer_declaration by (assumption || apply numeric_plain, decimal_numeric).
    rewrite bounds_finite_lower by apply numeric_not_inf, decimal_numeric.
    now rewrite int_decimal.
  - intros hi parent e Hhi Hinf He.
    rewrite integer_declaration by (assumption || reflexivity).
    rewrite bounds_infinite_lower by assumption.
    now rewrite He.
Qed.

Lemma integer_upper_item_witness :
  _convert_type_declaration (mkTypeDeclaration (integer_descriptor (decimal 3) "many") "")
  = Ok (IntType (Some 3) None)
  /\ _convert_type_declaration (mkTypeDeclaration (integer_descriptor "-inf" "many") "")
     = Raise ValueError.
Proof.
  split.
  - apply (proj1 integer_upper_item_is_parsed_only_after_infinite_lower 3 "many" "").
    reflexivity.
  - apply (proj2 integer_upper_item_is_parsed_only_after_infinite_lower "many" "" ValueError);
      reflexivity.
Defined.


(** X5: a type name that contains [real] and no opening bracket makes
    [convert_type_str] fail with an [IndexError]: the test is [in], not a
    test on the form of the string. *)
Theorem name_containing_real_is_an_index_error (s : string) :
  s <> "bool" -> s <> "int" -> s <> "float" ->
  PyStr.contains "real" s = true -> free_of "[" s = true ->
  convert_type_str s = Raise IndexError.
Proof.
  intros Hb Hi Hf Hr Hfree. unfold convert_type_str. rewrite Hr.
  destruct (String.eqb_spec s "bool") as [E|_]; [contradiction|].
  destruct (String.eqb_spec s "int") as [E|_]; [contradiction|].
  destruct (String.eqb_spec s "float") as [E|_]; [contradiction|].
  unfold PyStr.split. now rewrite (split_go_free "[" "" "" s Hfree).
Qed.

Lemma name_containing_real_witness : convert_type_str "surreal" = Raise IndexError.
Proof.
  apply (name_containing_real_is_an_index_error "surreal");
    (discriminate || reflexivity).
Defined.

(** ** Atoms and expressions *)

(** X6: a symbol that names no object, no parameter of the current action and no
    fluent is an error of the fluent lookup. *)
Theorem unknown_symbol_is_an_error (self : ProtobufReader) (problem : Problem)
  (sym : string) :
  has_object problem sym = false ->
  has_fluent problem sym = false ->
  (forall act, current_action self = Some act -> parameter act sym = Raise KeyError) ->
  _convert_atom self (pb2.symbol sym) problem = Raise UPValueError.
Proof.
  exact (unknown_symbol_raises self problem sym).
Qed.

Lemma unknown_symbol_witness :
  _convert_atom (mkReader (Some move_action)) (pb2.symbol "nowhere") sample_problem
  = Raise UPValueError.
Proof.
  apply (unknown_symbol_is_an_error (mkReader (Some move_action)) sample_problem "nowhere");
    try reflexivity.
  intros act [= <-]. reflexivity.
Defined.

(** X8: the argument [param_map] is handed down to the children and to the
    expressions of an effect and never read: it has no influence on the
    result. *)
Theorem param_map_is_never_read (self : ProtobufReader) (problem : Problem)
  (pm pm' : OrderedDict ActionParameter) :
  (forall msg, _convert_expression self msg problem pm
               = _convert_expression self msg problem pm')
  /\ (forall msg, _convert_effect self msg problem pm
                  = _convert_effect self msg problem pm').
Proof.
  assert (E : forall msg, _convert_expression self msg problem pm
                          = _convert_expression self msg problem pm').
  { induction msg as [atom list type kind IH] using Expression_induction.
    rewrite !convert_expression_unfold.
    assert (A : forall args, convert_args self list problem pm args
                             = convert_args self list problem pm' args).
    { induction IH as [|c l Hc _ IHl]; intros args; [reflexivity|].
      cbn [convert_args]. rewrite Hc.
      destruct (_convert_expression self c problem pm'); [|reflexivity].
      apply IHl. }
    now rewrite A. }
  split; [exact E|].
  intros msg. unfold _convert_effect. destruct (pb2.e_condition msg); now rewrite !E.
Qed.

(** X10: a constant whose declared type is none of [bool], [int] and [real], and
    a node of a kind outside the enumeration, fall through every branch: the
    result is [None], without an exception, when atom and children
    convert. *)
Theorem unrecognised_type_or_kind_gives_None (self : ProtobufReader)
  (atom : pb2.Atom) (list : list pb2.Expression) (type : string)
  (kind : pb2.ExpressionKind) (problem : Problem) (pm : OrderedDict ActionParameter) :
  returns (_convert_atom self atom problem) ->
  Forall (fun c => returns (_convert_expression self c problem pm)) list ->
  (kind = pb2.CONSTANT /\ type <> "bool" /\ type <> "int" /\ type <> "real")
  \/ (exists n, kind = pb2.OTHER_EXPRESSION_KIND n) ->
  _convert_expression self (pb2.mkExpression atom list type kind) problem pm = Ok VNone.
Proof.
  intros [payload Ha] Hl Hk. rewrite convert_expression_unfold, Ha. cbn [bind].
  destruct (convert_args_returns self list problem pm [] Hl) as [a ->]. cbn [bind].
  destruct Hk as [(-> & Hb & Hi & Hr) | [n ->]]; [|reflexivity].
  cbn [expression_node].
  destruct (String.eqb_spec type "bool"); [contradiction|].
  destruct (String.eqb_spec type "int"); [contradiction|].
  destruct (String.eqb_spec type "real"); [contradiction|]. reflexivity.
Qed.

Lemma unrecognised_type_witness :
  _convert_expression new_reader (pb2.mkExpression (pb2.int 1) [] "float" pb2.CONSTANT)
                      empty_problem []
  = Ok VNone.
Proof.
  apply (unrecognised_type_or_kind_gives_None new_reader (pb2.int 1) [] "float"
           pb2.CONSTANT empty_problem []).
  - eexists. reflexivity.
  - constructor.
  - left. repeat split; discriminate.
Defined.

Lemma convert_args_spec (self : ProtobufReader) (l : list pb2.Expression)
  (problem : Problem) (pm : OrderedDict ActionParameter) (acc args : list Value) :
  convert_args self l problem pm acc = Ok args ->
  exists vs, args = (acc ++ vs)%list
             /\ Forall2 (fun c v => _convert_expression self c problem pm = Ok v) l vs.
Proof.
  revert acc. induction l as [|c l IH]; intros acc; cbn [convert_args].
  - intros [= <-]. exists []. split; [now rewrite List.app_nil_r|constructor].
  - destruct (_convert_expression self c problem pm) as [v|e] eqn:Ec; [|discriminate].
    cbn [bind]. intros H. destruct (IH _ H) as (vs & -> & Hvs).
    exists (v :: vs). split; [now rewrite <- List.app_assoc|]. now constructor.
Qed.

(** X11: the arguments of a rebuilt node are the rebuilt children, one for one
    and in order; a state variable has no arguments, yet its children were
    converted too, so that a child that fails makes it fail. *)
Theorem node_arguments_are_the_children (self : ProtobufReader) (atom : pb2.Atom)
  (children : list pb2.Expression) (type : string) (kind : pb2.ExpressionKind)
  (problem : Problem) (pm : OrderedDict ActionParameter)
  (node_type : Operator) (args : list Value) (payload : Value) :
  _convert_expression self (pb2.mkExpression atom children type kind) problem pm
  = Ok (FNode node_type args payload) ->
  (kind <> pb2.STATE_VARIABLE ->
   Forall2 (fun c v => _convert_expression self c problem pm = Ok v) children args)
  /\ (kind = pb2.STATE_VARIABLE ->
      args = []
      /\ Forall (fun c => returns (_convert_expression self c problem pm)) children).
Proof.
  rewrite convert_expression_unfold.
  destruct (_convert_atom self atom problem) as [p|e]; [|discriminate]. cbn [bind].
  destruct (convert_args self children problem pm []) as [a|e] eqn:Ea; [|discriminate].
  cbn [bind]. destruct (convert_args_spec _ _ _ _ _ _ Ea) as (vs & -> & Hvs).
  cbn [app]. intros H. split.
  - intros Hk. destruct kind; cbn [expression_node create_node] in H;
      try discriminate H; try contradiction.
    + destruct (type =? "bool")%string; [now injection H as _ <- _|].
      destruct (type =? "int")%string; [now injection H as _ <- _|].
      destruct (type =? "real")%string; [now injection H as _ <- _|discriminate].
    + now injection H as _ <- _.
    + destruct (assert _); [|discriminate]. cbn [bind] in H. now injection H as _ <- _.
  - intros ->. cbn [expression_node create_node] in H. injection H as _ <- _.
    split; [reflexivity|].
    clear -Hvs. induction Hvs; constructor; [eexists; eassumption|assumption].
Qed.

Lemma node_arguments_witness :
  Forall2 (fun c v => _convert_expression new_reader c sample_problem [] = Ok v)
          [int_constant 1; int_constant 2]
          [FNode INT_CONSTANT [] (Int 1); FNode INT_CONSTANT [] (Int 2)].
Proof.
  apply (proj1 (node_arguments_are_the_children new_reader (pb2.symbol "at")
                  [int_constant 1; int_constant 2] "" pb2.FLUENT_SYMBOL sample_problem []
                  FLUENT_EXP _ (VFluent (mkFluent "at" BoolType [robot])) eq_refl)).
  discriminate.
Defined.

(** ** Timings *)

(** X13: the delay of a timing is the wire delay cut towards zero: a whole delay
    is kept, a fractional one loses its fraction. *)
Theorem timing_delay_is_truncated (msg : pb2.Timing) :
  (0 <= pb2.delay msg ->
   inject_Z (delay (_convert_timing msg)) <= pb2.delay msg
   /\ pb2.delay msg < inject_Z (delay (_convert_timing msg) + 1))%Q
  /\ (pb2.delay msg <= 0 ->
      inject_Z (delay (_convert_timing msg) - 1) < pb2.delay msg
      /\ pb2.delay msg <= inject_Z (delay (_convert_timing msg)))%Q
  /\ (forall z, pb2.delay msg = inject_Z z -> delay (_convert_timing msg) = z).
Proof.
  destruct msg as [[n d] tp]. unfold _convert_timing, int_of_number.
  cbn [pb2.delay delay Qnum Qden].
  unfold Qle, Qlt. cbn [Qnum Qden inject_Z].
  pose proof (Z.quot_rem' n (Z.pos d)) as E.
  set (q := n ÷ Z.pos d) in *. set (r := Z.rem n (Z.pos d)) in *.
  assert (Bp : 0 <= n -> 0 <= r < Z.pos d)
    by (intros; apply Z.rem_bound_pos; lia).
  assert (Bn : n <= 0 -> - Z.pos d < r <= 0).
  { intros Hn. apply Z.rem_bound_pos_neg; lia. }
  split; [|split].
  - intros H. specialize (Bp ltac:(lia)). split; nia.
  - intros H. specialize (Bn ltac:(lia)). split; nia.
  - intros z [= -> ->]. subst q. apply Z.quot_1_r.
Qed.

Lemma timing_delay_witness :
  (0 <= 7 # 2)%Q
  /\ (inject_Z (delay (_convert_timing
                         (pb2.mkTiming (7 # 2) (pb2.mkTimepoint pb2.START))))
      <= 7 # 2
      /\ 7 # 2 < inject_Z (delay (_convert_timing
                                    (pb2.mkTiming (7 # 2) (pb2.mkTimepoint pb2.START)))
                           + 1))%Q.
Proof.
  assert (H : (0 <= 7 # 2)%Q) by (unfold Qle; simpl; lia).
  split; [exact H|].
  exact (proj1 (timing_delay_is_truncated
                  (pb2.mkTiming (7 # 2) (pb2.mkTimepoint pb2.START))) H).
Defined.

(** ** Parameters and fluents *)

Lemma od_get_set_same {A : Type} (d : OrderedDict A) (k : string) (v : A) :
  od_get (od_set d k v) k = Ok v.
Proof.
  induction d as [|[k' v'] d IH]; cbn [od_set od_get].
  - now rewrite String.eqb_refl.
  - destruct (String.eqb_spec k' k) as [->|Hne]; cbn [od_get].
    + now rewrite String.eqb_refl.
    + destruct (String.eqb_spec k' k); [contradiction|exact IH].
Qed.

Lemma od_get_set_other {A : Type} (d : OrderedDict A) (k k' : string) (v : A) :
  k' <> k -> od_get (od_set d k v) k' = od_get d k'.
Proof.
  intros Hne. induction d as [|[k0 v0] d IH]; cbn [od_set od_get].
  - destruct (String.eqb_spec k k'); [congruence|reflexivity].
  - destruct (String.eqb_spec k0 k) as [->|H0]; cbn [od_get].
    + destruct (String.eqb_spec k k'); [congruence|reflexivity].
    + destruct (String.eqb_spec k0 k'); [reflexivity|exact IH].
Qed.

Lemma keys_od_set {A : Type} (d : OrderedDict A) (k : string) (v : A) (x : string) :
  In x (keys (od_set d k v)) <-> x = k \/ In x (keys d).
Proof.
  unfold keys. induction d as [|[k' v'] d IH]; cbn [od_set map fst In].
  - intuition.
  - destruct (String.eqb_spec k' k) as [->|Hne]; cbn [map fst In]; intuition.
Qed.

Lemma NoDup_od_set {A : Type} (d : OrderedDict A) (k : string) (v : A) :
  NoDup (keys d) -> NoDup (keys (od_set d k v)).
Proof.
  unfold keys. induction d as [|[k' v'] d IH]; cbn [od_set map fst]; intros H.
  - repeat constructor. intros [].
  - inversion H as [|? ? Hin Hd]; subst.
    destruct (String.eqb_spec k' k) as [->|Hne]; cbn [map fst].
    + now constructor.
    + constructor; [|now apply IH].
      intros Hin'. apply (keys_od_set d k v k') in Hin' as [->|Hin']; contradiction.
Qed.

Lemma action_parameters_invariant (ps : list pb2.Parameter_) (problem : Problem)
  (d0 d : OrderedDict ActionParameter) :
  action_parameters ps problem d0 = Ok d ->
  (NoDup (keys d0) -> NoDup (keys d))
  /\ (forall x, In x (keys d) <-> In x (keys d0) \/ In x (map pb2.p_name ps))
  /\ (forall x, ~ In x (map pb2.p_name ps) -> od_get d x = od_get d0 x).
Proof.
  revert d0. induction ps as [|m ps IH]; intros d0; cbn [action_parameters].
  - intros [= <-]. cbn [map In]. intuition.
  - destruct (_convert_parameter m problem) as [v|e]; [|discriminate]. cbn [bind].
    intros H. destruct (IH _ H) as (Hn & Hk & Hg). split; [|split].
    + intros Hd. apply Hn. now apply NoDup_od_set.
    + intros x. rewrite Hk, keys_od_set. cbn [map In]. intuition.
    + intros x Hx. cbn [map In] in Hx. rewrite Hg by tauto.
      apply od_get_set_other. intros ->. tauto.
Qed.

(** X15: the parameters of an action are an ordered dictionary: every name occurs
    once, the names are those of the parameter messages, and a name declared
    again takes its later declaration: a lookup gives the conversion of the
    last message of that name. *)
Theorem action_parameters_last_declaration_wins (ps : list pb2.Parameter_)
  (problem : Problem) (d : OrderedDict ActionParameter) :
  action_parameters ps problem [] = Ok d ->
  NoDup (keys d)
  /\ (forall x, In x (keys d) <-> In x (map pb2.p_name ps))
  /\ (forall before m after,
         ps = (before ++ m :: after)%list ->
         ~ In (pb2.p_name m) (map pb2.p_name after) ->
         od_get d (pb2.p_name m) = _convert_parameter m problem).
Proof.
  intros H. destruct (action_parameters_invariant _ _ _ _ H) as (Hn & Hk & _).
  split; [apply Hn; constructor|]. split.
  - intros x. rewrite Hk. cbn [keys map In]. tauto.
  - intros before m after -> Hafter. clear Hn Hk.
    revert H. generalize (@nil (string * ActionParameter)) as d0.
    induction before as [|b before IH]; intros d0; cbn [app action_parameters].
    + destruct (_convert_parameter m problem) as [v|e]; [|discriminate]. cbn [bind].
      intros H. destruct (action_parameters_invariant _ _ _ _ H) as (_ & _ & Hg).
      now rewrite (Hg _ Hafter), od_get_set_same.
    + destruct (_convert_parameter b problem) as [v|e]; [|discriminate]. cbn [bind].
      apply IH.
Qed.

Lemma action_parameters_witness :
  match action_parameters (pb2.a_parameters twice_message) sample_problem [] with
  | Ok d => NoDup (keys d) /\ od_get d "r1" = Ok (mkActionParameter "r1" BoolType)
  | Raise _ => False
  end.
Proof.
  destruct (action_parameters (pb2.a_parameters twice_message) sample_problem [])
    as [d|e] eqn:H; [|vm_compute in H; discriminate H].
  destruct (action_parameters_last_declaration_wins _ _ _ H) as (Hn & _ & Hl).
  split; [exact Hn|].
  exact (Hl [pb2.mkParameter "r1" "robot"; pb2.mkParameter "d" "robot"]
            (pb2.mkParameter "r1" "bool") [] eq_refl (fun x => x)).
Defined.

Lemma fluent_signature_types (ps ps' : list pb2.Parameter_) (sig : list UPType) :
  map pb2.p_type ps = map pb2.p_type ps' ->
  fluent_signature ps sig = fluent_signature ps' sig.
Proof.
  revert ps' sig. induction ps as [|p ps IH]; intros [|p' ps'] sig; cbn [map];
    try discriminate; [reflexivity|].
  intros [= Hp Hps]. cbn [fluent_signature]. rewrite Hp.
  destruct (convert_type_str (pb2.p_type p')); [|reflexivity]. cbn [bind]. now apply IH.
Qed.

Lemma fluent_signature_length (ps : list pb2.Parameter_) (sig sig' : list UPType) :
  fluent_signature ps sig = Ok sig' ->
  List.length sig' = (List.length sig + List.length ps)%nat.
Proof.
  revert sig. induction ps as [|p ps IH]; intros sig; cbn [fluent_signature].
  - intros [= <-]. cbn [List.length]. lia.
  - destruct (convert_type_str (pb2.p_type p)); [|discriminate]. cbn [bind].
    intros H. rewrite (IH _ H), List.length_app. cbn [List.length]. lia.
Qed.



(** ** More on actions *)

Section MoreActionFacts.

Variable Sub : Type.
Variable convert_sub : ProtobufReader -> Sub -> Problem -> Result Value.
Variable methods : ActionClass -> string -> bool.

Lemma kept_conditions_same_scope (c : ActionClass) (r1 r2 : ProtobufReader)
  (conds : list pb2.Condition) (problem : Problem)
  (parameters : OrderedDict ActionParameter) :
  same_scope r1 r2 ->
  kept_conditions methods c r1 conds problem parameters
  = kept_conditions methods c r2 conds problem parameters.
Proof.
  intros H. induction conds as [|cond conds IH]; [reflexivity|].
  cbn [kept_conditions].
  now rewrite IH, (expression_same_scope r1 r2 problem parameters H).
Qed.

Lemma conditions_loop_spec (conds : list pb2.Condition) (problem : Problem)
  (parameters : OrderedDict ActionParameter) (action action' : Action) :
  conditions_loop methods conds problem parameters action = (Ok tt, action') ->
  a_conditions action'
  = (a_conditions action
     ++ kept_conditions methods (a_class action) (mkReader (Some action))
          conds problem parameters)%list.
Proof.
  revert action. induction conds as [|cond conds IH]; intros action;
    cbn [conditions_loop kept_conditions].
  - intros [= <-]. now rewrite List.app_nil_r.
  - destruct (_convert_expression _ _ _ _) as [exp|e]; [|discriminate].
    destruct (is_None exp); [apply IH|].
    destruct (attach_condition methods action cond exp) as [a1|e] eqn:Ea;
      [|discriminate].
    destruct (attach_condition_spec _ _ _ _ _ Ea) as (Hh & _ & _ & Hc).
    intros H. rewrite (IH _ H), Hc, <- List.app_assoc.
    destruct Hh as (Hcl & Hrest). rewrite Hcl.
    now rewrite (kept_conditions_same_scope (a_class action) _ _ conds problem
                   parameters (same_header_scope _ _ (conj Hcl Hrest))).
Qed.

Lemma new_action_header (self : ProtobufReader) (msg : pb2.Action Sub)
  (problem : Problem) (a0 : Action) :
  new_action convert_sub self msg problem = Ok a0 ->
  a_name a0 = pb2.a_name msg
  /\ action_parameters (pb2.a_parameters msg) problem [] = Ok (a_parameters a0)
  /\ a_conditions a0 = [] /\ a_cost a0 = None.
Proof.
  unfold new_action.
  destruct (action_parameters _ _ _) as [ps|e]; [|discriminate]. cbn [bind].
  destruct (pb2.a_duration msg) as [d|].
  - destruct (convert_sub self d problem) as [c|e]; [|discriminate].
    intros [= <-]. repeat split.
  - intros [= <-]. repeat split.
Qed.

(** X16: the conditions of the action a conversion returns are the entries
    of exactly those condition messages whose expression does not rebuild
    to [None], in the order of the messages.  An entry holds the converted
    span when the action object has the method [add_condition]; when it
    has not, the reader falls back on [add_precondition] and the entry is a
    plain precondition, whatever span the message carries. *)
Theorem conditions_attached_iff_not_None (self : ProtobufReader)
  (msg : pb2.Action Sub) (problem : Problem) (a : Action) (self' : ProtobufReader) :
  _convert_action convert_sub methods self msg problem = (Ok a, self') ->
  a_conditions a
  = kept_conditions methods (a_class a) (mkReader (Some a)) (pb2.a_conditions msg)
      problem (a_parameters a).
Proof.
  intros H.
  destruct (convert_action_returns _ _ _ _ _ _ _ _ H)
    as (a0 & a1 & a2 & H0 & H1 & H2 & Hc & _).
  destruct (new_action_header _ _ _ _ H0) as (_ & _ & Hc0 & _).
  destruct (conditions_loop_frame _ _ _ _ _ _ _ H1) as (Hh1 & _ & _).
  destruct (effects_loop_spec _ _ _ _ _ _ _ H2) as (Hh2 & Hc2 & _ & _).
  assert (Ha : same_header a2 a /\ a_conditions a = a_conditions a2).
  { destruct Hc as [[_ ->]|(c & v & _ & _ & ->)];
      (split; [repeat split|reflexivity]). }
  destruct Ha as [Ha Hca].
  rewrite Hca, Hc2, (conditions_loop_spec _ _ _ _ _ H1), Hc0. cbn [app].
  pose proof (same_header_trans _ _ _ Hh1 (same_header_trans _ _ _ Hh2 Ha)) as Hh.
  destruct Hh as (Hk & Hn & Hp & Hd). rewrite Hp, Hk.
  apply kept_conditions_same_scope. unfold same_scope. cbn. now rewrite Hp.
Qed.

(** X17: the action a conversion returns has the name of the message and the
    parameters rebuilt from its parameter messages; its cost is present
    exactly when the message has one, and is then what converting it gave
    with the action, all its conditions and effects attached, as the current
    action. *)
Theorem returned_action_name_parameters_and_cost (self : ProtobufReader)
  (msg : pb2.Action Sub) (problem : Problem) (a : Action) (self' : ProtobufReader) :
  _convert_action convert_sub methods self msg problem = (Ok a, self') ->
  a_name a = pb2.a_name msg
  /\ action_parameters (pb2.a_parameters msg) problem [] = Ok (a_parameters a)
  /\ match pb2.a_cost msg with
     | Some c =>
         exists before v,
           a = set_cost before v /\ a_cost before = None
           /\ convert_sub (mkReader (Some before)) c problem = Ok v
     | None => a_cost a = None
     end.
Proof.
  intros H.
  destruct (convert_action_returns _ _ _ _ _ _ _ _ H)
    as (a0 & a1 & a2 & H0 & H1 & H2 & Hc & _).
  destruct (new_action_header _ _ _ _ H0) as (Hn0 & Hp0 & _ & Hk0).
  destruct (conditions_loop_frame _ _ _ _ _ _ _ H1) as (Hh1 & _ & Hk1).
  destruct (effects_loop_spec _ _ _ _ _ _ _ H2) as (Hh2 & _ & Hk2 & _).
  destruct (same_header_trans _ _ _ Hh1 Hh2) as (_ & Hn & Hp & _).
  assert (Hk : a_cost a2 = None) by congruence.
  destruct Hc as [[Hnone ->]|(c & v & Hsome & Hv & ->)]; rewrite ?Hnone, ?Hsome.
  - split; [congruence|]. split; [congruence|assumption].
  - cbn [set_cost a_name a_parameters]. split; [congruence|]. split; [congruence|].
    exists a2, v. now repeat split.
Qed.

(** X18: a conversion of an action that fails leaves the reader as it was when
    the failure comes from the parameters or the duration; a failure that
    comes later leaves the action under construction, which is never
    returned, as the current action. *)
Theorem failed_action_stays_the_current_action (self : ProtobufReader)
  (msg : pb2.Action Sub) (problem : Problem) (e : Exn) (self' : ProtobufReader) :
  _convert_action convert_sub methods self msg problem = (Raise e, self') ->
  (new_action convert_sub self msg problem = Raise e /\ self' = self)
  \/ exists a0 partial,
      new_action convert_sub self msg problem = Ok a0
      /\ same_header a0 partial
      /\ current_action self' = Some partial.
Proof.
  unfold _convert_action.
  destruct (new_action convert_sub self msg problem) as [a0|e0].
  2:{ intros [= -> <-]. left. split; reflexivity. }
  destruct (conditions_loop methods _ _ _ a0) as [r1 a1] eqn:E1.
  destruct (conditions_loop_frame _ _ _ _ _ _ _ E1) as (Hh1 & _).
  destruct r1 as [[]|e1].
  2:{ intros [= _ <-]. right. exists a0, a1. repeat split; apply Hh1. }
  destruct (effects_loop methods _ _ _ a1) as [r2 a2] eqn:E2.
  destruct (effects_loop_spec _ _ _ _ _ _ _ E2) as (Hh2 & _).
  pose proof (same_header_trans _ _ _ Hh1 Hh2) as Hh.
  destruct r2 as [[]|e2].
  2:{ intros [= _ <-]. right. exists a0, a2. repeat split; apply Hh. }
  destruct (pb2.a_cost msg) as [c|]; [|discriminate].
  destruct (convert_sub (mkReader (Some a2)) c problem); [discriminate|].
  intros [= _ <-]. right. exists a0, a2. repeat split; apply Hh.
Qed.

End MoreActionFacts.

Lemma conditions_attached_witness :
  match _convert_action _convert_atom sample_methods new_reader move_message
                        sample_problem with
  | (Ok a, _) =>
      a_conditions a
      = [(None, FNode FLUENT_EXP [] (VFluent (mkFluent "at" BoolType [robot])))]
  | (Raise _, _) => False
  end
  /\ match _convert_action _convert_atom sample_methods new_reader
                           timed_stay_message sample_problem with
     | (Ok a, _) =>
         a_conditions a
         = [(Some (_convert_timed_interval whole_action),
             FNode FLUENT_EXP [] (VFluent (mkFluent "at" BoolType [robot])))]
     | (Raise _, _) => False
     end.
Proof.
  split.
  - destruct (_convert_action _convert_atom sample_methods new_reader move_message
                              sample_problem)
      as [[a|e] self'] eqn:H; [|vm_compute in H; discriminate H].
    pose proof (conditions_attached_iff_not_None _ _ _ _ _ _ _ _ H) as Hk.
    vm_compute in H. injection H as <- <-. exact Hk.
  - destruct (_convert_action _convert_atom sample_methods new_reader
                              timed_stay_message sample_problem)
      as [[a|e] self'] eqn:H; [|vm_compute in H; discriminate H].
    pose proof (conditions_attached_iff_not_None _ _ _ _ _ _ _ _ H) as Hk.
    vm_compute in H. injection H as <- <-. exact Hk.
Defined.

Lemma returned_action_witness :
  match _convert_action _convert_atom sample_methods
        new_reader twice_message sample_problem with
  | (Ok a, _) => a_name a = "twice" /\ a_cost a = Some (Int 7)
  | (Raise _, _) => False
  end.
Proof.
  destruct (_convert_action _convert_atom sample_methods
        new_reader twice_message sample_problem)
    as [[a|e] self'] eqn:H; [|vm_compute in H; discriminate H].
  destruct (returned_action_name_parameters_and_cost _ _ _ _ _ _ _ _ H)
    as (Hn & _ & before & v & -> & _ & Hv).
  split; [exact Hn|]. cbn [set_cost a_cost]. now injection Hv as <-.
Defined.

Lemma failed_action_witness :
  match _convert_action _convert_atom sample_methods
        new_reader broken_move_message sample_problem with
  | (Raise e, self') =>
      e = UPValueError
      /\ exists partial, current_action self' = Some partial /\ a_name partial = "move"
  | (Ok _, _) => False
  end.
Proof.
  destruct (_convert_action _convert_atom sample_methods
        new_reader broken_move_message sample_problem)
    as [[a|e] self'] eqn:H; [vm_compute in H; discriminate H|].
  destruct (failed_action_stays_the_current_action _ _ _ _ _ _ _ _ H)
    as [[H0 _]|(a0 & partial & H0 & (_ & Hn & _) & Hs)].
  - vm_compute in H0. discriminate H0.
  - split; [vm_compute in H; now injection H as <- _|].
    exists partial. split; [exact Hs|]. rewrite Hn.
    vm_compute in H0. now injection H0 as <-.
Defined.

(** ** Problems *)

Section ProblemFacts.

Variable Sub : Type.
Variable convert_sub : ProtobufReader -> Sub -> Problem -> Result Value.
Variable methods : ActionClass -> string -> bool.

Lemma extends_refl (P : Problem) : extends P P [] [] [] [] [] [].
Proof. unfold extends. now rewrite !List.app_nil_r. Qed.

Lemma extends_trans (P P1 P2 : Problem) os fs acts es ivs gs os' fs' acts' es' ivs' gs' :
  extends P P1 os fs acts es ivs gs ->
  extends P1 P2 os' fs' acts' es' ivs' gs' ->
  extends P P2 (os ++ os') (fs ++ fs') (acts ++ acts') (es ++ es') (ivs ++ ivs')
          (gs ++ gs').
Proof.
  unfold extends. intros (A1 & A2 & A3 & A4 & A5 & A6 & A7 & A8)
                         (B1 & B2 & B3 & B4 & B5 & B6 & B7 & B8).
  rewrite B1, B2, B3, B4, B5, B6, B7, B8, A1, A2, A3, A4, A5, A6, A7, A8.
  now rewrite !List.app_assoc.
Qed.

Lemma objects_loop_spec (l : list pb2.ObjectDeclaration) (problem P : Problem) :
  exists P',
    objects_loop l problem P = Ok P'
    /\ extends P P'
         (map (fun m => mkObject (pb2.o_name m) (UserType (pb2.o_type m) None)) l)
         [] [] [] [] [].
Proof.
  revert P. induction l as [|m l IH]; intros P; cbn [objects_loop map].
  - exists P. split; [reflexivity|apply extends_refl].
  - cbn [_convert_object bind]. destruct (IH (add_object P (mkObject (pb2.o_name m) (UserType (pb2.o_type m) None)))) as (P' & -> & H).
    exists P'. split; [reflexivity|].
    refine (extends_trans P _ P' [_] [] [] [] [] [] _ [] [] [] [] [] _ H).
    unfold extends, add_object. cbn. now rewrite !List.app_nil_r.
Qed.

Lemma fluents_loop_spec (l : list pb2.Fluent) (problem P P' : Problem) :
  fluents_loop l problem P = Ok P' ->
  exists fs, Forall2 (fun m f => _convert_fluent m problem = Ok f) l fs
             /\ extends P P' [] fs [] [] [] [].
Proof.
  revert P. induction l as [|m l IH]; intros P; cbn [fluents_loop].
  - intros [= <-]. exists []. split; [constructor|apply extends_refl].
  - destruct (_convert_fluent m problem) as [f|e] eqn:Ef; [|discriminate]. cbn [bind].
    intros H. destruct (IH _ H) as (fs & Hfs & Hext). exists (f :: fs).
    split; [now constructor|].
    refine (extends_trans P _ P' [] [_] [] [] [] [] [] _ [] [] [] [] _ Hext).
    unfold extends, add_fluent. cbn. now rewrite !List.app_nil_r.
Qed.

Lemma fluents_loop_total (l : list pb2.Fluent) (problem P : Problem) :
  Forall (fun m => returns (_convert_fluent m problem)) l ->
  returns (fluents_loop l problem P).
Proof.
  intros H. revert P. induction H as [|m l [f Hf] _ IH]; intros P; cbn [fluents_loop].
  - now exists P.
  - rewrite Hf. apply IH.
Qed.

Lemma actions_loop_spec (self : ProtobufReader) (l : list (pb2.Action Sub))
  (problem P P' : Problem) (self' : ProtobufReader) :
  actions_loop convert_sub methods self l problem P = (Ok P', self') ->
  exists acts,
    List.length acts = List.length l
    /\ extends P P' [] [] acts [] [] []
    /\ (l = [] -> self' = self)
    /\ (l <> [] -> exists front a, acts = (front ++ [a])%list
                                   /\ current_action self' = Some a).
Proof.
  revert self P. induction l as [|m l IH]; intros self P; cbn [actions_loop].
  - intros [= <- <-]. exists []. split; [reflexivity|]. split; [apply extends_refl|].
    split; [reflexivity|congruence].
  - destruct (_convert_action convert_sub methods self m problem) as [[a|e] s1] eqn:Ea;
      [|discriminate].
    intros H. destruct (IH _ _ H) as (acts & Hlen & Hext & Hnil & Hlast).
    exists (a :: acts). split; [cbn; congruence|]. split.
    { refine (extends_trans P _ P' [] [] [_] [] [] [] [] [] _ [] [] [] _ Hext).
      unfold extends, add_action. cbn. now rewrite !List.app_nil_r. }
    split; [discriminate|]. intros _.
    destruct l as [|m' l].
    + destruct acts; [|discriminate Hlen]. exists [], a. split; [reflexivity|].
      rewrite (Hnil eq_refl).
      now destruct (convert_action_parts _ _ _ _ _ _ _ _ Ea) as (_ & _ & _ & _ & ->).
    + destruct Hlast as (front & b & -> & Hb); [discriminate|].
      exists (a :: front), b. split; [reflexivity|assumption].
Qed.

Lemma timed_effects_loop_spec (self : ProtobufReader) (l : list Sub)
  (problem P P' : Problem) :
  timed_effects_loop Sub convert_sub self l problem P = Ok P' ->
  exists es, Forall2 (fun m e => convert_sub self m problem = Ok e) l es
             /\ extends P P' [] [] [] es [] [].
Proof.
  revert P. induction l as [|m l IH]; intros P; cbn [timed_effects_loop].
  - intros [= <-]. exists []. split; [constructor|apply extends_refl].
  - destruct (convert_sub self m problem) as [e|x] eqn:Ee; [|discriminate]. cbn [bind].
    intros H. destruct (IH _ H) as (es & Hes & Hext). exists (e :: es).
    split; [now constructor|].
    refine (extends_trans P _ P' [] [] [] [_] [] [] [] [] [] _ [] [] _ Hext).
    unfold extends, add_problem_timed_effect. cbn. now rewrite !List.app_nil_r.
Qed.

Lemma initial_state_loop_spec (self : ProtobufReader) (l : list (pb2.Assignment Sub))
  (problem P P' : Problem) :
  initial_state_loop Sub convert_sub self l problem P = Ok P' ->
  exists ivs,
    Forall2 (fun m iv => _convert_initial_state convert_sub self m problem = Ok iv) l ivs
    /\ extends P P' [] [] [] [] ivs [].
Proof.
  revert P. induction l as [|m l IH]; intros P; cbn [initial_state_loop].
  - intros [= <-]. exists []. split; [constructor|apply extends_refl].
  - destruct (_convert_initial_state convert_sub self m problem) as [[f v]|x] eqn:Ee;
      [|discriminate].
    cbn [bind]. intros H. destruct (IH _ H) as (ivs & Hivs & Hext). exists ((f, v) :: ivs).
    split; [now constructor|].
    refine (extends_trans P _ P' [] [] [] [] [_] [] [] [] [] [] _ [] _ Hext).
    unfold extends, set_initial_value. cbn. now rewrite !List.app_nil_r.
Qed.

Lemma goals_loop_spec (self : ProtobufReader) (l : list (pb2.Goal Sub))
  (problem P P' : Problem) :
  goals_loop Sub convert_sub self l problem P = Ok P' ->
  exists gs, Forall2 (fun m g => _convert_goal convert_sub self m problem = Ok g) l gs
             /\ extends P P' [] [] [] [] [] gs.
Proof.
  revert P. induction l as [|m l IH]; intros P; cbn [goals_loop].
  - intros [= <-]. exists []. split; [constructor|apply extends_refl].
  - destruct (_convert_goal convert_sub self m problem) as [g|x] eqn:Ee; [|discriminate].
    cbn [bind]. intros H. destruct (IH _ H) as (gs & Hgs & Hext). exists (g :: gs).
    split; [now constructor|].
    refine (extends_trans P _ P' [] [] [] [] [] [_] [] [] [] [] [] _ _ Hext).
    unfold extends, add_goal. cbn. now rewrite !List.app_nil_r.
Qed.

(** What a call of [_convert_problem] that returns went through. *)
Lemma convert_problem_returns (self : ProtobufReader) (msg : pb2.Problem Sub)
  (problem P : Problem) (self' : ProtobufReader) :
  _convert_problem convert_sub methods self msg problem = (Ok P, self') ->
  exists fs acts es ivs gs,
    extends (new_Problem (pb2.problem_name msg) (env problem)) P
      (map (fun m => mkObject (pb2.o_name m) (UserType (pb2.o_type m) None))
           (pb2.objects msg))
      fs acts es ivs gs
    /\ Forall2 (fun m f => _convert_fluent m problem = Ok f) (pb2.fluents msg) fs
    /\ List.length acts = List.length (pb2.actions msg)
    /\ (pb2.actions msg = [] -> self' = self)
    /\ (pb2.actions msg <> [] ->
        exists front a, acts = (front ++ [a])%list /\ current_action self' = Some a)
    /\ Forall2 (fun m e => convert_sub self' m problem = Ok e) (pb2.timed_effects msg) es
    /\ Forall2 (fun m iv => _convert_initial_state convert_sub self' m problem = Ok iv)
               (pb2.initial_state msg) ivs
    /\ Forall2 (fun m g => _convert_goal convert_sub self' m problem = Ok g)
               (pb2.goals msg) gs.
Proof.
  unfold _convert_problem.
  destruct (objects_loop_spec (pb2.objects msg) problem
              (new_Problem (pb2.problem_name msg) (env problem))) as (P1 & -> & X1).
  cbn [bind].
  destruct (fluents_loop (pb2.fluents msg) problem P1) as [P2|e] eqn:E2; [|discriminate].
  destruct (fluents_loop_spec _ _ _ _ E2) as (fs & Hfs & X2).
  destruct (actions_loop convert_sub methods self (pb2.actions msg) problem P2)
    as [[P3|e] s3] eqn:E3; [|discriminate].
  destruct (actions_loop_spec _ _ _ _ _ _ E3) as (acts & Hlen & X3 & Hnil & Hlast).
  destruct (timed_effects_loop Sub convert_sub s3 (pb2.timed_effects msg) problem P3)
    as [P4|e] eqn:E4; [|discriminate].
  destruct (timed_effects_loop_spec _ _ _ _ _ E4) as (es & Hes & X4). cbn [bind].
  destruct (initial_state_loop Sub convert_sub s3 (pb2.initial_state msg) problem P4)
    as [P5|e] eqn:E5; [|discriminate].
  destruct (initial_state_loop_spec _ _ _ _ _ E5) as (ivs & Hivs & X5). cbn [bind].
  intros [= E6 <-].
  destruct (goals_loop_spec _ _ _ _ _ E6) as (gs & Hgs & X6).
  exists fs, acts, es, ivs, gs.
  split; [|now repeat split].
  pose proof (extends_trans _ _ _ _ _ _ _ _ _ _ _ _ _ _ _
                (extends_trans _ _ _ _ _ _ _ _ _ _ _ _ _ _ _
                   (extends_trans _ _ _ _ _ _ _ _ _ _ _ _ _ _ _
                      (extends_trans _ _ _ _ _ _ _ _ _ _ _ _ _ _ _
                         (extends_trans _ _ _ _ _ _ _ _ _ _ _ _ _ _ _ X1 X2) X3) X4) X5) X6)
    as X.
  cbn [app] in X. now rewrite !List.app_nil_r in X.
Qed.


(** X20: when the conversion of a problem returns, the reader is as it was if the
    message has no action; otherwise its current action is the last action
    of the rebuilt problem, and it was so while the timed effects, the
    initial state and the goals of the message were converted. *)
Theorem last_action_is_the_scope_after_a_problem (self : ProtobufReader)
  (msg : pb2.Problem Sub) (problem P : Problem) (self' : ProtobufReader) :
  _convert_problem convert_sub methods self msg problem = (Ok P, self') ->
  (pb2.actions msg = [] -> self' = self)
  /\ (pb2.actions msg <> [] ->
      exists front a, actions P = (front ++ [a])%list /\ current_action self' = Some a)
  /\ Forall2 (fun m g => _convert_goal convert_sub self' m problem = Ok g)
             (pb2.goals msg) (goals P).
Proof.
  intros H.
  destruct (convert_problem_returns _ _ _ _ _ H)
    as (fs & acts & es & ivs & gs & X & _ & _ & Hnil & Hlast & _ & _ & Hgs).
  destruct X as (_ & _ & _ & _ & X5 & _ & _ & X8). cbn in X5, X8. rewrite X5, X8.
  now repeat split.
Qed.

(** X21: the symbols of an action inside a problem message are resolved against
    the template, not against the problem being rebuilt: a condition on a
    symbol that the template does not know fails with the error of the
    fluent lookup, whatever the message itself declares. *)
Theorem symbols_are_resolved_against_the_template (self : ProtobufReader)
  (msg : pb2.Problem Sub) (template : Problem) (m : pb2.Action Sub)
  (rest : list (pb2.Action Sub)) (c : pb2.Condition) (conds : list pb2.Condition)
  (s : string) :
  Forall (fun f => returns (_convert_fluent f template)) (pb2.fluents msg) ->
  pb2.actions msg = m :: rest ->
  returns (action_parameters (pb2.a_parameters m) template []) ->
  pb2.a_duration m = None ->
  pb2.a_conditions m = c :: conds ->
  pb2.atom (pb2.cond c) = pb2.symbol s ->
  ~ In s (map pb2.p_name (pb2.a_parameters m)) ->
  has_object template s = false ->
  has_fluent template s = false ->
  fst (_convert_problem convert_sub methods self msg template) = Raise UPValueError.
Proof.
  intros Hfl Hact [ps Hps] Hdur Hconds Hatom Hs Ho Hf.
  unfold _convert_problem.
  destruct (objects_loop_spec (pb2.objects msg) template
              (new_Problem (pb2.problem_name msg) (env template))) as (P1 & -> & _).
  cbn [bind]. destruct (fluents_loop_total _ template P1 Hfl) as [P2 ->].
  rewrite Hact. cbn [actions_loop].
  assert (E : _convert_action convert_sub methods self m template
              = (Raise UPValueError,
                 mkReader (Some (InstantaneousAction (pb2.a_name m) ps)))).
  { unfold _convert_action, new_action. rewrite Hps, Hdur, Hconds. cbn [bind].
    cbn [conditions_loop InstantaneousAction a_parameters].
    destruct (pb2.cond c) as [atom l t k]. cbn [pb2.atom] in Hatom. subst atom.
    rewrite convert_expression_unfold.
    rewrite (unknown_symbol_raises _ template s Ho Hf); [reflexivity|].
    intros act [= <-]. unfold parameter, InstantaneousAction. cbn [a_parameters].
    destruct (action_parameters_invariant _ _ _ _ Hps) as (_ & _ & Hg).
    now rewrite (Hg s Hs). }
  now rewrite E.
Qed.

End ProblemFacts.


Lemma last_action_witness :
  match _convert_problem _convert_atom sample_methods
        new_reader sample_message sample_problem with
  | (Ok P, self') =>
      exists front a, actions P = (front ++ [a])%list /\ current_action self' = Some a
  | (Raise _, _) => False
  end.
Proof.
  destruct (_convert_problem _convert_atom sample_methods
        new_reader sample_message sample_problem)
    as [[P|e] self'] eqn:H; [|vm_compute in H; discriminate H].
  destruct (last_action_is_the_scope_after_a_problem pb2.Atom _convert_atom sample_methods
        _ _ _ _ _ H)
    as (_ & Hl & _).
  apply Hl. discriminate.
Defined.

Lemma template_resolution_witness :
  fst (_convert_problem _convert_atom sample_methods
        new_reader self_contained_message empty_problem)
  = Raise UPValueError.
Proof.
  refine (symbols_are_resolved_against_the_template pb2.Atom _convert_atom sample_methods
        new_reader
            self_contained_message empty_problem _ [] _ [] "at"
            _ eq_refl _ eq_refl eq_refl eq_refl _ eq_refl eq_refl).
  - repeat constructor. eexists. vm_compute. reflexivity.
  - eexists. vm_compute. reflexivity.
  - cbn. intros [H|[]]. discriminate H.
Defined.

(** ** Plans *)

Lemma lookup_key {A : Type} (key : A -> string) (l : list A) (n : string) (a : A) :
  lookup key l n = Ok a -> key a = n /\ In a l.
Proof.
  unfold lookup. destruct (find _ l) as [x|] eqn:E; [|discriminate].
  intros [= <-]. apply find_some in E. destruct E as [Hin Hk].
  split; [now apply String.eqb_eq|assumption].
Qed.

Lemma instance_parameters_spec (ps : list pb2.Atom) (problem : Problem)
  (acc vs : list Value) :
  instance_parameters ps problem acc = Ok vs ->
  exists new,
    vs = (acc ++ new)%list
    /\ Forall2 (fun p v => exists s o,
                    p = pb2.symbol s /\ object problem s = Ok o /\ o_name o = s
                    /\ v = FNode OBJECT_EXP [] (VObject o)) ps new.
Proof.
  revert acc. induction ps as [|p ps IH]; intros acc; cbn [instance_parameters].
  - intros [= <-]. exists []. split; [now rewrite List.app_nil_r|constructor].
  - destruct p as [|s| | | ]; try discriminate. cbn [assert bind pb2.symbol_of].
    destruct (has_object problem s); [|discriminate]. cbn [assert bind].
    destruct (object problem s) as [o|e] eqn:Eo; [|discriminate]. cbn [bind].
    intros H. destruct (IH _ H) as (new & -> & Hnew).
    exists (create_node OBJECT_EXP [] (VObject o) :: new).
    split; [now rewrite <- List.app_assoc|]. constructor; [|assumption].
    exists s, o. repeat split; [assumption|].
    now destruct (lookup_key _ _ _ _ Eo).
Qed.

Lemma instance_parameters_assert (ps : list pb2.Atom) (problem : Problem)
  (acc : list Value) :
  forallb (is_object_symbol problem) ps = false ->
  instance_parameters ps problem acc = Raise AssertionError.
Proof.
  revert acc. induction ps as [|p ps IH]; intros acc; cbn [forallb instance_parameters];
    [discriminate|].
  destruct p as [|s| | | ]; cbn [is_object_symbol andb]; try reflexivity.
  cbn [assert bind pb2.symbol_of]. destruct (has_object problem s) eqn:Ho;
    cbn [andb assert bind]; [|reflexivity].
  destruct (has_lookup o_name (objects problem) s Ho) as (o & Eo & _).
  unfold object. rewrite Eo. cbn [bind]. apply IH.
Qed.

Lemma instance_parameters_total (ps : list pb2.Atom) (problem : Problem)
  (acc : list Value) :
  forallb (is_object_symbol problem) ps = true ->
  returns (instance_parameters ps problem acc).
Proof.
  revert acc. induction ps as [|p ps IH]; intros acc; cbn [forallb instance_parameters].
  - now exists acc.
  - destruct p as [|s| | | ]; cbn [is_object_symbol andb]; try discriminate.
    cbn [assert bind pb2.symbol_of]. destruct (has_object problem s) eqn:Ho;
      cbn [andb assert bind]; [|discriminate].
    destruct (has_lookup o_name (objects problem) s Ho) as (o & Eo & _).
    unfold object. rewrite Eo. cbn [bind]. apply IH.
Qed.

(** X22: a converted action instance holds the action of the problem that has
    the name of the message, and one object node for each parameter of the
    message, in order: each parameter is a symbol, and its node carries the
    object of the problem with that name. *)
Theorem action_instance_holds_the_named_action_and_objects
  (msg : pb2.ActionInstance) (problem : Problem) (i : ActionInstance) :
  _convert_action_instance msg problem = Ok i ->
  In (ai_action i) (actions problem)
  /\ a_name (ai_action i) = pb2.ai_action_name msg
  /\ Forall2 (fun p v => exists s o,
                  p = pb2.symbol s /\ object problem s = Ok o /\ o_name o = s
                  /\ v = FNode OBJECT_EXP [] (VObject o))
             (pb2.ai_parameters msg) (ai_parameters i).
Proof.
  unfold _convert_action_instance.
  destruct (instance_parameters _ problem []) as [vs|e] eqn:Ev; [|discriminate].
  cbn [bind]. destruct (action problem _) as [a|e] eqn:Ea; [|discriminate].
  cbn [bind]. intros [= <-]. cbn [ai_action ai_parameters].
  destruct (lookup_key _ _ _ _ Ea) as [Hn Hin].
  destruct (instance_parameters_spec _ _ _ _ Ev) as (new & -> & Hnew).
  repeat split; assumption.
Qed.

(** X23: the parameters of an action instance are checked before the action is
    looked up: a parameter that is not a symbol naming an object of the
    problem is a failed assertion, whatever the action name; with every
    parameter an object symbol, an unknown action name is the error of the
    action lookup. *)
Theorem instance_parameters_are_checked_before_the_action
  (msg : pb2.ActionInstance) (problem : Problem) :
  (forallb (is_object_symbol problem) (pb2.ai_parameters msg) = false ->
   _convert_action_instance msg problem = Raise AssertionError)
  /\ (forallb (is_object_symbol problem) (pb2.ai_parameters msg) = true ->
      has a_name (actions problem) (pb2.ai_action_name msg) = false ->
      _convert_action_instance msg problem = Raise UPValueError)
  /\ (forallb (is_object_symbol problem) (pb2.ai_parameters msg) = true ->
      has a_name (actions problem) (pb2.ai_action_name msg) = true ->
      returns (_convert_action_instance msg problem)).
Proof.
  unfold _convert_action_instance. repeat split.
  - intros H. now rewrite (instance_parameters_assert _ _ _ H).
  - intros H Ha. destruct (instance_parameters_total _ problem [] H) as [vs ->].
    cbn [bind]. unfold action. now rewrite (not_has_lookup _ _ _ Ha).
  - intros H Ha. destruct (instance_parameters_total _ problem [] H) as [vs ->].
    cbn [bind]. destruct (has_lookup _ _ _ Ha) as (a & Ea & _).
    unfold action. rewrite Ea. cbn [bind]. now eexists.
Qed.

Lemma plan_instances_spec (l : list pb2.ActionInstance) (problem : Problem)
  (r : list ActionInstance) :
  plan_instances l problem = Ok r <->
  Forall2 (fun m i => _convert_action_instance m problem = Ok i) l r.
Proof.
  revert r. induction l as [|m l IH]; intros r; cbn [plan_instances].
  - split; [intros [= <-]; constructor|intros H; now inversion H].
  - split.
    + destruct (_convert_action_instance m problem) as [i|e] eqn:Ei; [|discriminate].
      cbn [bind]. destruct (plan_instances l problem) as [rest|e] eqn:Er; [|discriminate].
      cbn [bind]. intros [= <-]. constructor; [assumption|]. now apply IH.
    + intros H. inversion H as [|m' i l' rest Hi Hrest]; subst.
      rewrite Hi. cbn [bind]. apply IH in Hrest. now rewrite Hrest.
Qed.

(** X24: a plan converts exactly when each of its action instances does, and the
    converted plan holds their conversions, one for one and in order. *)
Theorem plan_converts_instance_by_instance (msg : pb2.Plan) (problem : Problem)
  (plan : SequentialPlan) :
  _convert_plan msg problem = Ok plan <->
  Forall2 (fun m i => _convert_action_instance m problem = Ok i)
          (pb2.plan_actions msg) (plan_actions plan).
Proof.
  unfold _convert_plan. split.
  - destruct (plan_instances _ problem) as [r|e] eqn:Er; [|discriminate].
    cbn [bind]. intros [= <-]. now apply plan_instances_spec.
  - intros H. apply plan_instances_spec in H. rewrite H. cbn [bind].
    now destruct plan.
Qed.

(** X25: a plan fails with the error of its first action instance that fails;
    the instances after it are not looked at. *)
Theorem plan_fails_at_its_first_bad_instance (msg : pb2.Plan) (problem : Problem)
  (before after : list pb2.ActionInstance) (m : pb2.ActionInstance) (e : Exn) :
  pb2.plan_actions msg = (before ++ m :: after)%list ->
  Forall (fun x => returns (_convert_action_instance x problem)) before ->
  _convert_action_instance m problem = Raise e ->
  _convert_plan msg problem = Raise e.
Proof.
  intros Hl Hb Hm. unfold _convert_plan. rewrite Hl. clear Hl.
  enough (H : plan_instances (before ++ m :: after) problem = Raise e) by now rewrite H.
  induction Hb as [|x before [i Hi] _ IH]; cbn [app plan_instances].
  - now rewrite Hm.
  - rewrite Hi, IH. reflexivity.
Qed.

Lemma action_instance_witness :
  match _convert_action_instance (pb2.mkActionInstance "move" [pb2.symbol "r1"])
                                 problem_with_move with
  | Ok i => a_name (ai_action i) = "move"
  | Raise _ => False
  end.
Proof.
  destruct (_convert_action_instance (pb2.mkActionInstance "move" [pb2.symbol "r1"])
                                     problem_with_move) as [i|e] eqn:H;
    [|vm_compute in H; discriminate H].
  exact (proj1 (proj2 (action_instance_holds_the_named_action_and_objects _ _ _ H))).
Defined.

Lemma plan_fails_witness :
  _convert_plan (pb2.mkPlan [pb2.mkActionInstance "move" [pb2.symbol "r1"];
                             pb2.mkActionInstance "fly" [pb2.symbol "r1"];
                             pb2.mkActionInstance "move" [pb2.int 3]])
                problem_with_move
  = Raise UPValueError.
Proof.
  refine (plan_fails_at_its_first_bad_instance
            (pb2.mkPlan [pb2.mkActionInstance "move" [pb2.symbol "r1"];
                         pb2.mkActionInstance "fly" [pb2.symbol "r1"];
                         pb2.mkActionInstance "move" [pb2.int 3]])
            problem_with_move
            [pb2.mkActionInstance "move" [pb2.symbol "r1"]]
            [pb2.mkActionInstance "move" [pb2.int 3]]
            (pb2.mkActionInstance "fly" [pb2.symbol "r1"]) UPValueError
            eq_refl _ eq_refl).
  repeat constructor. eexists. vm_compute. reflexivity.
Defined.

Lemma instance_checks_witness :
  _convert_action_instance (pb2.mkActionInstance "fly" [pb2.symbol "nobody"])
                           problem_with_move
  = Raise AssertionError.
Proof.
  apply (proj1 (instance_parameters_are_checked_before_the_action
                  (pb2.mkActionInstance "fly" [pb2.symbol "nobody"]) problem_with_move)).
  reflexivity.
Defined.

Lemma plan_converts_witness :
  match _convert_plan (pb2.mkPlan [pb2.mkActionInstance "move" [pb2.symbol "r1"];
                                   pb2.mkActionInstance "move" [pb2.symbol "r2"]])
                      problem_with_move with
  | Ok plan => List.length (plan_actions plan) = 2%nat
  | Raise _ => False
  end.
Proof.
  destruct (_convert_plan (pb2.mkPlan [pb2.mkActionInstance "move" [pb2.symbol "r1"];
                                       pb2.mkActionInstance "move" [pb2.symbol "r2"]])
                          problem_with_move) as [plan|e] eqn:H;
    [|vm_compute in H; discriminate H].
  apply (proj1 (plan_converts_instance_by_instance _ _ _)) in H.
  apply Forall2_length in H. symmetry. exact H.
Defined.

(** ** Effects *)

(** X12: no effect kind is rejected: an effect converts whenever its fluent, its
    value and its condition, if it has one, convert; when it fails, it is
    with the error of the first of the three that fails. *)
Theorem effect_fails_only_through_its_expressions (self : ProtobufReader)
  (msg : pb2.EffectExpression) (problem : Problem) (pm : OrderedDict ActionParameter) :
  (returns (_convert_expression self (pb2.e_fluent msg) problem pm) ->
   returns (_convert_expression self (pb2.e_value msg) problem pm) ->
   (forall c, pb2.e_condition msg = Some c ->
              returns (_convert_expression self c problem pm)) ->
   returns (_convert_effect self msg problem pm))
  /\ (forall e, _convert_effect self msg problem pm = Raise e ->
        _convert_expression self (pb2.e_fluent msg) problem pm = Raise e
        \/ (returns (_convert_expression self (pb2.e_fluent msg) problem pm)
            /\ _convert_expression self (pb2.e_value msg) problem pm = Raise e)
        \/ (returns (_convert_expression self (pb2.e_fluent msg) problem pm)
            /\ returns (_convert_expression self (pb2.e_value msg) problem pm)
            /\ exists c, pb2.e_condition msg = Some c
                         /\ _convert_expression self c problem pm = Raise e)).
Proof.
  unfold _convert_effect. split.
  - intros [f Hf] [v Hv] Hc. rewrite Hf, Hv.
    destruct (pb2.e_condition msg) as [c|]; cbn [bind]; [|now eexists].
    destruct (Hc c eq_refl) as [g ->]. cbn [bind]. now eexists.
  - intros e.
    destruct (_convert_expression self (pb2.e_fluent msg) problem pm) as [f|x] eqn:Ef.
    2:{ destruct (pb2.e_condition msg); cbn [bind]; intros [= <-]; now left. }
    destruct (_convert_expression self (pb2.e_value msg) problem pm) as [v|x] eqn:Ev.
    2:{ destruct (pb2.e_condition msg); cbn [bind]; intros [= <-]; right; left;
        (split; [now eexists|reflexivity]). }
    destruct (pb2.e_condition msg) as [c|]; cbn [bind]; [|discriminate].
    destruct (_convert_expression self c problem pm) as [g|x] eqn:Eg; [discriminate|].
    cbn [bind]. intros [= <-]. right; right.
    split; [now eexists|]. split; [now eexists|]. now exists c.
Qed.

Lemma effect_returns_witness :
  returns (_convert_effect new_reader
             (pb2.mkEffectExpression (pb2.OTHER_EFFECT_KIND 7)
                (symbol_expression "at" pb2.FLUENT_SYMBOL) (int_constant 1) None)
             sample_problem []).
Proof.
  apply (proj1 (effect_fails_only_through_its_expressions new_reader
                  (pb2.mkEffectExpression (pb2.OTHER_EFFECT_KIND 7)
                     (symbol_expression "at" pb2.FLUENT_SYMBOL) (int_constant 1) None)
                  sample_problem [])).
  - eexists. vm_compute. reflexivity.
  - eexists. vm_compute. reflexivity.
  - intros c H. discriminate H.
Defined.

(** ** Parents of declared types *)

(** X4: a declaration of a user type always attaches a parent, named after the
    parent field of the message: a type declared without parent, that is
    with the empty string, gets a parent type whose name is empty. *)
Theorem declared_user_type_always_has_a_parent (msg : TypeDeclaration) :
  type_name msg <> "bool" ->
  PyStr.startswith (type_name msg) "integer[" = false ->
  PyStr.startswith (type_name msg) "real[" = false ->
  _convert_type_declaration msg
  = Ok (UserType (type_name msg) (Some (UserType (parent_type msg) None))).
Proof.
  intros Hb Hi Hr. unfold _convert_type_declaration. rewrite Hi, Hr.
  destruct (String.eqb_spec (type_name msg) "bool") as [E|_]; [contradiction|].
  reflexivity.
Qed.

Lemma declared_user_type_witness :
  _convert_type_declaration (mkTypeDeclaration "location" "")
  = Ok (UserType "location" (Some (UserType "" None))).
Proof.
  apply (declared_user_type_always_has_a_parent (mkTypeDeclaration "location" ""));
    [discriminate|reflexivity|reflexivity].
Defined.
